(** * scratch-svg-renderer: the quirks-mode SVG loader of [src/svg-renderer.js]

    A shallow embedding of the [SvgRenderer] class: the DOM it walks, the
    JavaScript numbers it computes with (IEEE-754 binary64, as Rocq's primitive
    floats), the renderer object and the page it attaches the drawing to, and
    the methods [loadString], [_transformText], [_findLargestStrokeWidth] and
    [_transformMeasurements]; then the canvas, its context and the images,
    and the methods that draw: [getDrawRatio], [_draw], [_drawFromImage] and
    [fromString]. *)

From Stdlib Require Import Bool Arith ZArith List String Ascii Lia.
From Stdlib Require Import Floats DecimalString Permutation.
Import ListNotations.

Set Warnings "-register-all".

Open Scope bool_scope.
Open Scope string_scope.
Open Scope list_scope.

(* ================================================================== *)
(** * The DOM *)
(* ================================================================== *)

Module Dom.

(** A DOM node.  Only elements carry a tag name and attributes; text and
    comment nodes have no [getAttribute] and an empty [childNodes].  The
    attributes are an ordered association list from names to string values. *)
Inductive node : Type :=
| Element (localName : string) (attributes : list (string * string))
          (childNodes : list node)
| Text (data : string)
| Comment (data : string).

(** The induction principle that also gives the hypothesis for every child. *)
Section NodeInd.
Variable P : node -> Prop.
Hypothesis HElement : forall name attrs kids,
    Forall P kids -> P (Element name attrs kids).
Hypothesis HText : forall s, P (Text s).
Hypothesis HComment : forall s, P (Comment s).

Fixpoint node_ind' (n : node) : P n :=
  match n with
  | Element name attrs kids =>
      HElement name attrs kids
        ((fix all (l : list node) : Forall P l :=
            match l with
            | [] => Forall_nil P
            | k :: l' => Forall_cons k (node_ind' k) (all l')
            end) kids)
  | Text s => HText s
  | Comment s => HComment s
  end.
End NodeInd.

Definition childNodes (n : node) : list node :=
  match n with
  | Element _ _ kids => kids
  | _ => []
  end.

Definition isElement (n : node) : bool :=
  match n with
  | Element _ _ _ => true
  | _ => false
  end.

(** [node.localName]: the tag of an element, nothing for the other nodes. *)
Definition localName (n : node) : option string :=
  match n with
  | Element name _ _ => Some name
  | _ => None
  end.

(** ** Attributes *)

Definition attrs := list (string * string).

(** [element.getAttribute(name)]: the value, or [None] for JavaScript's [null]. *)
Fixpoint getAttr (name : string) (a : attrs) : option string :=
  match a with
  | [] => None
  | (k, v) :: a' => if String.eqb k name then Some v else getAttr name a'
  end.

(** [element.setAttribute(name, value)]: an existing attribute keeps its place
    and takes the new value, a new one goes to the end. *)
Fixpoint setAttr (name value : string) (a : attrs) : attrs :=
  match a with
  | [] => [(name, value)]
  | (k, v) :: a' =>
      if String.eqb k name then (k, value) :: a'
      else (k, v) :: setAttr name value a'
  end.

(** [element.removeAttribute(name)]. *)
Fixpoint removeAttr (name : string) (a : attrs) : attrs :=
  match a with
  | [] => []
  | (k, v) :: a' =>
      if String.eqb k name then removeAttr name a'
      else (k, v) :: removeAttr name a'
  end.

Definition attributes (n : node) : attrs :=
  match n with
  | Element _ a _ => a
  | _ => []
  end.

Definition getAttribute (name : string) (n : node) : option string :=
  getAttr name (attributes n).

Definition setAttribute (name value : string) (n : node) : node :=
  match n with
  | Element tag a kids => Element tag (setAttr name value a) kids
  | _ => n
  end.

Definition removeAttribute (name : string) (n : node) : node :=
  match n with
  | Element tag a kids => Element tag (removeAttr name a) kids
  | _ => n
  end.

(** ** Text content *)

(** The [textContent] getter: the text of all text descendants in document
    order; comments inside an element do not count. *)
Fixpoint textContent (n : node) : string :=
  match n with
  | Element _ _ kids =>
      (fix cat (l : list node) : string :=
         match l with
         | [] => ""
         | k :: l' =>
             String.append
               match k with
               | Comment _ => ""
               | _ => textContent k
               end
               (cat l')
         end) kids
  | Text s => s
  | Comment s => s
  end.

(** The [textContent] setter: every child goes, and a non-empty string comes
    back as a single text node. *)
Definition setTextContent (s : string) (n : node) : node :=
  match n with
  | Element tag a _ =>
      Element tag a (if String.eqb s "" then [] else [Text s])
  | Text _ => Text s
  | Comment _ => Comment s
  end.

(** [element.childElementCount]. *)
Definition childElementCount (n : node) : nat :=
  List.length (filter isElement (childNodes n)).

(** [parent.appendChild(child)] for a child that has no parent yet. *)
Definition appendChild (child : node) (parent : node) : node :=
  match parent with
  | Element tag a kids => Element tag a (kids ++ [child])
  | _ => parent
  end.

(** ** Documents *)

(** A document is the list of its top-level nodes; its [documentElement] is
    the first element among them, [None] standing for [null]. *)
Record Document : Type := mkDocument { doc_childNodes : list node }.

Definition documentElement (d : Document) : option node :=
  find isElement (doc_childNodes d).

(** Mutating the root element through a reference to it is seen by the
    document that holds it. *)
Fixpoint mapFirstElement (f : node -> node) (l : list node) : list node :=
  match l with
  | [] => []
  | n :: l' => if isElement n then f n :: l' else n :: mapFirstElement f l'
  end.

Definition updateDocumentElement (f : node -> node) (d : Document) : Document :=
  mkDocument (mapFirstElement f (doc_childNodes d)).

(** Taking the root element out of its document (what adopting it into another
    tree does). *)
Fixpoint dropFirstElement (l : list node) : list node :=
  match l with
  | [] => []
  | n :: l' => if isElement n then l' else n :: dropFirstElement l'
  end.

Definition removeDocumentElement (d : Document) : Document :=
  mkDocument (dropFirstElement (doc_childNodes d)).

(** All the elements of a subtree, the root first (document order). *)
Fixpoint elements (n : node) : list node :=
  match n with
  | Element _ _ kids =>
      n :: (fix all (l : list node) : list node :=
              match l with
              | [] => []
              | k :: l' => elements k ++ all l'
              end) kids
  | _ => []
  end.

End Dom.
Import Dom.

(* ================================================================== *)
(** * JavaScript strings *)
(* ================================================================== *)

Module Js.

(** The line feed character, [\n]. *)
Definition LF : ascii := ascii_of_nat 10.

Definition isLF (c : ascii) : bool := Ascii.eqb c LF.

(** [text.split('\n')]: the pieces between line feeds, empty pieces kept;
    the empty string gives one empty piece. *)
Fixpoint split_LF (s : string) : list string :=
  match s with
  | EmptyString => [EmptyString]
  | String c s' =>
      if isLF c then EmptyString :: split_LF s'
      else match split_LF s' with
           | line :: lines => String c line :: lines
           | [] => [String c EmptyString]
           end
  end.

(** [lines.join('\n')], which undoes the split. *)
Definition joinLF (lines : list string) : string :=
  String.concat (String LF EmptyString) lines.

(** Truthiness of a string: every string but the empty one. *)
Definition truthy_string (s : string) : bool := negb (String.eqb s "").

(** Truthiness of what [getAttribute] returns: [null] and [""] are falsy. *)
Definition truthy_attr (o : option string) : bool :=
  match o with
  | Some s => truthy_string s
  | None => false
  end.

End Js.
Import Js.

(* ================================================================== *)
(** * Text quirks: the loop of [_transformText] *)
(* ================================================================== *)

Module TextQuirks.

(** [createSVGElement] comes from [./font-inliner], which is not among the
    sources; it is taken as what its one call needs: a fresh element of the
    given tag, with no attribute and no child. *)
Definition createSVGElement (tag : string) : node := Element tag [] [].

(** The body of the inner loop, lines 131-134: one [tspan] per line. *)
Definition tspanNode (line : string) : node :=
  let tspanNode := createSVGElement "tspan" in
  let tspanNode := setAttribute "x" "0" tspanNode in
  let tspanNode := setAttribute "dy" "1.2em" tspanNode in
  setTextContent line tspanNode.

(** The body of the outer loop, lines 109-137, on one text element. *)
Definition applyQuirks (textElement : node) : node :=
  let textElement := removeAttribute "x" textElement in
  let textElement := removeAttribute "y" textElement in
  let textElement :=
    setAttribute "alignment-baseline" "text-before-edge" textElement in
  let textElement :=
    if negb (truthy_attr (getAttribute "font-size" textElement))
    then setAttribute "font-size" "14" textElement
    else textElement in
  let textElement :=
    if negb (truthy_attr (getAttribute "font-family" textElement))
    then setAttribute "font-family" "Helvetica" textElement
    else textElement in
  let text := textContent textElement in
  if truthy_string text && (childElementCount textElement =? 0)%nat
  then
    let textElement := setTextContent "" textElement in
    let lines := split_LF text in
    fold_left (fun textElement line => appendChild (tspanNode line) textElement)
              lines textElement
  else textElement.

(** Lines 110-122 of that body, on the attributes alone. *)
Definition quirkAttrs (a : attrs) : attrs :=
  let a := removeAttr "x" a in
  let a := removeAttr "y" a in
  let a := setAttr "alignment-baseline" "text-before-edge" a in
  let a :=
    if negb (truthy_attr (getAttr "font-size" a))
    then setAttr "font-size" "14" a
    else a in
  if negb (truthy_attr (getAttr "font-family" a))
  then setAttr "font-family" "Helvetica" a
  else a.

(** A reference to a node below a root: the child indices from the root down. *)
Definition path := list nat.

Definition isTextTag (n : node) : bool :=
  match localName n with
  | Some name => String.eqb name "text"
  | None => false
  end.

(** [collectText], lines 98-106: the text elements of the tree in document
    order, each as a reference into the tree. *)
Fixpoint collectText (domElement : node) : list path :=
  (if isTextTag domElement then [[]] else []) ++
  match domElement with
  | Element _ _ kids =>
      (fix children (i : nat) (l : list node) : list path :=
         match l with
         | [] => []
         | k :: l' => map (cons i) (collectText k) ++ children (S i) l'
         end) 0%nat kids
  | _ => []
  end.

(** The references into the children of an element, the first child having
    index [i]: the loop of lines 102-104. *)
Fixpoint collectChildren (i : nat) (l : list node) : list path :=
  match l with
  | [] => []
  | k :: l' => map (cons i) (collectText k) ++ collectChildren (S i) l'
  end.

(** Mutating the node a reference points to. *)
Fixpoint updateNth {A : Type} (i : nat) (f : A -> A) (l : list A) : list A :=
  match l, i with
  | [], _ => []
  | x :: l', O => f x :: l'
  | x :: l', S i' => x :: updateNth i' f l'
  end.

Fixpoint updateAt (p : path) (f : node -> node) (n : node) : node :=
  match p with
  | [] => f n
  | i :: p' =>
      match n with
      | Element tag a kids => Element tag a (updateNth i (updateAt p' f) kids)
      | _ => n
      end
  end.

Fixpoint lookupAt (p : path) (n : node) : option node :=
  match p with
  | [] => Some n
  | i :: p' =>
      match nth_error (childNodes n) i with
      | Some k => lookupAt p' k
      | None => None
      end
  end.

(** Lines 96-138: collect the text elements, then fix each one in place. *)
Definition transformTextElements (svgTag : node) : node :=
  let textElements := collectText svgTag in
  fold_left (fun tree textElement => updateAt textElement applyQuirks tree)
            textElements svgTag.

(** The same pass by recursion on the tree: a text element with no child
    element is fixed as a whole, any other keeps its children, which are
    fixed in turn. *)
Fixpoint quirksRec (n : node) : node :=
  match n with
  | Element tag a kids =>
      if String.eqb tag "text" then
        if (childElementCount n =? 0)%nat then applyQuirks n
        else Element tag (attributes (applyQuirks n)) (map quirksRec kids)
      else Element tag a (map quirksRec kids)
  | _ => n
  end.

End TextQuirks.
Import TextQuirks.

(* ================================================================== *)
(** * JavaScript numbers *)
(* ================================================================== *)

Module Num.

Local Open Scope float_scope.

(** [Math.max(a, b)]: [NaN] when an argument is [NaN]; otherwise the larger
    one, with [+0] larger than [-0]. *)
Definition Math_max (a b : float) : float :=
  if is_nan a || is_nan b then nan
  else if a <? b then b
  else if b <? a then a
  else if get_sign a then b else a.

(** Truthiness of a number: every number but [+0], [-0] and [NaN]. *)
Definition truthy_number (v : float) : bool := negb (is_nan v || is_zero v).

(** [v || 0] for a number [v]. *)
Definition or_zero (v : float) : float := if truthy_number v then v else 0.

(** The object [{x, y, width, height}]: an [SVGRect], or the measurements. *)
Record Rect : Type := mkRect
  { x : float; y : float; width : float; height : float }.

End Num.
Import Num.

(* ================================================================== *)
(** * [_findLargestStrokeWidth] *)
(* ================================================================== *)

Section StrokeWidth.

(** The builtin [Number(string)]. *)
Variable Number : string -> float.

(** Lines 154-164: what one node does to the running maximum. *)
Definition visitStroke (largestStrokeWidth : float) (domElement : node) : float :=
  if isElement domElement then
    let largestStrokeWidth :=
      if truthy_attr (getAttribute "stroke" domElement)
      then Math_max largestStrokeWidth 1
      else largestStrokeWidth in
    match getAttribute "stroke-width" domElement with
    | Some w =>
        if truthy_string w
        then Math_max largestStrokeWidth (or_zero (Number w))
        else largestStrokeWidth
    | None => largestStrokeWidth
    end
  else largestStrokeWidth.

(** [collectStrokeWidths], lines 153-168, with the variable it updates
    passed along. *)
Fixpoint collectStrokeWidths (largestStrokeWidth : float) (domElement : node)
  : float :=
  let largestStrokeWidth := visitStroke largestStrokeWidth domElement in
  match domElement with
  | Element _ _ kids =>
      (fix children (l : list node) (largest : float) : float :=
         match l with
         | [] => largest
         | k :: l' => children l' (collectStrokeWidths largest k)
         end) kids largestStrokeWidth
  | _ => largestStrokeWidth
  end.

Definition _findLargestStrokeWidth (rootNode : node) : float :=
  collectStrokeWidths 0%float rootNode.

End StrokeWidth.

(* ================================================================== *)
(** * The renderer object and the page *)
(* ================================================================== *)

Module Renderer.

(** A decoded image, as a handle. *)
Definition Image := nat.

(** What [this._svgTag] refers to: the root element that [this._svgDom] holds
    (the two fields then show the same object), or an element that is in no
    document the renderer holds. *)
Inductive tagRef : Type :=
| RootOfSvgDom
| Detached (element : node).

(** The fields of an [SvgRenderer]; [None] is [undefined] or [null]. *)
Record SvgRenderer : Type := mkSvgRenderer
  { _measurements : Rect;
    _cachedImage : option Image;
    _svgDom : option Document;
    _svgTag : option tagRef }.

(** The global [document]: the children of [document.body], each with the
    identity of its node, and the next identity [createElement] hands out. *)
Record Page : Type := mkPage
  { body : list (nat * node);
    nextNode : nat }.

Record Store : Type := mkStore
  { this : SvgRenderer;
    document : Page }.

(** What a method can throw. *)
Inductive exn : Type :=
| InvalidDocument      (* Error('Document does not appear to be SVG.') *)
| TypeError            (* a property of undefined or null *)
| NotFoundError        (* removeChild of a node that is not a child *)
| FontFailure          (* thrown by convertFonts *)
| MeasurementFailure.  (* thrown by getBBox *)

(** A method body: it runs on a store and leaves a store, also when it throws. *)
Definition M (A : Type) : Type := Store -> (exn + A) * Store.

Definition ret {A} (a : A) : M A := fun s => (inr a, s).

Definition throw {A} (e : exn) : M A := fun s => (inl e, s).

Definition bind {A B} (m : M A) (k : A -> M B) : M B :=
  fun s =>
    match m s with
    | (inr a, s') => k a s'
    | (inl e, s') => (inl e, s')
    end.

(** [try { m } finally { f }]: [f] runs on every exit of [m]; what [m] threw
    is thrown again after it, unless [f] throws itself. *)
Definition try_finally {A} (m : M A) (f : M unit) : M A :=
  fun s =>
    match m s with
    | (r, s') =>
        match f s' with
        | (inr _, s'') => (r, s'')
        | (inl e, s'') => (inl e, s'')
        end
    end.

Definition gets {A} (f : Store -> A) : M A := fun s => (inr (f s), s).

Definition modify (f : Store -> Store) : M unit := fun s => (inr tt, f s).

Declare Scope js_scope.
Delimit Scope js_scope with js.
Notation "x <- m ;; k" := (bind m (fun x => k))
  (at level 61, m at next level, right associativity) : js_scope.
Notation "m ;;; k" := (bind m (fun _ => k))
  (at level 61, right associativity) : js_scope.

Definition withThis (f : SvgRenderer -> SvgRenderer) (s : Store) : Store :=
  mkStore (f (this s)) (document s).

Definition withDocument (f : Page -> Page) (s : Store) : Store :=
  mkStore (this s) (f (document s)).

(** The element [this._svgTag] shows now. *)
Definition svgTagNode (r : SvgRenderer) : option node :=
  match _svgTag r with
  | Some RootOfSvgDom =>
      match _svgDom r with
      | Some d => documentElement d
      | None => None
      end
  | Some (Detached e) => Some e
  | None => None
  end.

(** A mutation of the element [this._svgTag] shows, where it lives. *)
Definition updateSvgTag (f : node -> node) (r : SvgRenderer) : SvgRenderer :=
  match _svgTag r with
  | Some RootOfSvgDom =>
      mkSvgRenderer (_measurements r) (_cachedImage r)
                    (option_map (updateDocumentElement f) (_svgDom r))
                    (_svgTag r)
  | Some (Detached e) =>
      mkSvgRenderer (_measurements r) (_cachedImage r) (_svgDom r)
                    (Some (Detached (f e)))
  | None => r
  end.

(** [this._cachedImage = img]. *)
Definition set_cachedImage (img : option Image) (r : SvgRenderer) : SvgRenderer :=
  mkSvgRenderer (_measurements r) img (_svgDom r) (_svgTag r).

(** [this._svgDom = dom]: an element that [this._svgTag] showed in the old
    document stays what [this._svgTag] shows. *)
Definition set_svgDom (dom : Document) (r : SvgRenderer) : SvgRenderer :=
  mkSvgRenderer (_measurements r) (_cachedImage r) (Some dom)
                (option_map Detached (svgTagNode r)).

(** [this._svgTag = this._svgDom.documentElement], for a document that is
    there: the root element, or [null] when the document has none. *)
Definition set_svgTag_documentElement (r : SvgRenderer) : SvgRenderer :=
  mkSvgRenderer (_measurements r) (_cachedImage r) (_svgDom r)
                match _svgDom r with
                | Some d =>
                    match documentElement d with
                    | Some _ => Some RootOfSvgDom
                    | None => None
                    end
                | None => None
                end.

(** [this._measurements = m]. *)
Definition set_measurements (m : Rect) (r : SvgRenderer) : SvgRenderer :=
  mkSvgRenderer m (_cachedImage r) (_svgDom r) (_svgTag r).

(** Adopting the element [this._svgTag] shows into another tree takes it out
    of the document that held it. *)
Definition detachSvgTag (r : SvgRenderer) : SvgRenderer :=
  match _svgTag r with
  | Some RootOfSvgDom =>
      mkSvgRenderer (_measurements r) (_cachedImage r)
                    (option_map removeDocumentElement (_svgDom r))
                    (option_map Detached (svgTagNode r))
  | _ => r
  end.

(** The constructor, lines 14-19 (the canvas and its context left out). *)
Definition new_SvgRenderer : SvgRenderer :=
  mkSvgRenderer (mkRect 0 0 0 0) None None None.

End Renderer.
Import Renderer.

(* ================================================================== *)
(** * The methods of [SvgRenderer] *)
(* ================================================================== *)

Section Methods.

Local Open Scope js_scope.

(** What the browser and the two font modules give the class. *)

(** [new DOMParser().parseFromString(text, 'text/xml')]. *)
Variable parseFromString : string -> Document.
(** [new XMLSerializer().serializeToString(dom)]. *)
Variable serializeToString : Document -> string.
(** [convertFonts(svgTag)], of [./font-converter]: the tree as the call
    leaves it, or [None] when the call throws. *)
Variable convertFonts : node -> option node.
(** [inlineSvgFonts(svgTag)], of [./font-inliner]. *)
Variable inlineSvgFonts : node -> node.
(** [svgTag.getBBox()] on an element attached to the page: the bounding
    box, or [None] when the call throws. *)
Variable getBBox : node -> option Rect.
(** The builtin [Number(string)]. *)
Variable Number : string -> float.
(** The conversion of a number to a string, as [setAttribute] and template
    literals apply it. *)
Variable ToString : float -> string.

(** [toString], lines 242-251. *)
Definition toString (shouldInjectFonts : bool) : M string :=
  svgDom <- gets (fun s => _svgDom (this s)) ;;
  match svgDom with
  | None => throw TypeError
  | Some svgDom =>
      let svgDom :=
        if shouldInjectFonts
        then updateDocumentElement inlineSvgFonts svgDom
        else svgDom in
      ret (serializeToString svgDom)
  end.

(** [_transformText], lines 95-140. *)
Definition _transformText : M unit :=
  svgTag <- gets (fun s => svgTagNode (this s)) ;;
  match svgTag with
  | None => throw TypeError
  | Some svgTag =>
      modify (withThis (updateSvgTag transformTextElements)) ;;;
      match convertFonts (transformTextElements svgTag) with
      | Some converted =>
          modify (withThis (updateSvgTag (fun _ => converted)))
      | None => throw FontFailure
      end
  end.

(** [document.createElement(tag)]: a new node with an identity of its own. *)
Definition createElement (tag : string) : M (nat * node) :=
  fun s =>
    let id := nextNode (document s) in
    (inr (id, Element tag [] []),
     withDocument (fun p => mkPage (body p) (S id)) s).

(** [document.body.appendChild(child)]. *)
Definition body_appendChild (child : nat * node) : M unit :=
  modify (withDocument (fun p => mkPage (body p ++ [child]) (nextNode p))).

Definition isNode (id : nat) (child : nat * node) : bool :=
  (fst child =? id)%nat.

(** [document.body.removeChild(child)]. *)
Definition body_removeChild (id : nat) : M unit :=
  fun s =>
    if existsb (isNode id) (body (document s))
    then (inr tt,
          withDocument
            (fun p => mkPage (filter (fun c => negb (isNode id c)) (body p))
                             (nextNode p)) s)
    else (inl NotFoundError, s).

(** [svgSpot.appendChild(this._svgTag)], for the [svgSpot] that is on the
    page: the element leaves the renderer's document and becomes the last
    child of [svgSpot]. *)
Definition svgSpot_appendChild_svgTag (id : nat) : M node :=
  svgTag <- gets (fun s => svgTagNode (this s)) ;;
  match svgTag with
  | None => throw TypeError
  | Some svgTag =>
      modify (withThis detachSvgTag) ;;;
      modify (withDocument
                (fun p =>
                   mkPage (map (fun c => if isNode id c
                                         then (fst c, appendChild svgTag (snd c))
                                         else c) (body p))
                          (nextNode p))) ;;;
      ret svgTag
  end.

(** The page after the [try ... finally] of lines 197-205 has run on a page:
    the node made for it is not among the children, and the next node will
    be another. *)
Definition pageAfter (p : Page) : Page :=
  mkPage (filter (fun c => negb (isNode (nextNode p) c)) (body p))
         (S (nextNode p)).

(** The renderer when lines 199-212 are done: the element is out of the old
    document, and the text of that document has been parsed again. *)
Definition reparsed (d : Document) (r : SvgRenderer) : SvgRenderer :=
  set_svgTag_documentElement
    (set_svgDom (parseFromString (serializeToString d)) (detachSvgTag r)).

(** What lines 217-233 do to the renderer, for a bounding box and the root
    element of the document parsed again. *)
Definition measured (bbox : Rect) (svgTag : node) (r : SvgRenderer)
  : SvgRenderer :=
  let halfStrokeWidth := (_findLargestStrokeWidth Number svgTag / 2)%float in
  let width := (Num.width bbox + (halfStrokeWidth * 2))%float in
  let height := (Num.height bbox + (halfStrokeWidth * 2))%float in
  let x := (Num.x bbox - halfStrokeWidth)%float in
  let y := (Num.y bbox - halfStrokeWidth)%float in
  set_measurements (mkRect x y width height)
    (updateSvgTag
       (setAttribute "viewBox"
          (ToString x ++ " " ++ ToString y ++ " " ++
           ToString width ++ " " ++ ToString height)%string)
       (updateSvgTag (setAttribute "height" (ToString height))
          (updateSvgTag (setAttribute "width" (ToString width)) r))).

(** [_transformMeasurements], lines 187-234. *)
Definition _transformMeasurements : M unit :=
  svgText <- toString false ;;
  svgSpot <- createElement "span" ;;
  bbox <- try_finally
            (body_appendChild svgSpot ;;;
             svgTag <- svgSpot_appendChild_svgTag (fst svgSpot) ;;
             match getBBox svgTag with
             | Some bbox => ret bbox
             | None => throw MeasurementFailure
             end)
            (body_removeChild (fst svgSpot)) ;;
  modify (withThis (set_svgDom (parseFromString svgText))) ;;;
  modify (withThis set_svgTag_documentElement) ;;;
  svgTag <- gets (fun s => svgTagNode (this s)) ;;
  match svgTag with
  | None => throw TypeError
  | Some svgTag =>
      let halfStrokeWidth :=
        (_findLargestStrokeWidth Number svgTag / 2)%float in
      let width := (Num.width bbox + (halfStrokeWidth * 2))%float in
      let height := (Num.height bbox + (halfStrokeWidth * 2))%float in
      let x := (Num.x bbox - halfStrokeWidth)%float in
      let y := (Num.y bbox - halfStrokeWidth)%float in
      modify (withThis (updateSvgTag (setAttribute "width" (ToString width)))) ;;;
      modify (withThis (updateSvgTag (setAttribute "height" (ToString height)))) ;;;
      modify (withThis (updateSvgTag
                (setAttribute "viewBox"
                   (ToString x ++ " " ++ ToString y ++ " " ++
                    ToString width ++ " " ++ ToString height)%string))) ;;;
      modify (withThis (set_measurements (mkRect x y width height)))
  end.

(** [loadString], lines 69-85. *)
Definition loadString (svgString : string) : M unit :=
  modify (withThis (set_cachedImage None)) ;;;
  modify (withThis (set_svgDom (parseFromString svgString))) ;;;
  svgDom <- gets (fun s => _svgDom (this s)) ;;
  match svgDom with
  | None => throw TypeError
  | Some svgDom =>
      if (List.length (doc_childNodes svgDom) <? 1)%nat
      then throw InvalidDocument
      else
        match documentElement svgDom with
        | None => throw TypeError
        | Some root =>
            if negb (match localName root with
                     | Some name => String.eqb name "svg"
                     | None => false
                     end)
            then throw InvalidDocument
            else
              modify (withThis set_svgTag_documentElement) ;;;
              _transformText ;;;
              _transformMeasurements
        end
  end.

(** [measure], lines 46-49. *)
Definition measure (svgString : string) : M Rect :=
  loadString svgString ;;;
  gets (fun s => _measurements (this s)).

(** The getters [size] and [viewOffset], lines 54-63. *)
Definition size : M (list float) :=
  gets (fun s => [Num.width (_measurements (this s));
                  Num.height (_measurements (this s))]).

Definition viewOffset : M (list float) :=
  gets (fun s => [Num.x (_measurements (this s));
                  Num.y (_measurements (this s))]).

End Methods.

(* ================================================================== *)
(** * What the specification says of the stroke width *)
(* ================================================================== *)

Module StrokeSpec.

Local Open Scope float_scope.

(** A number that is [+0] or above it: what the running maximum always is. *)
Definition nonneg (v : float) : Prop := v = 0 \/ (0 <? v) = true.

(** [m] is the maximum of [l]: a member that every member is at most. *)
Definition is_maximum (m : float) (l : list float) : Prop :=
  In m l /\ Forall (fun v => (v <=? m) = true) l.

(** The largest number of a list and [0]. *)
Definition maxOf (l : list float) : float := fold_right Math_max 0 l.

Section Contribution.

Variable Number : string -> float.

(** The specification's words: 1 if a [stroke] attribute is present and no
    explicit [stroke-width]; else the numeric value of [stroke-width] if
    present and it parses to a non-negative number; else 0. *)
Definition claimedContribution (e : node) : float :=
  match getAttribute "stroke" e, getAttribute "stroke-width" e with
  | Some _, None => 1
  | _, Some w => if 0 <=? Number w then Number w else 0
  | None, None => 0
  end.

Definition claimedStrokeWidth (root : node) : float :=
  maxOf (map claimedContribution (elements root)).

(** What an element gives in the code: 1 for a non-empty [stroke], and the
    value of a non-empty [stroke-width] that is a number above 0, whichever
    is larger. *)
Definition strokePart (e : node) : float :=
  if truthy_attr (getAttribute "stroke" e) then 1 else 0.

Definition widthPart (e : node) : float :=
  match getAttribute "stroke-width" e with
  | Some w => if truthy_string w && (0 <? Number w) then Number w else 0
  | None => 0
  end.

Definition contribution (e : node) : float :=
  Math_max (strokePart e) (widthPart e).

Definition maxContribution (root : node) : float :=
  maxOf (map contribution (elements root)).

End Contribution.

(** [extendedBy e d d']: the tree [d'] is [d] with the element [e] added as a
    child somewhere, at any depth and position. *)
Inductive extendedBy (e : node) : node -> node -> Prop :=
| extended_here : forall tag a pre post,
    extendedBy e (Element tag a (pre ++ post)) (Element tag a (pre ++ e :: post))
| extended_below : forall tag a pre k k' post,
    extendedBy e k k' ->
    extendedBy e (Element tag a (pre ++ k :: post))
                 (Element tag a (pre ++ k' :: post)).

End StrokeSpec.
Import StrokeSpec.

(** The identities of the nodes on the page are all older than the next one
    [createElement] gives. *)
Definition page_ok (p : Page) : Prop :=
  Forall (fun c => fst c < nextNode p) (body p).

(* ================================================================== *)
(** * A small browser, to run the methods on examples *)
(* ================================================================== *)

(** The theorems below hold for every parser, serializer, oracle and number
    conversion.  The examples need some: the ones here behave as a browser
    does on the few documents and numbers the examples use. *)
Module Sample.

Definition quote : string := String (ascii_of_nat 34) EmptyString.

Definition serializeAttrs (a : attrs) : string :=
  fold_right (fun kv rest =>
                (" " ++ fst kv ++ "=" ++ quote ++ snd kv ++ quote ++ rest)%string)
             EmptyString a.

(** XML text of a node (no character of the examples needs escaping). *)
Fixpoint serializeNode (n : node) : string :=
  match n with
  | Element tag a kids =>
      match kids with
      | [] => ("<" ++ tag ++ serializeAttrs a ++ "/>")%string
      | _ =>
          ("<" ++ tag ++ serializeAttrs a ++ ">" ++
           (fix all (l : list node) : string :=
              match l with
              | [] => EmptyString
              | k :: l' => String.append (serializeNode k) (all l')
              end) kids ++
           "</" ++ tag ++ ">")%string
      end
  | Text s => s
  | Comment s => ("<!--" ++ s ++ "-->")%string
  end.

Definition serializeToString (d : Document) : string :=
  String.concat EmptyString (map serializeNode (doc_childNodes d)).

(** The document a browser gives for text that is not XML. *)
Definition parsererror : Document :=
  mkDocument [Element "parsererror" [] [Text "XML Parsing Error"]].

(** A parser that knows the documents of [known] by their XML text, and
    takes every other text for one that is not XML. *)
Definition parseAmong (known : list Document) (text : string) : Document :=
  match find (fun d => String.eqb (serializeToString d) text) known with
  | Some d => d
  | None => parsererror
  end.

(** A drawing with a three-line text, written with a comment in the middle
    of it, under a group. *)
Definition poemText : node :=
  Element "text" [("x", "10"); ("font-size", "18")]
          [Text (String "a" (String LF EmptyString)); Comment "verse";
           Text (String "b" (String LF "c"))].

Definition poem : node :=
  Element "svg" [] [Element "g" [] [Comment "title"; poemText]].

(** A text whose [font-size] is there and empty. *)
Definition emptyFontSize : node :=
  Element "svg" [] [Element "text" [("font-size", "")] [Text "hi"]].

(** A shape with a stroke thinner than one unit. *)
Definition thinStroke : node :=
  Element "svg" []
          [Element "rect" [("stroke", "red"); ("stroke-width", "0.5")] []].

(** No font to convert. *)
Definition convertFonts (svgTag : node) : option node := Some svgTag.

Definition inlineSvgFonts (svgTag : node) : node := svgTag.

(** [Number] on plain decimal literals, [digits] or [digits.digits] with an
    optional minus sign, of at most 15 characters (the integer the digits
    spell and the power of ten are then exact, and their quotient is rounded
    once, as the conversion asks), and on the empty string, which is [0].
    On every other string this one answers [NaN]: right for text that is no
    number, and not meant for the literal forms left out here (exponents,
    hexadecimal, [Infinity], blanks around), which no example uses. *)
Definition digit (c : ascii) : option Z :=
  let n := Z.of_nat (nat_of_ascii c) in
  if ((48 <=? n) && (n <=? 57))%Z then Some (n - 48)%Z else None.

(** The digits read so far, and how many came after the point. *)
Fixpoint readDecimal (s : string) (seenPoint : bool) (mantissa scale : Z)
  : option (Z * Z) :=
  match s with
  | EmptyString => Some (mantissa, scale)
  | String c s' =>
      if Ascii.eqb c "."%char then
        if seenPoint then None else readDecimal s' true mantissa scale
      else
        match digit c with
        | Some d =>
            readDecimal s' seenPoint (10 * mantissa + d)%Z
                        (if seenPoint then (10 * scale)%Z else scale)
        | None => None
        end
  end.

Definition ofZ (z : Z) : float := of_uint63 (Uint63.of_Z z).

Definition NumberUnsigned (s : string) : float :=
  match readDecimal s false 0%Z 1%Z with
  | Some (mantissa, scale) =>
      if (String.length s <=? 15)%nat && negb (String.eqb s ".")
      then (ofZ mantissa / ofZ scale)%float
      else nan
  | None => nan
  end.

Definition Number (s : string) : float :=
  match s with
  | EmptyString => 0%float
  | String "-"%char s' =>
      if String.eqb s' "" then nan else (- NumberUnsigned s')%float
  | _ => NumberUnsigned s
  end.

(** The conversion of a number to a string, for the numbers whose decimal
    expansion is short: integers and binary fractions of at most 15
    significant digits, written in full as JavaScript writes them. *)
Fixpoint stripZeros (s : string) : string :=
  match s with
  | EmptyString => EmptyString
  | String c s' =>
      let rest := stripZeros s' in
      if String.eqb rest "" && Ascii.eqb c "0"%char then EmptyString
      else String c rest
  end.

Fixpoint zeros (n : nat) : string :=
  match n with
  | O => EmptyString
  | S n' => String "0"%char (zeros n')
  end.

Definition decimalOfPos (p : positive) : string :=
  NilZero.string_of_uint (Pos.to_uint p).

(** The digits of [p / 10^k]. *)
Definition fixedPoint (p : positive) (k : nat) : string :=
  let ds := decimalOfPos p in
  let ds := (zeros (S k - String.length ds) ++ ds)%string in
  let whole := String.substring 0 (String.length ds - k) ds in
  let frac := stripZeros (String.substring (String.length ds - k) k ds) in
  if String.eqb frac "" then whole else (whole ++ "." ++ frac)%string.

Definition ToString (v : float) : string :=
  match Prim2SF v with
  | S754_nan => "NaN"
  | S754_infinity s => if s then "-Infinity" else "Infinity"
  | S754_zero _ => "0"
  | S754_finite s m e =>
      ((if s then "-" else "") ++
       match e with
       | Zneg k => fixedPoint (m * Pos.pow 5 k) (Pos.to_nat k)
       | _ => decimalOfPos (m * Pos.pow 2 (Z.to_pos e))
       end)%string
  end.

(** An oracle that measures every drawing with something in it as 10 by 20
    at the origin, and throws on an empty one. *)
Definition getBBox (svgTag : node) : option Rect :=
  match childNodes svgTag with
  | [] => None
  | _ => Some (mkRect 0 0 10 20)
  end.

(** An oracle for a very large drawing: 2^53 units each way. *)
Definition hugeBBox (svgTag : node) : option Rect :=
  Some (mkRect 0 0 9007199254740992 9007199254740992).

(** The documents of the examples. *)
Definition greeting : Document :=
  mkDocument
    [Element "svg" []
       [Element "text" [("stroke", "red")]
                [Text (String "H" (String "i" (String LF "There")))]]].

Definition emptyDrawing : Document := mkDocument [Element "svg" [] []].

Definition notsvg : Document := mkDocument [Element "notsvg" [] []].

Definition oneStroke : Document :=
  mkDocument [Element "svg" [] [Element "rect" [("stroke-width", "1")] []]].

Definition twoStrokes : Document :=
  mkDocument [Element "svg" []
                [Element "rect" [("stroke-width", "1")] [];
                 Element "rect" [("stroke-width", "3")] []]].

Definition plainShape : Document :=
  mkDocument [Element "svg" [] [Element "rect" [] []]].

Definition plainAndThin : Document :=
  mkDocument [Element "svg" []
                [Element "rect" [] [];
                 Element "rect" [("stroke", "red"); ("stroke-width", "0.5")] []]].

(** What the parser knows: these documents, as written and as the text
    quirks leave them. *)
Definition known : list Document :=
  let written := [greeting; emptyDrawing; notsvg; oneStroke; twoStrokes;
                  plainShape; plainAndThin] in
  written ++ map (updateDocumentElement transformTextElements) written.

Definition parseFromString : string -> Document := parseAmong known.

(** A page with something on it, and a renderer just made. *)
Definition freshStore : Store :=
  mkStore new_SvgRenderer (mkPage [(0, Element "div" [] [])] 1).

Definition load (oracle : node -> option Rect) : string -> M unit :=
  loadString parseFromString serializeToString convertFonts inlineSvgFonts
             oracle Number ToString.

Definition measureWith (oracle : node -> option Rect) : string -> M Rect :=
  measure parseFromString serializeToString convertFonts inlineSvgFonts
          oracle Number ToString.

Definition transformMeasurementsWith (oracle : node -> option Rect) : M unit :=
  _transformMeasurements parseFromString serializeToString inlineSvgFonts
                         oracle Number ToString.

(** An oracle that always throws. *)
Definition noBBox (svgTag : node) : option Rect := None.

(** The store when lines 71-82 of [loadString] are done for a document. *)
Definition parsedStore (d : Document) : Store :=
  withThis (fun r => updateSvgTag transformTextElements
                       (set_svgTag_documentElement
                          (set_svgDom d (set_cachedImage None r))))
           freshStore.

(** The store after the greeting has been loaded, and after it has then been
    drawn, which leaves an image in the cache. *)
Definition loaded : Store :=
  snd (load getBBox (serializeToString greeting) freshStore).

Definition drawn : Store := withThis (set_cachedImage (Some 1)) loaded.

End Sample.

(* ================================================================== *)
(** * More of the text: what to say of the lines *)
(* ================================================================== *)

Module TextSpec.

(** The number of line feeds of a string. *)
Fixpoint countLF (s : string) : nat :=
  match s with
  | EmptyString => 0
  | String c s' => (if isLF c then 1 else 0) + countLF s'
  end.

(** A string without its line feeds. *)
Fixpoint removeLF (s : string) : string :=
  match s with
  | EmptyString => EmptyString
  | String c s' => if isLF c then removeLF s' else String c (removeLF s')
  end.

(** The attributes lines 110-122 remove or set; they touch no other. *)
Definition quirkNames : list string :=
  ["x"; "y"; "alignment-baseline"; "font-size"; "font-family"].

End TextSpec.
Import TextSpec.

(* ================================================================== *)
(** * More of the renderer: the document between the steps *)
(* ================================================================== *)

Module LoadSpec.

(** The document when [_transformText] is done with the document parsed
    from the string: the root has been through the text quirks, and
    [convertFonts] has left it as [converted]. *)
Definition afterText (converted : node) (parsed : Document) : Document :=
  updateDocumentElement (fun _ => converted)
    (updateDocumentElement transformTextElements parsed).

(** The measurements of a bounding box and a largest stroke width, lines
    217-221. *)
Definition withStroke (bbox : Rect) (largestStrokeWidth : float) : Rect :=
  let halfStrokeWidth := (largestStrokeWidth / 2)%float in
  mkRect (Num.x bbox - halfStrokeWidth) (Num.y bbox - halfStrokeWidth)
         (Num.width bbox + (halfStrokeWidth * 2))
         (Num.height bbox + (halfStrokeWidth * 2)).

Section Outcome.

Variable parseFromString : string -> Document.
Variable serializeToString : Document -> string.
Variable convertFonts : node -> option node.
Variable getBBox : node -> option Rect.

(** How a load ends, read off lines 69-85 and the two methods they call:
    the checks in the order the code makes them. *)
Definition loadOutcome (svgString : string) : exn + unit :=
  let parsed := parseFromString svgString in
  if (List.length (doc_childNodes parsed) <? 1)%nat then inl InvalidDocument
  else
    match documentElement parsed with
    | None => inl TypeError
    | Some root =>
        if negb (match localName root with
                 | Some name => String.eqb name "svg"
                 | None => false
                 end)
        then inl InvalidDocument
        else
          match convertFonts (transformTextElements root) with
          | None => inl FontFailure
          | Some converted =>
              match documentElement (afterText converted parsed) with
              | None => inl TypeError
              | Some svgTag =>
                  match getBBox svgTag with
                  | None => inl MeasurementFailure
                  | Some _ =>
                      match documentElement
                              (parseFromString
                                 (serializeToString
                                    (afterText converted parsed))) with
                      | None => inl TypeError
                      | Some _ => inr tt
                      end
                  end
              end
          end
    end.

(** What a load that fails leaves in [this._svgDom], by the place where it
    fails: the document parsed from the string, at the stage it had reached
    when the error was thrown. *)
Inductive leftByFailedLoad (svgString : string) : exn -> Document -> Prop :=
| left_rejected :
    (* lines 76-79: no node, or a root that is not [svg] *)
    (List.length (doc_childNodes (parseFromString svgString)) < 1
     \/ exists root,
          documentElement (parseFromString svgString) = Some root
          /\ localName root <> Some "svg") ->
    leftByFailedLoad svgString InvalidDocument (parseFromString svgString)
| left_without_root :
    (* line 77: nodes, but no element among them *)
    1 <= List.length (doc_childNodes (parseFromString svgString)) ->
    documentElement (parseFromString svgString) = None ->
    leftByFailedLoad svgString TypeError (parseFromString svgString)
| left_by_fonts : forall root,
    (* line 139: the text quirks are done, [convertFonts] throws *)
    documentElement (parseFromString svgString) = Some root ->
    localName root = Some "svg" ->
    convertFonts (transformTextElements root) = None ->
    leftByFailedLoad svgString FontFailure
      (updateDocumentElement transformTextElements (parseFromString svgString))
| left_unrooted : forall root converted,
    (* line 199: the text step is done and has left no root to attach *)
    documentElement (parseFromString svgString) = Some root ->
    localName root = Some "svg" ->
    convertFonts (transformTextElements root) = Some converted ->
    documentElement (afterText converted (parseFromString svgString)) = None ->
    leftByFailedLoad svgString TypeError
      (afterText converted (parseFromString svgString))
| left_by_measurement : forall root converted svgTag,
    (* line 201: the root has been moved to the page, [getBBox] throws *)
    documentElement (parseFromString svgString) = Some root ->
    localName root = Some "svg" ->
    convertFonts (transformTextElements root) = Some converted ->
    documentElement (afterText converted (parseFromString svgString))
    = Some svgTag ->
    getBBox svgTag = None ->
    leftByFailedLoad svgString MeasurementFailure
      (removeDocumentElement
         (afterText converted (parseFromString svgString)))
| left_by_reparse : forall root converted svgTag bbox,
    (* line 224: the text parsed again has no root element *)
    documentElement (parseFromString svgString) = Some root ->
    localName root = Some "svg" ->
    convertFonts (transformTextElements root) = Some converted ->
    documentElement (afterText converted (parseFromString svgString))
    = Some svgTag ->
    getBBox svgTag = Some bbox ->
    documentElement
      (parseFromString
         (serializeToString
            (afterText converted (parseFromString svgString)))) = None ->
    leftByFailedLoad svgString TypeError
      (parseFromString
         (serializeToString
            (afterText converted (parseFromString svgString)))).

End Outcome.

End LoadSpec.
Import LoadSpec.

(* ================================================================== *)
(** * Drawing: the canvas, the images, and the methods that draw *)
(* ================================================================== *)

Module Draw.

(** An [onFinish] function, by its identity.  What it does when called is
    not the class's: it is a parameter of the drawing methods below, and it
    may do anything, throw or call the renderer.  That it is called is
    recorded. *)
Definition Callback := nat.

(** The calls the class makes on the 2d context of its canvas. *)
Inductive contextCall : Type :=
| ctx_clearRect (x y w h : float)
| ctx_scale (sx sy : float)
| ctx_drawImage (img : Image) (dx dy : float)
| ctx_setTransform (a b c d e f : float).

(** [this._canvas]: its bitmap size as the browser keeps it, and what was
    last assigned to [style.width] and [style.height]. *)
Record Canvas : Type := mkCanvas
  { canvas_width : float;
    canvas_height : float;
    style_width : option float;
    style_height : option float }.

(** [this._context]: the backing store ratios a browser may declare
    ([None] for [undefined]), and the calls made so far, oldest first. *)
Record Context : Type := mkContext
  { webkitBackingStorePixelRatio : option float;
    mozBackingStorePixelRatio : option float;
    msBackingStorePixelRatio : option float;
    oBackingStorePixelRatio : option float;
    backingStorePixelRatio : option float;
    calls : list contextCall }.

(** An [Image] made by [_draw]: the [scale] and [onFinish] its [onload]
    function holds, and its [src] once assigned. *)
Record ImageObject : Type := mkImageObject
  { onload_scale : option float;
    onload_onFinish : option Callback;
    src : option string }.

(** All a drawing method can see and change: the renderer and the page, the
    canvas and its context, [window.devicePixelRatio], the images made so
    far, and the [onFinish] functions called so far, oldest first. *)
Record World : Type := mkWorld
  { store : Store;
    canvas : Canvas;
    context : Context;
    devicePixelRatio : option float;
    images : list (Image * ImageObject);
    nextImage : Image;
    finished : list Callback }.

Definition D (A : Type) : Type := World -> (exn + A) * World.

Definition retD {A} (a : A) : D A := fun w => (inr a, w).

Definition bindD {A B} (m : D A) (k : A -> D B) : D B :=
  fun w =>
    match m w with
    | (inr a, w') => k a w'
    | (inl e, w') => (inl e, w')
    end.

(** A method of the renderer, run in the world. *)
Definition liftM {A} (m : M A) : D A :=
  fun w =>
    match m (store w) with
    | (r, s') =>
        (r, mkWorld s' (canvas w) (context w) (devicePixelRatio w)
                    (images w) (nextImage w) (finished w))
    end.

Definition getsD {A} (f : World -> A) : D A := fun w => (inr (f w), w).

Definition modifyD (f : World -> World) : D unit := fun w => (inr tt, f w).

Declare Scope draw_scope.
Delimit Scope draw_scope with draw.
Notation "x <- m ;; k" := (bindD m (fun x => k))
  (at level 61, m at next level, right associativity) : draw_scope.
Notation "m ;;; k" := (bindD m (fun _ => k))
  (at level 61, right associativity) : draw_scope.

Definition withStore (f : Store -> Store) (w : World) : World :=
  mkWorld (f (store w)) (canvas w) (context w) (devicePixelRatio w)
          (images w) (nextImage w) (finished w).

Definition withCanvas (f : Canvas -> Canvas) (w : World) : World :=
  mkWorld (store w) (f (canvas w)) (context w) (devicePixelRatio w)
          (images w) (nextImage w) (finished w).

(** A call on the context. *)
Definition call (c : contextCall) (w : World) : World :=
  mkWorld (store w) (canvas w)
          (mkContext (webkitBackingStorePixelRatio (context w))
                     (mozBackingStorePixelRatio (context w))
                     (msBackingStorePixelRatio (context w))
                     (oBackingStorePixelRatio (context w))
                     (backingStorePixelRatio (context w))
                     (calls (context w) ++ [c]))
          (devicePixelRatio w) (images w) (nextImage w) (finished w).

(** The record that [f] is called. *)
Definition called (f : Callback) (w : World) : World :=
  mkWorld (store w) (canvas w) (context w) (devicePixelRatio w)
          (images w) (nextImage w) (finished w ++ [f]).

(** [v || otherwise], for a [v] that is a number or [undefined]. *)
Definition orNumber (v : option float) (otherwise : float) : float :=
  match v with
  | Some v => if truthy_number v then v else otherwise
  | None => otherwise
  end.

(** [Number.isFinite(scale)], for a [scale] that is a number or
    [undefined]. *)
Definition Number_isFinite (scale : option float) : bool :=
  match scale with
  | Some v => negb (is_nan v || is_infinity v)
  | None => false
  end.

(** The two numbers of [getDrawRatio], lines 258-263. *)
Definition devicePixelRatioOr1 (w : World) : float :=
  orNumber (devicePixelRatio w) 1.

Definition backingStoreRatio (w : World) : float :=
  orNumber (webkitBackingStorePixelRatio (context w))
    (orNumber (mozBackingStorePixelRatio (context w))
       (orNumber (msBackingStorePixelRatio (context w))
          (orNumber (oBackingStorePixelRatio (context w))
             (orNumber (backingStorePixelRatio (context w)) 1)))).

(** [getDrawRatio], lines 257-265. *)
Definition getDrawRatio (w : World) : float :=
  (devicePixelRatioOr1 w / backingStoreRatio w)%float.

Section DrawMethods.

Local Open Scope draw_scope.

Variable parseFromString : string -> Document.
Variable serializeToString : Document -> string.
Variable convertFonts : node -> option node.
Variable inlineSvgFonts : node -> node.
Variable getBBox : node -> option Rect.
Variable Number : string -> float.
Variable ToString : float -> string.
(** The builtin [encodeURIComponent]. *)
Variable encodeURIComponent : string -> string.
(** What the browser keeps of a number assigned to [canvas.width] and to
    [canvas.height], which are unsigned integers. *)
Variable toCanvasWidth : float -> float.
Variable toCanvasHeight : float -> float.
(** What each [onFinish] function does when it is called, there and then:
    it may change all there is, the renderer with it, and it may throw. *)
Variable runCallback : Callback -> D unit.

(** [if (onFinish) onFinish()], lines 308-310: the call is made at once,
    and what it throws is thrown on. *)
Definition callIfGiven (onFinish : option Callback) : D unit :=
  match onFinish with
  | Some f => modifyD (called f) ;;; runCallback f
  | None => retD tt
  end.

(** [_drawFromImage], lines 292-311. *)
Definition _drawFromImage (scale : option float) (onFinish : option Callback)
  : D unit :=
  cachedImage <- getsD (fun w => _cachedImage (this (store w))) ;;
  match cachedImage with
  | None => retD tt
  | Some cachedImage =>
      drawRatio <- getsD getDrawRatio ;;
      let ratio :=
        (drawRatio * (if Number_isFinite scale
                      then match scale with Some v => v | None => 1 end
                      else 1))%float in
      bbox <- getsD (fun w => _measurements (this (store w))) ;;
      modifyD (withCanvas (fun c =>
        mkCanvas (toCanvasWidth (Num.width bbox * ratio)) (canvas_height c)
                 (style_width c) (style_height c))) ;;;
      modifyD (withCanvas (fun c =>
        mkCanvas (canvas_width c) (toCanvasHeight (Num.height bbox * ratio))
                 (style_width c) (style_height c))) ;;;
      size <- getsD (fun w => (canvas_width (canvas w),
                               canvas_height (canvas w))) ;;
      modifyD (call (ctx_clearRect 0 0 (fst size) (snd size))) ;;;
      modifyD (call (ctx_scale ratio ratio)) ;;;
      modifyD (call (ctx_drawImage cachedImage 0 0)) ;;;
      modifyD (call (ctx_setTransform 1 0 0 1 0 0)) ;;;
      modifyD (withCanvas (fun c =>
        mkCanvas (canvas_width c) (canvas_height c)
                 (Some (Num.width bbox)) (style_height c))) ;;;
      modifyD (withCanvas (fun c =>
        mkCanvas (canvas_width c) (canvas_height c)
                 (style_width c) (Some (Num.height bbox)))) ;;;
      callIfGiven onFinish
  end.

(** [new Image()], with [img.onload] set as line 278 sets it. *)
Definition newImage (scale : option float) (onFinish : option Callback)
  : D Image :=
  fun w =>
    let img := nextImage w in
    (inr img,
     mkWorld (store w) (canvas w) (context w) (devicePixelRatio w)
             (images w ++ [(img, mkImageObject scale onFinish None)])
             (S img) (finished w)).

Definition isImage (img : Image) (entry : Image * ImageObject) : bool :=
  (fst entry =? img)%nat.

(** [img.src = url]. *)
Definition setSrc (img : Image) (url : string) : D unit :=
  modifyD (fun w =>
    mkWorld (store w) (canvas w) (context w) (devicePixelRatio w)
            (map (fun entry =>
                    if isImage img entry
                    then (fst entry,
                          mkImageObject (onload_scale (snd entry))
                                        (onload_onFinish (snd entry))
                                        (Some url))
                    else entry) (images w))
            (nextImage w) (finished w)).

(** [_draw], lines 272-285. *)
Definition _draw (scale : option float) (onFinish : option Callback)
  : D unit :=
  cachedImage <- getsD (fun w => _cachedImage (this (store w))) ;;
  match cachedImage with
  | Some _ => _drawFromImage scale onFinish
  | None =>
      img <- newImage scale onFinish ;;
      svgText <- liftM (toString serializeToString inlineSvgFonts true) ;;
      setSrc img ("data:image/svg+xml;utf8," ++ encodeURIComponent svgText)
  end.

(** The function of lines 278-281, run when the browser has loaded the
    image: nothing for an image the class did not make. *)
Definition onload (img : Image) : D unit :=
  entry <- getsD (fun w => find (isImage img) (images w)) ;;
  match entry with
  | None => retD tt
  | Some entry =>
      modifyD (withStore (withThis (set_cachedImage (Some img)))) ;;;
      _drawFromImage (onload_scale (snd entry)) (onload_onFinish (snd entry))
  end.

(** [fromString], lines 36-39. *)
Definition fromString (svgString : string) (scale : option float)
           (onFinish : option Callback) : D unit :=
  liftM (loadString parseFromString serializeToString convertFonts
                    inlineSvgFonts getBBox Number ToString svgString) ;;;
  _draw scale onFinish.

End DrawMethods.

End Draw.
Import Draw.

(** What the drawing theorems say of the world. *)
Module DrawSpec.

(** A value that [||] passes over: [undefined], [0], [-0] or [NaN]. *)
Definition falsy (v : option float) : Prop :=
  match v with
  | Some v => truthy_number v = false
  | None => True
  end.

(** [v] is what [a || b || ... || 1] gives for the declared values
    [declared]: the first of them that [||] does not pass over, or 1 when it
    passes over them all. *)
Definition firstOr1 (declared : list (option float)) (v : float) : Prop :=
  (exists before after,
     declared = before ++ Some v :: after
     /\ Forall falsy before /\ truthy_number v = true)
  \/ (Forall falsy declared /\ v = 1%float).

(** The identities of the images made are all older than the next one. *)
Definition images_ok (w : World) : Prop :=
  Forall (fun entry => fst entry < nextImage w) (images w).

End DrawSpec.
Import DrawSpec.

(* ================================================================== *)
(** * More examples *)
(* ================================================================== *)

Module Examples.

(** A text with a stroke, and one with a [tspan] of two lines. *)
Definition strokedText : node :=
  Element "svg" [] [Element "text" [("x", "1"); ("stroke", "red")] [Text "Hi"]].

Definition spannedText : node :=
  Element "svg" []
          [Element "text" [("y", "3")]
                   [Element "tspan" [] [Text (String "a" (String LF "b"))]]].

(** A text with nothing to show. *)
Definition emptyText : node :=
  Element "svg" [] [Element "text" [("fill", "red")] [Comment "nothing"]].

(** Two shapes with strokes; the same attributes on other tags, nested. *)
Definition thinStroked : node :=
  Element "rect" [("stroke", "red"); ("stroke-width", "0.5")] [].

Definition strokes : node :=
  Element "svg" [] [thinStroked; Element "rect" [("stroke-width", "3")] []].

Definition nestedStrokes : node :=
  Element "g" [("stroke-width", "3")]
          [Element "a" []
                   [Element "b" [("stroke", "red"); ("stroke-width", "0.5")]
                            [Text "t"]]].

(** Stroke widths that count for nothing. *)
Definition noStrokes : node :=
  Element "svg" [("stroke-width", "-2")]
          [Element "rect" [("stroke", ""); ("stroke-width", "abc")] [];
           Element "g" [("stroke-width", "0")] []].

(** The document the renderer holds when the greeting has been loaded, and
    a parser that knows it too. *)
Definition loadedGreeting : Document :=
  match _svgDom (this Sample.loaded) with
  | Some dom => dom
  | None => Sample.parsererror
  end.

Definition parseFromString : string -> Document :=
  Sample.parseAmong (Sample.known ++ [loadedGreeting]).

(** [encodeURIComponent], on strings of bytes. *)
Definition hexDigit (n : nat) : ascii :=
  ascii_of_nat (if (n <? 10)%nat then 48 + n else 55 + n).

Definition unreserved (c : ascii) : bool :=
  let n := nat_of_ascii c in
  ((48 <=? n)%nat && (n <=? 57)%nat) || ((65 <=? n)%nat && (n <=? 90)%nat)
  || ((97 <=? n)%nat && (n <=? 122)%nat)
  || existsb (Ascii.eqb c) (list_ascii_of_string "-_.!~*'()").

Fixpoint encodeURIComponent (s : string) : string :=
  match s with
  | EmptyString => EmptyString
  | String c s' =>
      if unreserved c then String c (encodeURIComponent s')
      else String "%" (String (hexDigit (nat_of_ascii c / 16))
                         (String (hexDigit (nat_of_ascii c mod 16))
                            (encodeURIComponent s')))
  end.

(** What a canvas keeps of a size: the number as an unsigned integer of 32
    bits, or the default size when that is above 2^31 - 1. *)
Definition ToUint32 (v : float) : Z :=
  match Prim2SF v with
  | S754_finite s m e =>
      let n := match e with
               | Zneg k => Z.shiftr (Zpos m) (Zpos k)
               | _ => Z.shiftl (Zpos m) e
               end in
      ((if s then - n else n) mod 4294967296)%Z
  | _ => 0%Z
  end.

Definition toCanvasSize (default : Z) (v : float) : float :=
  let n := ToUint32 v in
  Sample.ofZ (if (n <=? 2147483647)%Z then n else default).

Definition toCanvasWidth : float -> float := toCanvasSize 300.

Definition toCanvasHeight : float -> float := toCanvasSize 150.

(** A canvas as a browser makes it, on a screen with two device pixels to
    the pixel, and a context that declares no ratio. *)
Definition blankCanvas : Canvas := mkCanvas 300 150 None None.

Definition plainContext : Context := mkContext None None None None None [].

(** The world of a renderer just made, and the one of a renderer that has
    loaded and drawn the greeting with image 1 and has the image cached. *)
Definition blankWorld : World :=
  mkWorld Sample.freshStore blankCanvas plainContext (Some 2%float) [] 1 [].

Definition drawnWorld : World :=
  mkWorld Sample.drawn blankCanvas plainContext (Some 2%float)
          [(1, mkImageObject None None (Some "data:image/svg+xml;utf8,"))] 2 [].

(** Three functions to call: 5 returns at once, 7 throws, and 9 loads a
    string that is no drawing into the renderer; any other returns. *)
Definition runCallback (f : Callback) : D unit :=
  match f with
  | 7 => fun w => (inl TypeError, w)
  | 9 => liftM (Sample.load Sample.getBBox "<notsvg/>")
  | _ => retD tt
  end.

(** A browser that declares no device pixel ratio, and backing store ratios
    that are no ratios. *)
Definition oldBrowser : World :=
  mkWorld Sample.freshStore blankCanvas
          (mkContext (Some 0%float) None None None (Some nan) [])
          None [] 1 [].

Definition fromStringIn (svgString : string) (scale : option float)
           (onFinish : option Callback) : D unit :=
  fromString Sample.parseFromString Sample.serializeToString
             Sample.convertFonts Sample.inlineSvgFonts Sample.getBBox
             Sample.Number Sample.ToString encodeURIComponent toCanvasWidth
             toCanvasHeight runCallback svgString scale onFinish.

(** The world when [fromString] has returned for the greeting, with the
    scale 3 and the function 5 to call. *)
Definition drawing : World :=
  snd (fromStringIn (Sample.serializeToString Sample.greeting) (Some 3%float)
                    (Some 5) blankWorld).

End Examples.

(* ================================================================== *)
(** * Facts about attributes and nodes *)
(* ================================================================== *)

Module DomFacts.

Lemma getAttr_setAttr_same name v a :
  getAttr name (setAttr name v a) = Some v.
Proof.
  induction a as [|[k w] a IH]; simpl.
  - now rewrite String.eqb_refl.
  - destruct (String.eqb k name) eqn:E; simpl; now rewrite E.
Qed.

Lemma getAttr_setAttr_other name other v a :
  String.eqb other name = false ->
  getAttr name (setAttr other v a) = getAttr name a.
Proof.
  intros Hne. induction a as [|[k w] a IH]; simpl.
  - now rewrite Hne.
  - destruct (String.eqb k other) eqn:E; simpl.
    + apply String.eqb_eq in E. subst k. now rewrite Hne.
    + now rewrite IH.
Qed.

Lemma getAttr_removeAttr_same name a :
  getAttr name (removeAttr name a) = None.
Proof.
  induction a as [|[k w] a IH]; simpl; auto.
  destruct (String.eqb k name) eqn:E; simpl; auto. now rewrite E.
Qed.

Lemma getAttr_removeAttr_other name other a :
  String.eqb other name = false ->
  getAttr name (removeAttr other a) = getAttr name a.
Proof.
  intros Hne. induction a as [|[k w] a IH]; simpl; auto.
  destruct (String.eqb k other) eqn:E; simpl.
  - apply String.eqb_eq in E. subst k. now rewrite Hne.
  - now rewrite IH.
Qed.

Lemma setAttr_same_value name v a :
  getAttr name a = Some v -> setAttr name v a = a.
Proof.
  induction a as [|[k w] a IH]; simpl; intros H; try discriminate.
  destruct (String.eqb k name) eqn:E.
  - now inversion H.
  - now rewrite IH.
Qed.

Lemma removeAttr_absent name a :
  getAttr name a = None -> removeAttr name a = a.
Proof.
  induction a as [|[k w] a IH]; simpl; intros H; auto.
  destruct (String.eqb k name) eqn:E; try discriminate.
  now rewrite IH.
Qed.

Lemma truthy_attr_Some o :
  truthy_attr o = true -> exists v, o = Some v /\ v <> "".
Proof.
  destruct o as [v|]; simpl; try discriminate.
  unfold truthy_string. intros H. exists v. split; auto.
  intros ->. discriminate.
Qed.

Lemma truthy_string_neq s : s <> "" -> truthy_string s = true.
Proof.
  intros H. unfold truthy_string. destruct (String.eqb s "") eqn:E; auto.
  apply String.eqb_eq in E. contradiction.
Qed.

End DomFacts.
Import DomFacts.

(* ================================================================== *)
(** * The text quirks *)
(* ================================================================== *)

Module TextFacts.

Ltac attr_simpl :=
  repeat first
    [ rewrite getAttr_setAttr_same
    | rewrite getAttr_removeAttr_same
    | rewrite getAttr_setAttr_other by reflexivity
    | rewrite getAttr_removeAttr_other by reflexivity ].

Lemma appendChild_fold tag a lines kids :
  fold_left (fun e line => appendChild (tspanNode line) e) lines
            (Element tag a kids)
  = Element tag a (kids ++ map tspanNode lines).
Proof.
  revert kids. induction lines as [|l lines IH]; intros kids; simpl.
  - now rewrite app_nil_r.
  - rewrite IH, <- app_assoc. reflexivity.
Qed.

(** What the loop body makes of an element. *)
Lemma applyQuirks_Element tag a kids :
  applyQuirks (Element tag a kids)
  = Element tag (quirkAttrs a)
      (if truthy_string (textContent (Element tag a kids))
          && (childElementCount (Element tag a kids) =? 0)%nat
       then map tspanNode (split_LF (textContent (Element tag a kids)))
       else kids).
Proof.
  unfold applyQuirks, quirkAttrs. cbn [removeAttribute setAttribute].
  unfold getAttribute. cbn [attributes].
  set (a3 := setAttr "alignment-baseline" "text-before-edge"
               (removeAttr "y" (removeAttr "x" a))).
  destruct (negb (truthy_attr (getAttr "font-size" a3)));
    cbn [setAttribute attributes];
    match goal with
    | |- context [negb (truthy_attr (getAttr "font-family" ?b))] =>
        destruct (negb (truthy_attr (getAttr "font-family" b)))
    end;
    cbn [setAttribute];
    match goal with
    | |- context [textContent (Element tag ?b kids)] =>
        change (textContent (Element tag b kids))
          with (textContent (Element tag a kids));
        change (childElementCount (Element tag b kids))
          with (childElementCount (Element tag a kids))
    end;
    destruct (truthy_string (textContent (Element tag a kids))
              && (childElementCount (Element tag a kids) =? 0)%nat);
    try reflexivity;
    cbn [setTextContent String.eqb]; now rewrite appendChild_fold.
Qed.

Lemma attributes_applyQuirks tag a kids :
  attributes (applyQuirks (Element tag a kids)) = quirkAttrs a.
Proof. now rewrite applyQuirks_Element. Qed.

Lemma quirkAttrs_fontSize_truthy a :
  truthy_attr (getAttr "font-size" (quirkAttrs a)) = true.
Proof.
  unfold quirkAttrs.
  set (a3 := setAttr "alignment-baseline" "text-before-edge" _).
  destruct (truthy_attr (getAttr "font-size" a3)) eqn:E1; cbn [negb];
    match goal with
    | |- context [negb (truthy_attr (getAttr "font-family" ?b))] =>
        destruct (negb (truthy_attr (getAttr "font-family" b)))
    end; attr_simpl; auto.
Qed.

Lemma quirkAttrs_fontFamily_truthy a :
  truthy_attr (getAttr "font-family" (quirkAttrs a)) = true.
Proof.
  unfold quirkAttrs.
  match goal with
  | |- context [negb (truthy_attr (getAttr "font-family" ?b))] =>
      destruct (truthy_attr (getAttr "font-family" b)) eqn:E
  end; cbn [negb]; [exact E | now attr_simpl].
Qed.

Lemma quirkAttrs_x a : getAttr "x" (quirkAttrs a) = None.
Proof.
  unfold quirkAttrs.
  repeat match goal with
         | |- context [if ?c then _ else _] => destruct c
         end; now attr_simpl.
Qed.

Lemma quirkAttrs_y a : getAttr "y" (quirkAttrs a) = None.
Proof.
  unfold quirkAttrs.
  repeat match goal with
         | |- context [if ?c then _ else _] => destruct c
         end; now attr_simpl.
Qed.

Lemma quirkAttrs_alignment a :
  getAttr "alignment-baseline" (quirkAttrs a) = Some "text-before-edge".
Proof.
  unfold quirkAttrs.
  repeat match goal with
         | |- context [if ?c then _ else _] => destruct c
         end; now attr_simpl.
Qed.

(** Steps 1 to 4 change nothing the second time. *)
Lemma quirkAttrs_idempotent a : quirkAttrs (quirkAttrs a) = quirkAttrs a.
Proof.
  unfold quirkAttrs at 1.
  rewrite (removeAttr_absent "x") by apply quirkAttrs_x.
  rewrite (removeAttr_absent "y") by apply quirkAttrs_y.
  rewrite (setAttr_same_value "alignment-baseline")
    by apply quirkAttrs_alignment.
  rewrite quirkAttrs_fontSize_truthy. cbn [negb].
  rewrite quirkAttrs_fontFamily_truthy. reflexivity.
Qed.

(** A non-empty [font-size] or [font-family] goes through steps 1 to 4. *)
Lemma quirkAttrs_keeps_fontSize a v :
  getAttr "font-size" a = Some v -> v <> "" ->
  getAttr "font-size" (quirkAttrs a) = Some v.
Proof.
  intros Hget Hne. unfold quirkAttrs.
  set (a3 := setAttr "alignment-baseline" "text-before-edge" _).
  assert (H3 : getAttr "font-size" a3 = Some v)
    by (subst a3; now attr_simpl).
  rewrite H3. cbn [truthy_attr]. rewrite (truthy_string_neq _ Hne). cbn [negb].
  destruct (negb (truthy_attr (getAttr "font-family" a3))); now attr_simpl.
Qed.

Lemma quirkAttrs_keeps_fontFamily a v :
  getAttr "font-family" a = Some v -> v <> "" ->
  getAttr "font-family" (quirkAttrs a) = Some v.
Proof.
  intros Hget Hne. unfold quirkAttrs.
  match goal with
  | |- context [negb (truthy_attr (getAttr "font-family" ?b))] =>
      assert (Hb : getAttr "font-family" b = Some v)
  end.
  { destruct (negb (truthy_attr (getAttr "font-size" _))); now attr_simpl. }
  rewrite Hb. cbn [truthy_attr]. rewrite (truthy_string_neq _ Hne). cbn [negb].
  exact Hb.
Qed.


(** ** The loop over the collected references is the recursive pass *)

Lemma collectText_Element tag a kids :
  collectText (Element tag a kids)
  = (if String.eqb tag "text" then [[]] else []) ++ collectChildren 0 kids.
Proof.
  cbn [collectText isTextTag localName]. reflexivity.
Qed.

Lemma collectText_not_element n : isElement n = false -> collectText n = [].
Proof. destruct n; simpl; auto; discriminate. Qed.

Lemma no_child_element tag a kids :
  childElementCount (Element tag a kids) = 0 ->
  Forall (fun k => isElement k = false) kids.
Proof.
  unfold childElementCount. cbn [childNodes].
  induction kids as [|k kids IH]; simpl; intros H; constructor.
  - destruct (isElement k); auto. discriminate.
  - apply IH. destruct (isElement k); auto. discriminate.
Qed.

Lemma collectChildren_no_element i kids :
  Forall (fun k => isElement k = false) kids -> collectChildren i kids = [].
Proof.
  intros H. revert i. induction H as [|k kids Hk _ IH]; intros i; simpl; auto.
  now rewrite (collectText_not_element _ Hk), IH.
Qed.

Lemma updateNth_ext {A} i (f g : A -> A) l :
  (forall x, f x = g x) -> updateNth i f l = updateNth i g l.
Proof.
  intros H. revert i. induction l as [|x l IH]; intros [|i]; simpl; auto.
  - now rewrite H.
  - now rewrite IH.
Qed.

Lemma updateNth_id {A} i (l : list A) : updateNth i (fun x => x) l = l.
Proof.
  revert i. induction l as [|x l IH]; intros [|i]; simpl; auto.
  now rewrite IH.
Qed.

Lemma updateNth_compose {A} i (f g : A -> A) l :
  updateNth i g (updateNth i f l) = updateNth i (fun x => g (f x)) l.
Proof.
  revert i. induction l as [|x l IH]; intros [|i]; simpl; auto.
  now rewrite IH.
Qed.

Lemma updateNth_app_length {A} (f : A -> A) pre x post :
  updateNth (List.length pre) f (pre ++ x :: post) = pre ++ f x :: post.
Proof. induction pre as [|y pre IH]; simpl; auto. now rewrite IH. Qed.

(** Mutations below one child stay in that child. *)
Lemma updateAt_below f i ps tag a kids :
  fold_left (fun t p => updateAt p f t) (map (cons i) ps) (Element tag a kids)
  = Element tag a
      (updateNth i (fun k => fold_left (fun t p => updateAt p f t) ps k) kids).
Proof.
  revert kids. induction ps as [|p ps IH]; intros kids; simpl.
  - now rewrite updateNth_id.
  - rewrite IH, updateNth_compose. reflexivity.
Qed.

Lemma transform_children tag a kids :
  Forall (fun k => transformTextElements k = quirksRec k) kids ->
  forall pre,
    fold_left (fun t p => updateAt p applyQuirks t)
              (collectChildren (List.length pre) kids)
              (Element tag a (pre ++ kids))
    = Element tag a (pre ++ map quirksRec kids).
Proof.
  induction 1 as [|k kids Hk _ IH]; intros pre; simpl; auto.
  rewrite fold_left_app, updateAt_below, updateNth_app_length.
  fold (transformTextElements k). rewrite Hk.
  replace (pre ++ quirksRec k :: kids) with ((pre ++ [quirksRec k]) ++ kids)
    by now rewrite <- app_assoc.
  replace (S (List.length pre)) with (List.length (pre ++ [quirksRec k]))
    by (rewrite length_app; simpl; lia).
  rewrite IH, <- app_assoc. reflexivity.
Qed.

(** Lines 96-138 compute the recursive pass. *)
Lemma transformTextElements_quirksRec n :
  transformTextElements n = quirksRec n.
Proof.
  induction n as [tag a kids IH| |] using node_ind'; try reflexivity.
  unfold transformTextElements. rewrite collectText_Element.
  cbn [quirksRec]. destruct (String.eqb tag "text") eqn:Etag.
  - cbn [app fold_left updateAt].
    destruct (childElementCount (Element tag a kids) =? 0)%nat eqn:Ecount.
    + apply Nat.eqb_eq in Ecount.
      rewrite (collectChildren_no_element 0 kids)
        by now apply (no_child_element tag a).
      reflexivity.
    + rewrite applyQuirks_Element, Ecount, andb_false_r.
      apply (transform_children tag (quirkAttrs a) kids IH []).
  - cbn [app]. apply (transform_children tag a kids IH []).
Qed.

(** ** The recursive pass, twice *)

Lemma quirksRec_isElement n : isElement (quirksRec n) = isElement n.
Proof.
  destruct n as [tag a kids| |]; try reflexivity.
  cbn [quirksRec]. rewrite applyQuirks_Element.
  destruct (String.eqb tag "text"); try reflexivity.
  destruct (childElementCount (Element tag a kids) =? 0)%nat; reflexivity.
Qed.

Lemma childElementCount_quirksRec tag a b kids :
  childElementCount (Element tag a (map quirksRec kids))
  = childElementCount (Element tag b kids).
Proof.
  unfold childElementCount. cbn [childNodes].
  induction kids as [|k kids IH]; simpl; auto.
  rewrite quirksRec_isElement. destruct (isElement k); simpl; auto.
Qed.

Lemma quirksRec_tspanNode line : quirksRec (tspanNode line) = tspanNode line.
Proof.
  unfold tspanNode, createSVGElement. cbn [setAttribute setAttr setTextContent].
  destruct (String.eqb line ""); reflexivity.
Qed.

Lemma map_quirksRec_tspanNode lines :
  map quirksRec (map tspanNode lines) = map tspanNode lines.
Proof.
  induction lines as [|l lines IH]; cbn [map]; auto.
  now rewrite quirksRec_tspanNode, IH.
Qed.

Lemma split_LF_not_nil s : split_LF s <> [].
Proof.
  destruct s as [|c s]; simpl; try discriminate.
  destruct (isLF c); try discriminate.
  destruct (split_LF s); discriminate.
Qed.

Lemma childElementCount_tspans tag a lines :
  childElementCount (Element tag a (map tspanNode lines)) = List.length lines.
Proof.
  unfold childElementCount. cbn [childNodes].
  induction lines as [|l lines IH]; simpl; auto.
Qed.

Lemma quirksRec_idempotent n : quirksRec (quirksRec n) = quirksRec n.
Proof.
  induction n as [tag a kids IH| |] using node_ind'; try reflexivity.
  assert (Hkids : map quirksRec (map quirksRec kids) = map quirksRec kids).
  { induction IH as [|k kids Hk _ IHk]; simpl; auto. now rewrite Hk, IHk. }
  cbn [quirksRec]. destruct (String.eqb tag "text") eqn:Etag.
  - rewrite applyQuirks_Element. cbn [attributes].
    destruct (childElementCount (Element tag a kids) =? 0)%nat eqn:Ecount.
    + rewrite andb_true_r.
      destruct (truthy_string (textContent (Element tag a kids))) eqn:Etext.
      * (* the text was split: the element now has children *)
        cbn [quirksRec]. rewrite Etag, childElementCount_tspans.
        destruct (split_LF (textContent (Element tag a kids))) as [|l ls] eqn:Es.
        { now apply split_LF_not_nil in Es. }
        cbn [List.length Nat.eqb].
        rewrite attributes_applyQuirks, quirkAttrs_idempotent.
        now rewrite map_quirksRec_tspanNode.
      * (* no text: only the attributes were touched *)
        cbn [quirksRec]. rewrite Etag.
        change (childElementCount (Element tag (quirkAttrs a) kids))
          with (childElementCount (Element tag a kids)).
        rewrite Ecount, applyQuirks_Element, quirkAttrs_idempotent.
        change (textContent (Element tag (quirkAttrs a) kids))
          with (textContent (Element tag a kids)).
        now rewrite Etext.
    + cbn [quirksRec]. rewrite Etag.
      rewrite (childElementCount_quirksRec tag (quirkAttrs a) a), Ecount.
      rewrite attributes_applyQuirks, quirkAttrs_idempotent, Hkids.
      reflexivity.
  - cbn [quirksRec]. rewrite Etag, Hkids. reflexivity.
Qed.

(** ** Where an element of the tree ends up *)

Lemma lookupAt_not_element p k e :
  isElement k = false -> lookupAt p k = Some e -> isElement e = false.
Proof.
  intros Hk. destruct p as [|i p]; simpl; intros H.
  - now inversion H; subst.
  - destruct k; try discriminate; destruct i; discriminate.
Qed.

Lemma lookupAt_quirksRec p : forall t e,
  lookupAt p t = Some e -> isElement e = true ->
  lookupAt p (quirksRec t) = Some (quirksRec e).
Proof.
  induction p as [|i p IH]; intros t e Hl He; simpl in Hl.
  - now inversion Hl; subst.
  - destruct (nth_error (childNodes t) i) as [k|] eqn:Ek; try discriminate.
    destruct t as [tag a kids| |]; cbn [childNodes] in Ek;
      try (destruct i; discriminate).
    assert (Hrec : lookupAt (i :: p) (Element tag a (map quirksRec kids))
                   = Some (quirksRec e)).
    { simpl. rewrite nth_error_map, Ek. simpl. now apply IH. }
    cbn [quirksRec]. destruct (String.eqb tag "text"); auto.
    destruct (childElementCount (Element tag a kids) =? 0)%nat eqn:Ecount.
    + apply Nat.eqb_eq in Ecount. apply no_child_element in Ecount.
      rewrite Forall_forall in Ecount.
      pose proof (Ecount k (nth_error_In _ _ Ek)) as Hk.
      rewrite (lookupAt_not_element p k e Hk Hl) in He. discriminate.
    + exact Hrec.
Qed.

(** A text element of the tree comes out with the attributes of steps 1-4. *)
Lemma lookupAt_text_attributes p t a kids :
  lookupAt p t = Some (Element "text" a kids) ->
  exists kids',
    lookupAt p (transformTextElements t)
    = Some (Element "text" (quirkAttrs a) kids').
Proof.
  intros Hl. rewrite transformTextElements_quirksRec.
  rewrite (lookupAt_quirksRec p t _ Hl eq_refl).
  cbn [quirksRec String.eqb Ascii.eqb Bool.eqb].
  rewrite applyQuirks_Element. cbn [attributes].
  destruct (childElementCount (Element "text" a kids) =? 0)%nat; eauto.
Qed.

(** ** Splitting into lines *)

Lemma joinLF_split_LF s : joinLF (split_LF s) = s.
Proof.
  unfold joinLF. induction s as [|c s IH]; cbn [split_LF]; auto.
  pose proof (split_LF_not_nil s) as Hne.
  destruct (split_LF s) as [|l ls]; try contradiction.
  destruct (isLF c) eqn:Ec.
  - unfold isLF in Ec. apply Ascii.eqb_eq in Ec. subst c.
    change (String.concat (String LF "") ("" :: l :: ls))
      with (String LF (String.concat (String LF "") (l :: ls))).
    now rewrite IH.
  - destruct ls as [|l' ls].
    + cbn [String.concat] in *. now rewrite IH.
    + change (String.concat (String LF "") (String c l :: l' :: ls))
        with (String c (String.concat (String LF "") (l :: l' :: ls))).
      now rewrite IH.
Qed.

Lemma append_empty_r s : String.append s EmptyString = s.
Proof. induction s as [|c s IH]; simpl; congruence. Qed.

(** ** The claims on the text quirks *)

(** C4. Text normalization is idempotent: running the text-quirks pass of
    [_transformText] (lines 96-138) on a tree that the pass has already
    normalized gives the same tree again, so no line node is added twice and
    no attribute is set to a default a second time. *)
Theorem text_normalization_idempotent (svgTag : node) :
  transformTextElements (transformTextElements svgTag)
  = transformTextElements svgTag.
Proof.
  rewrite !transformTextElements_quirksRec. apply quirksRec_idempotent.
Qed.

(** C5. A text element of the tree that has no child element and a non-empty
    text content comes out of the pass with the split lines as its only
    children, in order: one [tspan] per line with [x = "0"] and
    [dy = "1.2em"], holding the line as its text, and nothing at all for an
    empty line; joining the lines with line feeds gives the text back, so
    empty lines are kept.  For the content ["a\nb\nc"] these are exactly the
    three line nodes of ["a"], ["b"] and ["c"]. *)
Theorem line_split_correct (tree : node) (p : path) (a : attrs)
        (kids : list node) (text : string) :
  lookupAt p tree = Some (Element "text" a kids) ->
  childElementCount (Element "text" a kids) = 0 ->
  textContent (Element "text" a kids) = text ->
  text <> "" ->
  let lineNode := fun line =>
    Element "tspan" [("x", "0"); ("dy", "1.2em")]
            (if String.eqb line "" then [] else [Text line]) in
  lookupAt p (transformTextElements tree)
  = Some (Element "text" (quirkAttrs a) (map lineNode (split_LF text)))
  /\ joinLF (split_LF text) = text
  /\ Forall (fun line => textContent (lineNode line) = line) (split_LF text)
  /\ (text = String "a" (String LF (String "b" (String LF "c"))) ->
      map lineNode (split_LF text)
      = [Element "tspan" [("x", "0"); ("dy", "1.2em")] [Text "a"];
         Element "tspan" [("x", "0"); ("dy", "1.2em")] [Text "b"];
         Element "tspan" [("x", "0"); ("dy", "1.2em")] [Text "c"]]).
Proof.
  intros Hl Hcount Htext Hne lineNode. repeat split.
  - rewrite transformTextElements_quirksRec.
    rewrite (lookupAt_quirksRec p tree _ Hl eq_refl).
    cbn [quirksRec String.eqb Ascii.eqb Bool.eqb].
    rewrite Hcount. cbn [Nat.eqb].
    rewrite applyQuirks_Element, Hcount, Htext, (truthy_string_neq _ Hne).
    reflexivity.
  - apply joinLF_split_LF.
  - apply Forall_forall. intros line _. subst lineNode. cbn beta.
    destruct (String.eqb line "") eqn:E.
    + apply String.eqb_eq in E. now subst line.
    + cbn [textContent]. apply append_empty_r.
  - intros ->. reflexivity.
Qed.

(** The three lines of the poem, at their place in the drawing. *)
Lemma line_split_witness :
  lookupAt [0; 1] Sample.poem
  = Some (Element "text" [("x", "10"); ("font-size", "18")]
                  (childNodes Sample.poemText))
  /\ lookupAt [0; 1] (transformTextElements Sample.poem)
     = Some (Element "text"
               [("font-size", "18");
                ("alignment-baseline", "text-before-edge");
                ("font-family", "Helvetica")]
               [Element "tspan" [("x", "0"); ("dy", "1.2em")] [Text "a"];
                Element "tspan" [("x", "0"); ("dy", "1.2em")] [Text "b"];
                Element "tspan" [("x", "0"); ("dy", "1.2em")] [Text "c"]]).
Proof.
  split; [reflexivity|].
  exact (proj1 (line_split_correct
                  Sample.poem [0; 1] [("x", "10"); ("font-size", "18")]
                  (childNodes Sample.poemText)
                  (String "a" (String LF (String "b" (String LF "c"))))
                  eq_refl eq_refl eq_refl
                  (fun H => eq_ind (String "a" (String LF (String "b" (String LF "c"))))
                                   (fun s => match s with
                                             | EmptyString => False
                                             | String _ _ => True
                                             end) I _ H))).
Defined.

(** C6, as the code has it. A text element of the tree whose [font-size] or
    [font-family] attribute is there with a non-empty value keeps that value
    through the pass.  (An empty value counts as no value and the default
    takes its place.) *)
Theorem explicit_font_kept (tree : node) (p : path) (a : attrs)
        (kids : list node) (name v : string) :
  lookupAt p tree = Some (Element "text" a kids) ->
  name = "font-size" \/ name = "font-family" ->
  getAttribute name (Element "text" a kids) = Some v ->
  v <> "" ->
  exists textElement,
    lookupAt p (transformTextElements tree) = Some textElement
    /\ getAttribute name textElement = Some v.
Proof.
  intros Hl Hname Hget Hne.
  destruct (lookupAt_text_attributes p tree a kids Hl) as [kids' Hl'].
  exists (Element "text" (quirkAttrs a) kids'). split; auto.
  unfold getAttribute in *. cbn [attributes] in *.
  destruct Hname; subst name.
  - now apply quirkAttrs_keeps_fontSize.
  - now apply quirkAttrs_keeps_fontFamily.
Qed.

(** The poem keeps its [font-size] of 18. *)
Lemma explicit_font_kept_witness :
  exists textElement,
    lookupAt [0; 1] (transformTextElements Sample.poem) = Some textElement
    /\ getAttribute "font-size" textElement = Some "18".
Proof.
  apply (explicit_font_kept Sample.poem [0; 1] [("x", "10"); ("font-size", "18")]
           (childNodes Sample.poemText) "font-size" "18").
  - reflexivity.
  - left. reflexivity.
  - reflexivity.
  - discriminate.
Defined.

(** C6 as it is written fails: a [font-size] that is there with the empty
    value is replaced by the default [14]. *)
Lemma explicit_font_counterexample :
  lookupAt [0] Sample.emptyFontSize
  = Some (Element "text" [("font-size", "")] [Text "hi"])
  /\ getAttribute "font-size" (Element "text" [("font-size", "")] [Text "hi"])
     = Some ""
  /\ exists textElement,
      lookupAt [0] (transformTextElements Sample.emptyFontSize)
      = Some textElement
      /\ getAttribute "font-size" textElement = Some "14"
      /\ getAttribute "font-size" textElement <> Some "".
Proof.
  split; [reflexivity|]. split; [reflexivity|].
  eexists. split; [reflexivity|]. split; [reflexivity|]. discriminate.
Qed.

End TextFacts.
Import TextFacts.

(* ================================================================== *)
(** * The order of JavaScript numbers *)
(* ================================================================== *)

Module NumFacts.

Local Open Scope float_scope.

(** ** Comparison of the specification floats *)

Ltac cmp_cases :=
  repeat match goal with
         | |- context [Z.compare ?a ?b] =>
             destruct (Z.compare_spec a b); subst
         | H : context [Z.compare ?a ?b] |- _ =>
             destruct (Z.compare_spec a b); subst
         | |- context [Pos.compare_cont Eq ?a ?b] =>
             change (Pos.compare_cont Eq a b) with (Pos.compare a b);
             destruct (Pos.compare_spec a b); subst
         | H : context [Pos.compare_cont Eq ?a ?b] |- _ =>
             change (Pos.compare_cont Eq a b) with (Pos.compare a b) in H;
             destruct (Pos.compare_spec a b); subst
         end;
  simpl in *; try congruence; try lia.

Ltac sf_cases :=
  repeat match goal with
         | v : spec_float |- _ => destruct v
         | b : bool |- _ => destruct b
         end; simpl in *; try congruence.

Lemma SFcompare_Lt_trans u v w :
  SFcompare u v = Some Lt -> SFcompare v w = Some Lt -> SFcompare u w = Some Lt.
Proof. sf_cases; intros; cmp_cases. Qed.

Lemma SFcompare_Lt_Gt u v :
  SFcompare u v = Some Lt <-> SFcompare v u = Some Gt.
Proof. split; sf_cases; intros; cmp_cases. Qed.

Lemma SFcompare_Eq u v :
  SFcompare u v = Some Eq ->
  u = v \/ (exists s, u = S754_zero s) /\ (exists s, v = S754_zero s).
Proof. sf_cases; intros; eauto; cmp_cases; eauto. Qed.

Lemma SFcompare_None u v :
  SFcompare u v = None -> u = S754_nan \/ v = S754_nan.
Proof. sf_cases; auto. Qed.

Lemma SFcompare_refl u : u <> S754_nan -> SFcompare u u = Some Eq.
Proof.
  sf_cases; intros; try congruence;
    rewrite Z.compare_refl;
    change (Pos.compare_cont Eq m m) with (Pos.compare m m);
    now rewrite Pos.compare_refl.
Qed.

(** ** Comparison of the numbers *)

Lemma ltb_SF a b :
  (a <? b) = true <-> SFcompare (Prim2SF a) (Prim2SF b) = Some Lt.
Proof.
  rewrite ltb_spec. unfold SFltb.
  destruct (SFcompare (Prim2SF a) (Prim2SF b)) as [[| |]|];
    split; congruence.
Qed.

Lemma is_nan_SF a : is_nan a = true <-> Prim2SF a = S754_nan.
Proof.
  unfold is_nan. rewrite eqb_spec. unfold SFeqb. split.
  - destruct (Prim2SF a) eqn:E; auto; rewrite SFcompare_refl;
      simpl; congruence.
  - intros ->. reflexivity.
Qed.

Lemma ltb_asym a b : (a <? b) = true -> (b <? a) = false.
Proof.
  intros H. apply ltb_SF in H. apply SFcompare_Lt_Gt in H.
  rewrite ltb_spec. unfold SFltb. now rewrite H.
Qed.

Lemma ltb_irrefl a : (a <? a) = false.
Proof.
  destruct (a <? a) eqn:E; auto. now rewrite (ltb_asym _ _ E) in E.
Qed.

Lemma ltb_trans a b c : (a <? b) = true -> (b <? c) = true -> (a <? c) = true.
Proof. rewrite !ltb_SF. apply SFcompare_Lt_trans. Qed.

Lemma ltb_not_nan a b :
  (a <? b) = true -> is_nan a = false /\ is_nan b = false.
Proof.
  intros H. apply ltb_SF in H.
  split; apply not_true_is_false; intros Hn; apply is_nan_SF in Hn;
    rewrite Hn in H; [|destruct (Prim2SF a)]; discriminate.
Qed.

Lemma is_zero_SF a : is_zero a = true <-> exists s, Prim2SF a = S754_zero s.
Proof.
  unfold is_zero. rewrite eqb_spec. unfold SFeqb.
  change (Prim2SF zero) with (S754_zero false). split.
  - destruct (Prim2SF a) as [s|[|]| |[|] m e]; simpl; eauto; discriminate.
  - intros [s ->]. reflexivity.
Qed.

(** Two numbers that are not [NaN] and neither below the other are the same
    number, or the two zeros. *)
Lemma ltb_tie a b :
  is_nan a = false -> is_nan b = false ->
  (a <? b) = false -> (b <? a) = false ->
  a = b \/ (is_zero a = true /\ is_zero b = true).
Proof.
  intros Ha Hb Hab Hba.
  destruct (SFcompare (Prim2SF a) (Prim2SF b)) as [[| |]|] eqn:E.
  - apply SFcompare_Eq in E. destruct E as [E|[E1 E2]].
    + left. now apply Prim2SF_inj.
    + right. now rewrite !is_zero_SF.
  - apply ltb_SF in E. congruence.
  - apply SFcompare_Lt_Gt, ltb_SF in E. congruence.
  - apply SFcompare_None in E. destruct E as [E|E]; apply is_nan_SF in E;
      congruence.
Qed.

Lemma is_zero_ltb a : is_zero a = true -> (0 <? a) = false /\ (a <? 0) = false.
Proof.
  intros H. apply is_zero_SF in H. destruct H as [s H].
  rewrite !ltb_spec, H. split; reflexivity.
Qed.

Lemma leb_negb_ltb a b :
  is_nan a = false -> is_nan b = false -> (a <=? b) = negb (b <? a).
Proof.
  intros Ha Hb. rewrite leb_spec. unfold SFleb.
  destruct (SFcompare (Prim2SF a) (Prim2SF b)) as [[| |]|] eqn:E.
  - destruct (b <? a) eqn:L; auto. apply ltb_SF, SFcompare_Lt_Gt in L.
    congruence.
  - apply ltb_SF in E. now rewrite (ltb_asym _ _ E).
  - apply SFcompare_Lt_Gt, ltb_SF in E. now rewrite E.
  - apply SFcompare_None in E. destruct E as [E|E]; apply is_nan_SF in E;
      congruence.
Qed.

(** ** Numbers at or above zero *)

Lemma nonneg_zero : nonneg 0.
Proof. now left. Qed.

Lemma nonneg_one : nonneg 1.
Proof. right. reflexivity. Qed.

Lemma nonneg_not_nan a : nonneg a -> is_nan a = false.
Proof.
  intros [->|H]; [reflexivity|]. now apply ltb_not_nan in H.
Qed.

Lemma nonneg_ltb_zero a : nonneg a -> (a <? 0) = false.
Proof. intros [->|H]; [reflexivity|]. now apply ltb_asym. Qed.

Lemma nonneg_is_zero a : nonneg a -> is_zero a = true -> a = 0.
Proof.
  intros [->|H] Hz; auto. apply is_zero_ltb in Hz. destruct Hz; congruence.
Qed.

Lemma nonneg_tie a b :
  nonneg a -> nonneg b -> (a <? b) = false -> (b <? a) = false -> a = b.
Proof.
  intros Ha Hb Hab Hba.
  destruct (ltb_tie a b) as [E|[Za Zb]];
    auto using nonneg_not_nan.
  now rewrite (nonneg_is_zero a Ha Za), (nonneg_is_zero b Hb Zb).
Qed.

Lemma nonneg_lt a b : nonneg a -> (a <? b) = true -> nonneg b.
Proof.
  intros [->|H] Hab; right; auto. now apply (ltb_trans 0 a b).
Qed.

(** On such numbers [Math.max] is the plain choice of the larger. *)
Lemma Math_max_nonneg a b :
  nonneg a -> nonneg b -> Math_max a b = if a <? b then b else a.
Proof.
  intros Ha Hb. unfold Math_max.
  rewrite (nonneg_not_nan a Ha), (nonneg_not_nan b Hb). cbn [orb].
  destruct (a <? b) eqn:Hab; auto.
  destruct (b <? a) eqn:Hba; auto.
  assert (E : a = b) by now apply nonneg_tie.
  subst b. destruct (get_sign a); reflexivity.
Qed.

Lemma Math_max_nonneg_closed a b :
  nonneg a -> nonneg b -> nonneg (Math_max a b).
Proof.
  intros Ha Hb. rewrite Math_max_nonneg by assumption.
  now destruct (a <? b).
Qed.

Lemma Math_max_zero_r a : nonneg a -> Math_max a 0 = a.
Proof.
  intros Ha. rewrite Math_max_nonneg by auto using nonneg_zero.
  now rewrite nonneg_ltb_zero.
Qed.

Lemma Math_max_zero_l a : nonneg a -> Math_max 0 a = a.
Proof.
  intros Ha. rewrite Math_max_nonneg by auto using nonneg_zero.
  destruct (0 <? a) eqn:E; auto.
  symmetry. apply nonneg_tie; auto using nonneg_zero, nonneg_ltb_zero.
Qed.

Lemma Math_max_comm a b :
  nonneg a -> nonneg b -> Math_max a b = Math_max b a.
Proof.
  intros Ha Hb. rewrite !Math_max_nonneg by assumption.
  destruct (a <? b) eqn:Hab.
  - now rewrite (ltb_asym _ _ Hab).
  - destruct (b <? a) eqn:Hba; auto. now apply nonneg_tie.
Qed.

Lemma Math_max_assoc a b c :
  nonneg a -> nonneg b -> nonneg c ->
  Math_max (Math_max a b) c = Math_max a (Math_max b c).
Proof.
  intros Ha Hb Hc.
  rewrite (Math_max_nonneg a b), (Math_max_nonneg b c) by assumption.
  destruct (a <? b) eqn:Hab; destruct (b <? c) eqn:Hbc;
    rewrite !Math_max_nonneg by assumption; rewrite ?Hab, ?Hbc; auto.
  - now rewrite (ltb_trans a b c).
  - destruct (a <? c) eqn:Hac; auto.
    destruct (c <? b) eqn:Hcb.
    + now rewrite (ltb_trans a c b) in Hab.
    + assert (b = c) by now apply nonneg_tie. congruence.
Qed.

(** What [v || 0] gives the maximum is [v] when [v] is above zero, and
    nothing otherwise. *)
Lemma Math_max_or_zero acc v :
  nonneg acc ->
  Math_max acc (or_zero v) = Math_max acc (if 0 <? v then v else 0).
Proof.
  intros Hacc. unfold or_zero, truthy_number.
  destruct (is_nan v) eqn:Hn; cbn [orb negb].
  - destruct (0 <? v) eqn:E; auto. apply ltb_not_nan in E. destruct E.
    congruence.
  - destruct (is_zero v) eqn:Hz; cbn [negb].
    + apply is_zero_ltb in Hz. destruct Hz as [Hz _]. now rewrite Hz.
    + destruct (0 <? v) eqn:E; auto.
      (* a number below zero: the maximum stays *)
      assert (Hv : (v <? 0) = true).
      { destruct (v <? 0) eqn:E'; auto.
        destruct (ltb_tie 0 v eq_refl Hn E E') as [E0|[_ Z]].
        - subst v. discriminate Hz.
        - congruence. }
      assert (Hlt : (v <? acc) = true).
      { destruct Hacc as [->|H]; auto. now apply (ltb_trans v 0 acc). }
      rewrite (Math_max_zero_r _ Hacc). unfold Math_max.
      rewrite (nonneg_not_nan _ Hacc), Hn. cbn [orb].
      now rewrite (ltb_asym _ _ Hlt), Hlt.
Qed.

(** ** The maximum of a list *)

Lemma leb_refl a : is_nan a = false -> (a <=? a) = true.
Proof. intros H. rewrite leb_negb_ltb by auto. now rewrite ltb_irrefl. Qed.

Lemma leb_Math_max_l a b :
  nonneg a -> nonneg b -> (a <=? Math_max a b) = true.
Proof.
  intros Ha Hb. rewrite Math_max_nonneg by assumption.
  destruct (a <? b) eqn:E.
  - rewrite leb_negb_ltb by auto using nonneg_not_nan.
    now rewrite (ltb_asym _ _ E).
  - apply leb_refl. now apply nonneg_not_nan.
Qed.

Lemma leb_Math_max_r a b :
  nonneg a -> nonneg b -> (b <=? Math_max a b) = true.
Proof.
  intros Ha Hb. rewrite Math_max_comm by assumption.
  now apply leb_Math_max_l.
Qed.

Lemma leb_trans_nonneg a b c :
  nonneg a -> nonneg b -> nonneg c ->
  (a <=? b) = true -> (b <=? c) = true -> (a <=? c) = true.
Proof.
  intros Ha Hb Hc. rewrite !leb_negb_ltb by auto using nonneg_not_nan.
  rewrite !negb_true_iff. intros Hba Hcb.
  destruct (c <? a) eqn:Hca; auto.
  destruct (a <? b) eqn:Hab.
  - now rewrite (ltb_trans c a b) in Hcb.
  - assert (a = b) by now apply nonneg_tie. congruence.
Qed.

Lemma maxOf_nonneg l : Forall nonneg l -> nonneg (maxOf l).
Proof.
  induction 1; simpl; auto using nonneg_zero, Math_max_nonneg_closed.
Qed.

Lemma maxOf_app l1 l2 :
  Forall nonneg l1 -> Forall nonneg l2 ->
  maxOf (l1 ++ l2) = Math_max (maxOf l1) (maxOf l2).
Proof.
  intros H1 H2. induction H1 as [|v l1 Hv Hl1 IH]; simpl.
  - symmetry. apply Math_max_zero_l. now apply maxOf_nonneg.
  - rewrite IH. symmetry.
    apply Math_max_assoc; auto using maxOf_nonneg.
Qed.

(** [maxOf] is the maximum of the list and [0]. *)
Lemma maxOf_is_maximum l :
  Forall nonneg l -> is_maximum (maxOf l) (0 :: l).
Proof.
  induction 1 as [|v l Hv Hl IH]; unfold is_maximum in *; simpl.
  - split; auto.
  - destruct IH as [Hin Hall].
    pose proof (maxOf_nonneg l Hl) as Hm.
    assert (Hmm : nonneg (Math_max v (maxOf l)))
      by now apply Math_max_nonneg_closed.
    assert (Hle : (maxOf l <=? Math_max v (maxOf l)) = true)
      by now apply leb_Math_max_r.
    split.
    + rewrite (Math_max_nonneg v (maxOf l)) by assumption.
      destruct (v <? maxOf l); simpl in *; intuition.
    + inversion Hall as [|? ? H0 Hrest]; subst.
      constructor; [|constructor].
      * apply (leb_trans_nonneg 0 (maxOf l)); auto using nonneg_zero.
      * now apply leb_Math_max_l.
      * rewrite Forall_forall in *. intros w Hw.
        apply (leb_trans_nonneg w (maxOf l)); auto.
Qed.

Lemma nonneg_leb_zero v : nonneg v -> (v <=? 0) = true -> v = 0.
Proof.
  intros [->|H] Hle; auto.
  rewrite leb_negb_ltb in Hle by (now apply ltb_not_nan in H).
  rewrite H in Hle. discriminate.
Qed.

(** ... and the maximum of the list itself, when the list has a member. *)
Lemma maxOf_is_maximum_nonempty l :
  Forall nonneg l -> l <> [] -> is_maximum (maxOf l) l.
Proof.
  intros Hl Hne. destruct (maxOf_is_maximum l Hl) as [Hin Hall].
  inversion Hall as [|? ? _ Hrest]; subst. split; auto.
  destruct Hin as [E|Hin]; auto.
  destruct l as [|v l']; [contradiction|].
  inversion Hrest as [|? ? Hv _]; subst. inversion Hl as [|? ? Hnv _]; subst.
  rewrite <- E in Hv. rewrite <- E.
  left. now apply nonneg_leb_zero.
Qed.

End NumFacts.
Import NumFacts.

(* ================================================================== *)
(** * The largest stroke width *)
(* ================================================================== *)

Module StrokeFacts.

Local Open Scope float_scope.

Section WithNumber.

Variable Number : string -> float.

Lemma strokePart_nonneg e : nonneg (strokePart e).
Proof.
  unfold strokePart. destruct (truthy_attr _);
    auto using nonneg_zero, nonneg_one.
Qed.

Lemma widthPart_nonneg e : nonneg (widthPart Number e).
Proof.
  unfold widthPart. destruct (getAttribute "stroke-width" e) as [w|];
    auto using nonneg_zero.
  destruct (truthy_string w); cbn [andb]; auto using nonneg_zero.
  destruct (0 <? Number w) eqn:E; auto using nonneg_zero. now right.
Qed.

Lemma contribution_nonneg e : nonneg (contribution Number e).
Proof.
  apply Math_max_nonneg_closed;
    auto using strokePart_nonneg, widthPart_nonneg.
Qed.

Lemma contributions_nonneg l : Forall nonneg (map (contribution Number) l).
Proof.
  induction l; simpl; constructor; auto using contribution_nonneg.
Qed.

Lemma maxContribution_nonneg n : nonneg (maxContribution Number n).
Proof. apply maxOf_nonneg, contributions_nonneg. Qed.

(** Lines 154-164 add the element's contribution to the running maximum. *)
Lemma visitStroke_element acc tag a kids :
  nonneg acc ->
  visitStroke Number acc (Element tag a kids)
  = Math_max acc (contribution Number (Element tag a kids)).
Proof.
  intros Hacc. unfold visitStroke, contribution. cbn [isElement].
  rewrite <- Math_max_assoc
    by auto using strokePart_nonneg, widthPart_nonneg.
  set (e := Element tag a kids).
  assert (H1 : (if truthy_attr (getAttribute "stroke" e)
                then Math_max acc 1 else acc)
               = Math_max acc (strokePart e)).
  { unfold strokePart. destruct (truthy_attr _); auto.
    now rewrite Math_max_zero_r. }
  rewrite H1.
  assert (Hacc1 : nonneg (Math_max acc (strokePart e)))
    by auto using Math_max_nonneg_closed, strokePart_nonneg.
  unfold widthPart. destruct (getAttribute "stroke-width" e) as [w|].
  - destruct (truthy_string w); cbn [andb].
    + apply Math_max_or_zero, Hacc1.
    + now rewrite Math_max_zero_r.
  - now rewrite Math_max_zero_r.
Qed.

Lemma elements_Element tag a kids :
  elements (Element tag a kids) = Element tag a kids :: flat_map elements kids.
Proof. reflexivity. Qed.

Lemma collectStrokeWidths_Element acc tag a kids :
  collectStrokeWidths Number acc (Element tag a kids)
  = fold_left (collectStrokeWidths Number) kids
              (visitStroke Number acc (Element tag a kids)).
Proof. reflexivity. Qed.

Lemma collect_children kids :
  Forall (fun k => forall acc, nonneg acc ->
            collectStrokeWidths Number acc k
            = Math_max acc (maxContribution Number k)) kids ->
  forall acc, nonneg acc ->
    fold_left (collectStrokeWidths Number) kids acc
    = Math_max acc
        (maxOf (map (contribution Number) (flat_map elements kids))).
Proof.
  induction 1 as [|k kids Hk _ IH]; intros acc Hacc; simpl.
  - now rewrite Math_max_zero_r.
  - rewrite IH, Hk by (rewrite ?Hk; auto using Math_max_nonneg_closed,
                         maxContribution_nonneg).
    rewrite map_app, maxOf_app by apply contributions_nonneg.
    apply Math_max_assoc;
      auto using maxContribution_nonneg, maxOf_nonneg, contributions_nonneg.
Qed.

(** The traversal adds the largest contribution of the subtree to the
    running maximum. *)
Lemma collectStrokeWidths_max n : forall acc,
  nonneg acc ->
  collectStrokeWidths Number acc n = Math_max acc (maxContribution Number n).
Proof.
  induction n as [tag a kids IH| |] using node_ind'; intros acc Hacc;
    try (cbn; now rewrite Math_max_zero_r).
  rewrite collectStrokeWidths_Element, visitStroke_element by assumption.
  rewrite (collect_children kids IH)
    by auto using Math_max_nonneg_closed, contribution_nonneg.
  unfold maxContribution. rewrite elements_Element. cbn [map maxOf fold_right].
  apply Math_max_assoc;
    auto using contribution_nonneg, maxOf_nonneg, contributions_nonneg.
Qed.

End WithNumber.

(** The method gives the largest contribution of the tree. *)
Lemma _findLargestStrokeWidth_maxContribution Number rootNode :
  _findLargestStrokeWidth Number rootNode = maxContribution Number rootNode.
Proof.
  unfold _findLargestStrokeWidth.
  rewrite collectStrokeWidths_max by apply nonneg_zero.
  apply Math_max_zero_l, maxContribution_nonneg.
Qed.

(** C1, as the code has it. For every tree, [_findLargestStrokeWidth] is the
    maximum, over all the elements and the root, of what an element gives:
    the larger of 1 when its [stroke] attribute is non-empty and of the
    number of its non-empty [stroke-width] when that number is above 0; an
    element with neither gives 0.  The result is the largest of those
    contributions and 0, and for a root that is an element, as it always is,
    the largest of the contributions themselves. *)
Theorem largest_stroke_width_is_maximum (Number : string -> float)
        (rootNode : node) :
  _findLargestStrokeWidth Number rootNode = maxContribution Number rootNode
  /\ is_maximum (_findLargestStrokeWidth Number rootNode)
                (0 :: map (contribution Number) (elements rootNode))
  /\ (isElement rootNode = true ->
      is_maximum (_findLargestStrokeWidth Number rootNode)
                 (map (contribution Number) (elements rootNode))).
Proof.
  rewrite _findLargestStrokeWidth_maxContribution. split; auto. split.
  - apply maxOf_is_maximum, contributions_nonneg.
  - intros Hel. apply maxOf_is_maximum_nonempty.
    + apply contributions_nonneg.
    + destruct rootNode; discriminate.
Qed.

(** The thin stroke: its largest stroke width, 1, is the largest of what its
    two elements give. *)
Lemma largest_stroke_width_witness :
  is_maximum (_findLargestStrokeWidth Sample.Number Sample.thinStroke)
             (map (contribution Sample.Number) (elements Sample.thinStroke)).
Proof.
  exact (proj2 (proj2 (largest_stroke_width_is_maximum
                         Sample.Number Sample.thinStroke)) eq_refl).
Defined.

(** C1 as it is written fails: an element with a [stroke] and a
    [stroke-width] of a half gives 1 in the code, where the specification's
    words give the half. *)
Lemma claimed_stroke_width_counterexample :
  _findLargestStrokeWidth Sample.Number Sample.thinStroke = 1
  /\ claimedStrokeWidth Sample.Number Sample.thinStroke = 0.5
  /\ _findLargestStrokeWidth Sample.Number Sample.thinStroke
     <> claimedStrokeWidth Sample.Number Sample.thinStroke.
Proof.
  split; [reflexivity|]. split; [reflexivity|].
  intros H. apply (f_equal (fun v => v <? 1)) in H. vm_compute in H.
  discriminate.
Qed.

(** ** One more element *)

Lemma contribution_attributes Number tag a kids kids' :
  contribution Number (Element tag a kids)
  = contribution Number (Element tag a kids').
Proof. reflexivity. Qed.

Lemma Math_max_insert c p e q :
  nonneg c -> nonneg p -> nonneg e -> nonneg q ->
  Math_max c (Math_max p (Math_max e q))
  = Math_max (Math_max c (Math_max p q)) e.
Proof.
  intros Hc Hp He Hq.
  rewrite (Math_max_comm e q) by assumption.
  rewrite <- (Math_max_assoc p q e) by assumption.
  rewrite <- (Math_max_assoc c (Math_max p q) e)
    by auto using Math_max_nonneg_closed.
  reflexivity.
Qed.

Lemma maxContribution_Element Number tag a kids :
  maxContribution Number (Element tag a kids)
  = Math_max (contribution Number (Element tag a kids))
             (maxOf (map (contribution Number) (flat_map elements kids))).
Proof. reflexivity. Qed.

Lemma maxOf_contributions_app Number l1 l2 :
  maxOf (map (contribution Number) (l1 ++ l2))
  = Math_max (maxOf (map (contribution Number) l1))
             (maxOf (map (contribution Number) l2)).
Proof. rewrite map_app. apply maxOf_app; apply contributions_nonneg. Qed.

(** The largest contribution of a tree with one more subtree is the larger
    of the tree's and of the subtree's. *)
Lemma maxContribution_extendedBy Number e d d' :
  extendedBy e d d' ->
  maxContribution Number d'
  = Math_max (maxContribution Number d) (maxContribution Number e).
Proof.
  pose proof (contributions_nonneg Number) as Hall.
  pose proof (contribution_nonneg Number) as Hone.
  pose proof (maxContribution_nonneg Number) as Hmax.
  induction 1 as [tag a pre post|tag a pre k k' post Hext IH];
    rewrite !maxContribution_Element, !flat_map_app; cbn [flat_map];
    rewrite !maxOf_contributions_app.
  - rewrite (contribution_attributes Number tag a _ (pre ++ post)).
    apply Math_max_insert; auto using maxOf_nonneg.
  - fold (maxContribution Number k'). fold (maxContribution Number k).
    rewrite IH.
    rewrite (contribution_attributes Number tag a _ (pre ++ k :: post)).
    set (c := contribution Number _).
    rewrite (Math_max_comm (maxContribution Number k)) by auto.
    rewrite (Math_max_assoc (maxContribution Number e))
      by auto using maxOf_nonneg.
    apply Math_max_insert; subst c;
      auto using maxOf_nonneg, Math_max_nonneg_closed.
Qed.

End StrokeFacts.
Import StrokeFacts.

(* ================================================================== *)
(** * Running the methods *)
(* ================================================================== *)

Module RendererFacts.

Local Open Scope float_scope.

(** ** The fields a mutation leaves alone *)

Lemma updateSvgTag_measurements f r :
  _measurements (updateSvgTag f r) = _measurements r.
Proof. unfold updateSvgTag. destruct (_svgTag r) as [[|e]|]; reflexivity. Qed.

Lemma updateSvgTag_cachedImage f r :
  _cachedImage (updateSvgTag f r) = _cachedImage r.
Proof. unfold updateSvgTag. destruct (_svgTag r) as [[|e]|]; reflexivity. Qed.

Lemma detachSvgTag_measurements r :
  _measurements (detachSvgTag r) = _measurements r.
Proof. unfold detachSvgTag. destruct (_svgTag r) as [[|e]|]; reflexivity. Qed.

Lemma detachSvgTag_cachedImage r :
  _cachedImage (detachSvgTag r) = _cachedImage r.
Proof. unfold detachSvgTag. destruct (_svgTag r) as [[|e]|]; reflexivity. Qed.

(** ** The root element of a document *)

Lemma find_mapFirstElement f l root :
  find isElement l = Some root -> isElement (f root) = true ->
  find isElement (mapFirstElement f l) = Some (f root).
Proof.
  induction l as [|n l IH]; simpl; try discriminate.
  destruct (isElement n) eqn:E; intros H Hf.
  - inversion H; subst. simpl. now rewrite Hf.
  - simpl. rewrite E. now apply IH.
Qed.

Lemma documentElement_update f d root :
  documentElement d = Some root -> isElement (f root) = true ->
  documentElement (updateDocumentElement f d) = Some (f root).
Proof. apply find_mapFirstElement. Qed.

Lemma documentElement_isElement d root :
  documentElement d = Some root -> isElement root = true.
Proof.
  unfold documentElement. intros H. apply find_some in H. tauto.
Qed.

Lemma isElement_setAttribute name v n :
  isElement (setAttribute name v n) = isElement n.
Proof. now destruct n. Qed.

Lemma getAttribute_setAttribute_same name v n :
  isElement n = true -> getAttribute name (setAttribute name v n) = Some v.
Proof.
  destruct n; try discriminate. intros _. apply getAttr_setAttr_same.
Qed.

Lemma getAttribute_setAttribute_other name other v n :
  String.eqb other name = false ->
  getAttribute name (setAttribute other v n) = getAttribute name n.
Proof.
  intros H. destruct n; try reflexivity. now apply getAttr_setAttr_other.
Qed.

(** ** The page *)

Lemma existsb_isNode_last id x l :
  existsb (isNode id) (l ++ [(id, x)]) = true.
Proof.
  rewrite existsb_app. cbn. unfold isNode. cbn [fst].
  now rewrite Nat.eqb_refl, orb_true_r.
Qed.

Lemma filter_not_last id x l :
  filter (fun c => negb (isNode id c)) (l ++ [(id, x)])
  = filter (fun c => negb (isNode id c)) l.
Proof.
  rewrite filter_app. cbn. unfold isNode at 2. cbn [fst].
  now rewrite Nat.eqb_refl, app_nil_r.
Qed.

Lemma existsb_isNode_map id (g : node -> node) l :
  existsb (isNode id)
          (map (fun c => if isNode id c then (fst c, g (snd c)) else c) l)
  = existsb (isNode id) l.
Proof.
  induction l as [|c l IH]; simpl; auto. rewrite IH. f_equal.
  destruct (isNode id c) eqn:E; auto.
Qed.

Lemma filter_isNode_map id (g : node -> node) l :
  filter (fun c => negb (isNode id c))
         (map (fun c => if isNode id c then (fst c, g (snd c)) else c) l)
  = filter (fun c => negb (isNode id c)) l.
Proof.
  induction l as [|c l IH]; simpl; auto. rewrite IH.
  destruct (isNode id c) eqn:E; simpl.
  - unfold isNode in *. cbn [fst]. now rewrite E.
  - now rewrite E.
Qed.

(** On a page whose nodes are all older, taking the new node away again gives
    the old children back. *)
Lemma filter_fresh p :
  page_ok p ->
  filter (fun c => negb (isNode (nextNode p) c)) (body p) = body p.
Proof.
  unfold page_ok. induction 1 as [|c l Hc _ IH]; simpl; auto.
  unfold isNode at 1.
  destruct (Nat.eqb_spec (fst c) (nextNode p)); try lia. simpl.
  now rewrite IH.
Qed.

(** ** What each method does to a store *)

Section Runs.

Variable parseFromString : string -> Document.
Variable serializeToString : Document -> string.
Variable convertFonts : node -> option node.
Variable inlineSvgFonts : node -> node.
Variable getBBox : node -> option Rect.
Variable Number : string -> float.
Variable ToString : float -> string.

(** The methods with the browser of this section. *)
Local Notation "'run_transformText'" := (_transformText convertFonts).
Local Notation "'run_transformMeasurements'" :=
  (_transformMeasurements parseFromString serializeToString inlineSvgFonts
                          getBBox Number ToString).
Local Notation "'run_loadString'" :=
  (loadString parseFromString serializeToString convertFonts inlineSvgFonts
              getBBox Number ToString).
Local Notation "'after_reparse'" := (reparsed parseFromString serializeToString).
Local Notation "'after_measure'" := (measured Number ToString).

Lemma _transformText_run s :
  run_transformText s
  = match svgTagNode (this s) with
    | None => (inl TypeError, s)
    | Some svgTag =>
        match convertFonts (transformTextElements svgTag) with
        | Some converted =>
            (inr tt,
             withThis (updateSvgTag (fun _ => converted))
                      (withThis (updateSvgTag transformTextElements) s))
        | None =>
            (inl FontFailure, withThis (updateSvgTag transformTextElements) s)
        end
    end.
Proof.
  unfold _transformText, bind, gets, modify, throw.
  destruct (svgTagNode (this s)) as [svgTag|]; auto.
  destruct (convertFonts (transformTextElements svgTag)); reflexivity.
Qed.

Lemma _transformMeasurements_run s :
  run_transformMeasurements s
  = match _svgDom (this s) with
    | None => (inl TypeError, s)
    | Some d =>
        let p := pageAfter (document s) in
        match svgTagNode (this s) with
        | None => (inl TypeError, mkStore (this s) p)
        | Some svgTag =>
            match getBBox svgTag with
            | None => (inl MeasurementFailure, mkStore (detachSvgTag (this s)) p)
            | Some bbox =>
                let r := after_reparse d (this s) in
                match svgTagNode r with
                | None => (inl TypeError, mkStore r p)
                | Some root => (inr tt, mkStore (after_measure bbox root r) p)
                end
            end
        end
    end.
Proof.
  destruct s as [r p].
  unfold _transformMeasurements, toString, createElement, try_finally,
    svgSpot_appendChild_svgTag, body_appendChild, body_removeChild,
    bind, gets, modify, throw, ret, withThis, withDocument.
  cbn [this document fst snd body nextNode].
  destruct (_svgDom r) as [d|] eqn:Edom; auto.
  destruct (svgTagNode r) as [svgTag|] eqn:Etag;
    cbn [this document fst snd body nextNode]; rewrite ?Etag;
    cbn [this document fst snd body nextNode].
  - destruct (getBBox svgTag) as [bbox|];
      cbn [this document fst snd body nextNode];
      rewrite existsb_isNode_map, existsb_isNode_last, filter_isNode_map,
        filter_not_last;
      cbn [this document fst snd body nextNode];
      try reflexivity.
    unfold reparsed.
    match goal with
    | |- context [svgTagNode (set_svgTag_documentElement ?a)] =>
        destruct (svgTagNode (set_svgTag_documentElement a))
    end; reflexivity.
  - rewrite existsb_isNode_last, filter_not_last. reflexivity.
Qed.

Lemma loadString_run svgString s :
  run_loadString svgString s
  = let svgDom := parseFromString svgString in
    let s1 :=
      withThis (fun r => set_svgDom svgDom (set_cachedImage None r)) s in
    if (List.length (doc_childNodes svgDom) <? 1)%nat
    then (inl InvalidDocument, s1)
    else
      match documentElement svgDom with
      | None => (inl TypeError, s1)
      | Some root =>
          if negb (match localName root with
                   | Some name => String.eqb name "svg"
                   | None => false
                   end)
          then (inl InvalidDocument, s1)
          else
            bind run_transformText (fun _ => run_transformMeasurements)
                 (withThis set_svgTag_documentElement s1)
      end.
Proof.
  destruct s as [r p].
  unfold loadString, bind, gets, modify, throw, withThis.
  cbn [this document _svgDom set_svgDom].
  destruct (List.length _ <? 1)%nat; auto.
  destruct (documentElement (parseFromString svgString)) as [root|]; auto.
  destruct (negb _); reflexivity.
Qed.

(** The renderer after the first two lines of [loadString]. *)
Lemma svgTagNode_reparsed d r :
  svgTagNode (after_reparse d r)
  = documentElement (parseFromString (serializeToString d)).
Proof.
  unfold reparsed, set_svgTag_documentElement, svgTagNode.
  cbn [_svgDom _svgTag set_svgDom].
  destruct (documentElement _); reflexivity.
Qed.

Lemma svgDom_reparsed d r :
  _svgDom (after_reparse d r) = Some (parseFromString (serializeToString d)).
Proof. reflexivity. Qed.

Lemma svgTagNode_updateSvgTag_root f r d root :
  _svgTag r = Some RootOfSvgDom -> _svgDom r = Some d ->
  documentElement d = Some root -> isElement (f root) = true ->
  _svgTag (updateSvgTag f r) = Some RootOfSvgDom
  /\ _svgDom (updateSvgTag f r) = Some (updateDocumentElement f d)
  /\ documentElement (updateDocumentElement f d) = Some (f root).
Proof.
  intros Htag Hdom Hroot Hf. unfold updateSvgTag. rewrite Htag, Hdom.
  cbn. repeat split. now apply documentElement_update.
Qed.

(** ** What a failed run leaves *)

Lemma updateSvgTag_svgDom f r :
  (exists d, _svgDom r = Some d) ->
  exists d, _svgDom (updateSvgTag f r) = Some d.
Proof.
  intros [d Hd]. unfold updateSvgTag.
  destruct (_svgTag r) as [[|el]|]; cbn [_svgDom]; rewrite ?Hd; cbn; eauto.
Qed.

Lemma detachSvgTag_svgDom r :
  (exists d, _svgDom r = Some d) ->
  exists d, _svgDom (detachSvgTag r) = Some d.
Proof.
  intros [d Hd]. unfold detachSvgTag.
  destruct (_svgTag r) as [[|el]|]; cbn [_svgDom]; rewrite ?Hd; cbn; eauto.
Qed.

Lemma measured_cachedImage bbox root r :
  _cachedImage (after_measure bbox root r) = _cachedImage r.
Proof.
  unfold measured. cbn zeta. cbn [_cachedImage set_measurements].
  now rewrite !updateSvgTag_cachedImage.
Qed.

Lemma measured_svgDom bbox root r :
  (exists d, _svgDom r = Some d) ->
  exists d, _svgDom (after_measure bbox root r) = Some d.
Proof.
  intros H. unfold measured. cbn zeta. cbn [_svgDom set_measurements].
  now repeat apply updateSvgTag_svgDom.
Qed.

Lemma reparsed_cachedImage d r :
  _cachedImage (after_reparse d r) = _cachedImage r.
Proof.
  unfold reparsed. cbn [_cachedImage set_svgTag_documentElement set_svgDom].
  apply detachSvgTag_cachedImage.
Qed.

Lemma reparsed_measurements d r :
  _measurements (after_reparse d r) = _measurements r.
Proof.
  unfold reparsed. cbn [_measurements set_svgTag_documentElement set_svgDom].
  apply detachSvgTag_measurements.
Qed.

(** [_transformText] keeps the measurements and the cached image, and a
    document in [this._svgDom]; it does not throw [InvalidDocument]. *)
Lemma _transformText_keeps s outcome s' :
  run_transformText s = (outcome, s') ->
  _cachedImage (this s') = _cachedImage (this s)
  /\ _measurements (this s') = _measurements (this s)
  /\ document s' = document s
  /\ ((exists d, _svgDom (this s) = Some d) ->
      exists d, _svgDom (this s') = Some d)
  /\ outcome <> inl InvalidDocument.
Proof.
  rewrite _transformText_run. destruct s as [r p]. cbn [this withThis document].
  destruct (svgTagNode r) as [svgTag|].
  - destruct (convertFonts (transformTextElements svgTag));
      intros [= <- <-]; cbn [this document withThis];
      rewrite ?updateSvgTag_cachedImage, ?updateSvgTag_measurements;
      repeat split; auto; try discriminate;
      intros H; repeat apply updateSvgTag_svgDom; exact H.
  - intros [= <- <-]. repeat split; auto. discriminate.
Qed.

(** [_transformMeasurements] keeps the cached image and a document in
    [this._svgDom], and the measurements when it fails; it does not throw
    [InvalidDocument]. *)
Lemma _transformMeasurements_keeps s outcome s' :
  run_transformMeasurements s = (outcome, s') ->
  _cachedImage (this s') = _cachedImage (this s)
  /\ ((exists d, _svgDom (this s) = Some d) ->
      exists d, _svgDom (this s') = Some d)
  /\ outcome <> inl InvalidDocument
  /\ (forall e, outcome = inl e ->
        _measurements (this s') = _measurements (this s)).
Proof.
  rewrite _transformMeasurements_run. destruct s as [r p].
  cbn [this document]. destruct (_svgDom r) as [d|] eqn:Hd.
  2:{ intros [= <- <-]. cbn [this]. rewrite Hd.
      repeat split; auto; discriminate. }
  cbn zeta. destruct (svgTagNode r) as [svgTag|].
  2:{ intros [= <- <-]. cbn [this]. rewrite Hd.
      repeat split; auto; discriminate. }
  destruct (getBBox svgTag) as [bbox|].
  2:{ intros [= <- <-]. cbn [this].
      rewrite detachSvgTag_cachedImage, detachSvgTag_measurements.
      repeat split; auto; try discriminate.
      intros _. apply detachSvgTag_svgDom. eauto. }
  destruct (svgTagNode (after_reparse d r)) as [root|];
    intros [= <- <-]; cbn [this];
    rewrite ?measured_cachedImage, reparsed_cachedImage,
      ?reparsed_measurements;
    repeat split; auto; try discriminate;
    intros _; try apply measured_svgDom; rewrite svgDom_reparsed; eauto.
Qed.

(** ** The claims on [loadString] *)

(** C7. [loadString] throws the error of line 78, [InvalidDocument], exactly
    when the parsed document has no node at all or has a root element whose
    tag is not [svg].  So it does on ["<notsvg/>"], which parses to a
    document with the root [notsvg], and on ["not xml at all <<<"], for which
    the parser gives an error document, whose root is not [svg] either. *)
Theorem load_rejects_non_svg (svgString : string) (s : Store) :
  (fst (run_loadString svgString s) = inl InvalidDocument
   <-> (List.length (doc_childNodes (parseFromString svgString)) < 1
        \/ exists root,
            documentElement (parseFromString svgString) = Some root
            /\ localName root <> Some "svg"))
  /\ (documentElement (parseFromString "<notsvg/>")
      = Some (Element "notsvg" [] []) ->
      fst (run_loadString "<notsvg/>" s) = inl InvalidDocument)
  /\ ((exists root,
          documentElement (parseFromString "not xml at all <<<") = Some root
          /\ localName root <> Some "svg") ->
      fst (run_loadString "not xml at all <<<" s) = inl InvalidDocument).
Proof.
  assert (Hiff : forall text,
    fst (run_loadString text s) = inl InvalidDocument
    <-> (List.length (doc_childNodes (parseFromString text)) < 1
         \/ exists root,
             documentElement (parseFromString text) = Some root
             /\ localName root <> Some "svg")).
  { intros text. rewrite loadString_run. cbn zeta.
    destruct (Nat.ltb_spec (List.length (doc_childNodes (parseFromString text))) 1)
      as [Hlen|Hlen].
    { split; auto. }
    destruct (documentElement (parseFromString text)) as [root|] eqn:Eroot.
    2:{ split; [discriminate|]. intros [H|(root & H & _)];
          [lia|discriminate]. }
    destruct (localName root) as [name|] eqn:Ename.
    2:{ cbn. split; auto. intros _. right. exists root. split; auto.
        rewrite Ename. discriminate. }
    destruct (String.eqb_spec name "svg") as [->|Hname]; cbn [negb].
    2:{ split; auto. intros _. right. exists root. split; auto.
        congruence. }
    split.
    - intros H. exfalso. revert H. unfold bind.
      destruct s as [r p].
      destruct (run_transformText _) as [[e|[]] s2] eqn:Ht.
      + apply _transformText_keeps in Ht. cbn [fst]. intros [= ->]. tauto.
      + destruct (run_transformMeasurements s2) as [o s3] eqn:Hm.
        apply _transformMeasurements_keeps in Hm. cbn [fst]. intros ->. tauto.
    - intros [H|(root' & H & Hne)]; [lia|]. congruence. }
  split; [apply Hiff|]. split.
  - intros H. apply Hiff. right. eexists. split; [exact H|]. discriminate.
  - intros H. apply Hiff. now right.
Qed.

(** What a failed [loadString] leaves in the renderer. *)
Lemma loadString_failure (svgString : string) (s s' : Store) (e : exn) :
  run_loadString svgString s = (inl e, s') ->
  _measurements (this s') = _measurements (this s)
  /\ (exists d, _svgDom (this s') = Some d)
  /\ (e = InvalidDocument ->
      _svgDom (this s') = Some (parseFromString svgString)).
Proof.
  rewrite loadString_run. cbn zeta. destruct s as [r p].
  set (s1 := withThis _ (mkStore r p)).
  assert (H1 : _measurements (this s1) = _measurements r
               /\ _svgDom (this s1) = Some (parseFromString svgString))
    by (split; reflexivity).
  destruct H1 as [Hm1 Hd1]. cbn [this].
  destruct (List.length _ <? 1)%nat.
  { intros [= <- <-]. repeat split; eauto. }
  destruct (documentElement (parseFromString svgString)) as [root|].
  2:{ intros [= <- <-]. repeat split; eauto. }
  destruct (negb _).
  { intros [= <- <-]. repeat split; eauto. }
  unfold bind.
  destruct (run_transformText _) as [[e1|[]] s2] eqn:Ht;
    apply _transformText_keeps in Ht;
    destruct Ht as (_ & Hm2 & _ & Hd2 & Hne2).
  - intros [= <- <-]. rewrite Hm2. repeat split; auto.
    + apply Hd2. cbn. eauto.
    + intros ->. congruence.
  - destruct (run_transformMeasurements s2) as [o s3] eqn:Hm.
    apply _transformMeasurements_keeps in Hm.
    destruct Hm as (_ & Hd3 & Hne3 & Hm3).
    intros [= -> <-]. rewrite (Hm3 e eq_refl), Hm2. repeat split; auto.
    + apply Hd3, Hd2. cbn. eauto.
    + intros ->. congruence.
Qed.

Lemma documentElement_length d root :
  documentElement d = Some root ->
  (List.length (doc_childNodes d) <? 1)%nat = false.
Proof.
  unfold documentElement. destruct (doc_childNodes d); [discriminate|].
  reflexivity.
Qed.

(** The store when the text step is done. *)
Lemma loadString_text_step svgString s root0 conv :
  documentElement (parseFromString svgString) = Some root0 ->
  convertFonts (transformTextElements root0) = Some conv ->
  exists s2,
    run_transformText
      (withThis set_svgTag_documentElement
         (withThis (fun r => set_svgDom (parseFromString svgString)
                               (set_cachedImage None r)) s))
    = (inr tt, s2)
    /\ this s2
       = mkSvgRenderer (_measurements (this s)) None
           (Some (afterText conv (parseFromString svgString)))
           (Some RootOfSvgDom)
    /\ document s2 = document s.
Proof.
  intros Hroot Hconv. destruct s as [r p]. eexists.
  rewrite _transformText_run. unfold withThis. cbn [this document].
  unfold set_svgTag_documentElement at 1, svgTagNode at 1.
  cbn [_svgDom _svgTag set_svgDom]. rewrite Hroot, Hconv.
  split; [reflexivity|]. cbn [this document]. split; [|reflexivity].
  unfold updateSvgTag, set_svgTag_documentElement.
  cbn [_svgDom _svgTag set_svgDom _measurements _cachedImage set_cachedImage].
  rewrite Hroot. reflexivity.
Qed.

(** The store when the text step has thrown: the text quirks are done. *)
Lemma loadString_text_fails svgString s root0 :
  documentElement (parseFromString svgString) = Some root0 ->
  convertFonts (transformTextElements root0) = None ->
  exists s2,
    run_transformText
      (withThis set_svgTag_documentElement
         (withThis (fun r => set_svgDom (parseFromString svgString)
                               (set_cachedImage None r)) s))
    = (inl FontFailure, s2)
    /\ _svgDom (this s2)
       = Some (updateDocumentElement transformTextElements
                 (parseFromString svgString)).
Proof.
  intros Hroot Hconv. destruct s as [r p]. eexists.
  rewrite _transformText_run. unfold withThis. cbn [this document].
  unfold set_svgTag_documentElement at 1, svgTagNode at 1.
  cbn [_svgDom _svgTag set_svgDom]. rewrite Hroot, Hconv.
  split; [reflexivity|]. cbn [this].
  unfold updateSvgTag, set_svgTag_documentElement.
  cbn [_svgDom _svgTag set_svgDom _measurements _cachedImage set_cachedImage].
  rewrite Hroot. reflexivity.
Qed.

Lemma loadString_text_throws svgString s root0 :
  documentElement (parseFromString svgString) = Some root0 ->
  convertFonts (transformTextElements root0) = None ->
  fst (run_transformText
         (withThis set_svgTag_documentElement
            (withThis (fun r => set_svgDom (parseFromString svgString)
                                  (set_cachedImage None r)) s)))
  = inl FontFailure.
Proof.
  intros Hroot Hconv. destruct s as [r p].
  rewrite _transformText_run. unfold withThis. cbn [this document].
  unfold set_svgTag_documentElement at 1, svgTagNode at 1.
  cbn [_svgDom _svgTag set_svgDom]. now rewrite Hroot, Hconv.
Qed.

(** The document a failed [loadString] leaves, by the place of the
    failure. *)
Lemma loadString_failure_stage (svgString : string) (s s' : Store) (e : exn) :
  run_loadString svgString s = (inl e, s') ->
  exists d,
    leftByFailedLoad parseFromString serializeToString convertFonts getBBox
                     svgString e d
    /\ _svgDom (this s') = Some d.
Proof.
  rewrite loadString_run. cbn zeta.
  destruct (List.length _ <? 1)%nat eqn:Hlen.
  { intros [= <- <-]. eexists. split; [|destruct s; reflexivity].
    apply left_rejected. left. now apply Nat.ltb_lt. }
  apply Nat.ltb_ge in Hlen.
  destruct (documentElement (parseFromString svgString)) as [root|] eqn:Hroot.
  2:{ intros [= <- <-]. eexists. split; [|destruct s; reflexivity].
      now apply left_without_root. }
  destruct (negb _) eqn:Hsvg.
  { intros [= <- <-]. eexists. split; [|destruct s; reflexivity].
    apply left_rejected. right. exists root. split; [exact Hroot|].
    intros Hname. rewrite Hname in Hsvg. discriminate. }
  assert (Hname : localName root = Some "svg").
  { destruct (localName root) as [name|]; [|discriminate].
    apply negb_false_iff, String.eqb_eq in Hsvg. now subst. }
  unfold bind.
  destruct (convertFonts (transformTextElements root)) as [conv|] eqn:Hconv.
  2:{ destruct (loadString_text_fails svgString s root Hroot Hconv)
        as (s2 & Hrun2 & Hdom2).
      rewrite Hrun2. intros [= <- <-]. eexists. split; [|exact Hdom2].
      now apply (left_by_fonts _ _ _ _ _ root). }
  destruct (loadString_text_step svgString s root conv Hroot Hconv)
    as (s2 & Hrun2 & Hthis2 & _).
  rewrite Hrun2, _transformMeasurements_run, Hthis2.
  cbn [_svgDom]. cbn zeta. unfold svgTagNode at 1. cbn [_svgTag _svgDom].
  destruct (documentElement (afterText conv (parseFromString svgString)))
    as [svgTag|] eqn:Htag.
  2:{ intros [= <- <-]. eexists. split; [|reflexivity].
      now apply (left_unrooted _ _ _ _ _ root conv). }
  destruct (getBBox svgTag) as [bbox|] eqn:Hbox.
  2:{ intros [= <- <-]. eexists. split; [|reflexivity].
      now apply (left_by_measurement _ _ _ _ _ root conv svgTag). }
  rewrite svgTagNode_reparsed.
  destruct (documentElement (parseFromString (serializeToString _)))
    as [root2|] eqn:Hroot2; [discriminate|].
  intros [= <- <-]. eexists. split; [|apply svgDom_reparsed].
  now apply (left_by_reparse _ _ _ _ _ root conv svgTag bbox).
Qed.

(** C2, as the code has it. When [loadString] fails, at whatever stage, the
    measurements are those of before; [this._svgDom] however holds the
    document of the failed load, as it is at the place of the failure: as
    parsed after the errors of lines 77 and 78, with the text quirks done
    when [convertFonts] throws, converted and without its root element when
    the oracle throws, and parsed again when the text parsed again has no
    root.  After the error of line 78 it is the rejected document itself. *)
Theorem failed_load_keeps_measurements (svgString : string) (s s' : Store)
        (e : exn) :
  run_loadString svgString s = (inl e, s') ->
  _measurements (this s') = _measurements (this s)
  /\ (exists d,
        leftByFailedLoad parseFromString serializeToString convertFonts
                         getBBox svgString e d
        /\ _svgDom (this s') = Some d)
  /\ (e = InvalidDocument ->
      _svgDom (this s') = Some (parseFromString svgString)).
Proof.
  intros Hrun.
  destruct (loadString_failure svgString s s' e Hrun) as (Hm & _ & Hinv).
  split; [exact Hm|].
  split; [exact (loadString_failure_stage svgString s s' e Hrun)|exact Hinv].
Qed.

(** C10, as the code has it. Whatever comes of it, [loadString] leaves no
    cached image; and when it fails, [this._svgDom] holds the document of
    the failed load, as it is at the place of the failure, the rejected one
    itself after the error of line 78. *)
Theorem load_invalidates_cached_image (svgString : string)
        (s s' : Store) (outcome : exn + unit) :
  run_loadString svgString s = (outcome, s') ->
  _cachedImage (this s') = None
  /\ (forall e, outcome = inl e ->
        (exists d,
           leftByFailedLoad parseFromString serializeToString convertFonts
                            getBBox svgString e d
           /\ _svgDom (this s') = Some d)
        /\ (e = InvalidDocument ->
            _svgDom (this s') = Some (parseFromString svgString))).
Proof.
  intros Hrun. split.
  - revert Hrun. rewrite loadString_run. cbn zeta. destruct s as [r p].
    set (s1 := withThis _ (mkStore r p)).
    assert (Hc1 : _cachedImage (this s1) = None) by reflexivity.
    destruct (List.length _ <? 1)%nat; [now intros [= <- <-]|].
    destruct (documentElement (parseFromString svgString)) as [root|];
      [|now intros [= <- <-]].
    destruct (negb _); [now intros [= <- <-]|].
    unfold bind.
    destruct (run_transformText _) as [[e1|[]] s2] eqn:Ht;
      apply _transformText_keeps in Ht; destruct Ht as (Hc2 & _).
    + intros [= <- <-]. now rewrite Hc2.
    + destruct (run_transformMeasurements s2) as [o s3] eqn:Hm.
      apply _transformMeasurements_keeps in Hm. destruct Hm as (Hc3 & _).
      intros [= <- <-]. now rewrite Hc3, Hc2.
  - intros e ->.
    destruct (loadString_failure svgString s s' e Hrun) as (_ & _ & Hinv).
    split; [exact (loadString_failure_stage svgString s s' e Hrun)|exact Hinv].
Qed.

(** ** The claims on [_transformMeasurements] *)

Lemma pageAfter_body p : page_ok p -> body (pageAfter p) = body p.
Proof. apply filter_fresh. Qed.

Lemma pageAfter_ok p : page_ok p -> page_ok (pageAfter p).
Proof.
  unfold page_ok, pageAfter. cbn [body nextNode]. intros H.
  rewrite (filter_fresh p H). eapply Forall_impl; [|exact H].
  cbn beta. intros c Hc. lia.
Qed.

(** C8. On a page whose nodes are older than the one [createElement] makes,
    [_transformMeasurements] leaves the children of [document.body] as they
    were, whatever its outcome: the [span] it attaches the drawing with is
    taken away again when the oracle gives a bounding box and when the oracle
    throws, and on every other exit. *)
Theorem attachment_released (s s' : Store) (outcome : exn + unit) :
  page_ok (document s) ->
  run_transformMeasurements s = (outcome, s') ->
  body (document s') = body (document s) /\ page_ok (document s').
Proof.
  intros Hok. rewrite _transformMeasurements_run.
  destruct (_svgDom (this s)); [|now intros [= <- <-]].
  cbn zeta.
  destruct (svgTagNode (this s)) as [svgTag|].
  2:{ intros [= <- <-]. cbn [document].
      auto using pageAfter_body, pageAfter_ok. }
  destruct (getBBox svgTag) as [bbox|].
  2:{ intros [= <- <-]. cbn [document].
      auto using pageAfter_body, pageAfter_ok. }
  destruct (svgTagNode _); intros [= <- <-]; cbn [document];
    auto using pageAfter_body, pageAfter_ok.
Qed.

Lemma reparsed_root d r root :
  svgTagNode (after_reparse d r) = Some root ->
  _svgTag (after_reparse d r) = Some RootOfSvgDom
  /\ documentElement (parseFromString (serializeToString d)) = Some root
  /\ isElement root = true.
Proof.
  rewrite svgTagNode_reparsed. intros H. repeat split; auto.
  - unfold reparsed, set_svgTag_documentElement. cbn [_svgDom _svgTag set_svgDom].
    now rewrite H.
  - now apply documentElement_isElement in H.
Qed.

(** The root element after lines 224-227. *)
Lemma measured_root bbox svgTag r d root :
  _svgTag r = Some RootOfSvgDom -> _svgDom r = Some d ->
  documentElement d = Some root -> isElement root = true ->
  let halfStrokeWidth := _findLargestStrokeWidth Number svgTag / 2 in
  let width := Num.width bbox + (halfStrokeWidth * 2) in
  let height := Num.height bbox + (halfStrokeWidth * 2) in
  let x := Num.x bbox - halfStrokeWidth in
  let y := Num.y bbox - halfStrokeWidth in
  let root' :=
    setAttribute "viewBox"
      (ToString x ++ " " ++ ToString y ++ " " ++
       ToString width ++ " " ++ ToString height)%string
      (setAttribute "height" (ToString height)
         (setAttribute "width" (ToString width) root)) in
  svgTagNode (after_measure bbox svgTag r) = Some root'.
Proof.
  intros Htag Hdom Hroot Hel. cbn zeta. unfold measured. cbn zeta.
  set (fw := setAttribute "width" _). set (fh := setAttribute "height" _).
  set (fv := setAttribute "viewBox" _).
  destruct (svgTagNode_updateSvgTag_root fw r d root Htag Hdom Hroot)
    as (T1 & D1 & R1).
  { subst fw. now rewrite isElement_setAttribute. }
  destruct (svgTagNode_updateSvgTag_root fh _ _ _ T1 D1 R1) as (T2 & D2 & R2).
  { subst fh fw. now rewrite !isElement_setAttribute. }
  destruct (svgTagNode_updateSvgTag_root fv _ _ _ T2 D2 R2) as (T3 & D3 & R3).
  { subst fv fh fw. now rewrite !isElement_setAttribute. }
  unfold svgTagNode. cbn [_svgTag _svgDom set_measurements].
  now rewrite T3, D3.
Qed.

(** C3. When [_transformMeasurements] goes through, the oracle gave a
    bounding box [bbox] for the element of before, and with [h] half the
    largest stroke width of the document parsed again, the measurements are
    [width = bbox.width + h * 2], [height = bbox.height + h * 2],
    [x = bbox.x - h] and [y = bbox.y - h]; the root element of the current
    document has these [width] and [height] as attributes, and as [viewBox]
    the four numbers [x y width height] with a blank between them. *)
Theorem measurement_formula (s s' : Store) :
  run_transformMeasurements s = (inr tt, s') ->
  exists (svgTag : node) (bbox : Rect) (d : Document) (root : node),
    svgTagNode (this s) = Some svgTag
    /\ getBBox svgTag = Some bbox
    /\ _svgDom (this s) = Some d
    /\ documentElement (parseFromString (serializeToString d)) = Some root
    /\ let h := _findLargestStrokeWidth Number root / 2 in
       let width := Num.width bbox + (h * 2) in
       let height := Num.height bbox + (h * 2) in
       let x := Num.x bbox - h in
       let y := Num.y bbox - h in
       _measurements (this s') = mkRect x y width height
       /\ exists root' : node,
           svgTagNode (this s') = Some root'
           /\ getAttribute "width" root' = Some (ToString width)
           /\ getAttribute "height" root' = Some (ToString height)
           /\ getAttribute "viewBox" root'
              = Some (ToString x ++ " " ++ ToString y ++ " " ++
                      ToString width ++ " " ++ ToString height)%string.
Proof.
  rewrite _transformMeasurements_run.
  destruct (_svgDom (this s)) as [d|] eqn:Hd; [|discriminate].
  cbn zeta.
  destruct (svgTagNode (this s)) as [svgTag|]; [|discriminate].
  destruct (getBBox svgTag) as [bbox|] eqn:Hbox; [|discriminate].
  destruct (svgTagNode (after_reparse d (this s))) as [root|] eqn:Hroot;
    [|discriminate].
  intros [= <-]. exists svgTag, bbox, d, root.
  destruct (reparsed_root _ _ _ Hroot) as (Htag & Hdoc & Hel).
  repeat split; auto. cbn [this].
  eexists. split.
  - apply (measured_root bbox root _ _ root Htag (svgDom_reparsed _ _) Hdoc Hel).
  - repeat split.
    + rewrite !getAttribute_setAttribute_other by reflexivity.
      now apply getAttribute_setAttribute_same.
    + rewrite getAttribute_setAttribute_other by reflexivity.
      apply getAttribute_setAttribute_same.
      now rewrite isElement_setAttribute.
    + apply getAttribute_setAttribute_same.
      now rewrite !isElement_setAttribute.
Qed.

(** The same, the other way round: what makes the pass go through. *)
Lemma _transformMeasurements_succeeds s d svgTag bbox root :
  _svgDom (this s) = Some d ->
  svgTagNode (this s) = Some svgTag ->
  getBBox svgTag = Some bbox ->
  documentElement (parseFromString (serializeToString d)) = Some root ->
  run_transformMeasurements s
  = (inr tt, mkStore (after_measure bbox root (after_reparse d (this s)))
                     (pageAfter (document s))).
Proof.
  intros Hd Htag Hbox Hroot. rewrite _transformMeasurements_run.
  rewrite Hd, Htag, Hbox. cbn zeta. now rewrite svgTagNode_reparsed, Hroot.
Qed.

(** ** One more stroked element *)

(** With one more element whose [stroke-width] is a number above the largest
    stroke width so far, that number is the largest stroke width. *)
Lemma largest_after_extension (D D' e : node) (w : string) :
  extendedBy e D D' ->
  elements e = [e] ->
  getAttribute "stroke-width" e = Some w ->
  w <> "" ->
  truthy_attr (getAttribute "stroke" e) = false \/ (1 <=? Number w) = true ->
  (_findLargestStrokeWidth Number D <? Number w) = true ->
  _findLargestStrokeWidth Number D' = Number w.
Proof.
  intros Hext Hleaf Hw Hne Hstroke Hlt.
  rewrite _findLargestStrokeWidth_maxContribution in *.
  pose proof (maxContribution_nonneg Number D) as Hold.
  assert (HN : nonneg (Number w)) by now apply (nonneg_lt _ _ Hold).
  assert (Hpos : (0 <? Number w) = true).
  { destruct HN as [E|H]; auto. rewrite E in Hlt.
    now rewrite (nonneg_ltb_zero _ Hold) in Hlt. }
  assert (Hwidth : widthPart Number e = Number w).
  { unfold widthPart. now rewrite Hw, (truthy_string_neq _ Hne), Hpos. }
  assert (He : maxContribution Number e = Number w).
  { unfold maxContribution. rewrite Hleaf. cbn [map maxOf fold_right].
    rewrite Math_max_zero_r by apply contribution_nonneg.
    unfold contribution. rewrite Hwidth. unfold strokePart.
    destruct Hstroke as [Hs|Hone].
    - rewrite Hs. now apply Math_max_zero_l.
    - destruct (truthy_attr _); [|now apply Math_max_zero_l].
      rewrite Math_max_nonneg by auto using nonneg_one.
      destruct (1 <? Number w) eqn:E; auto.
      apply nonneg_tie; auto using nonneg_one.
      rewrite leb_negb_ltb in Hone by auto using nonneg_not_nan, nonneg_one.
      now apply negb_true_iff in Hone. }
  rewrite (maxContribution_extendedBy Number e D D' Hext), He.
  rewrite Math_max_nonneg by assumption. now rewrite Hlt.
Qed.

(** C9, as the code has it. Take a document with largest stroke width
    [2 * oldHalf], and the same with one more element whose [stroke-width]
    is a number [N] above that (and at least 1 if the element has a [stroke]
    too); let the oracle give both the same bounding box.  Then measuring
    makes the width and the height [bbox.width + oldHalf * 2] and
    [bbox.height + oldHalf * 2] for the first, and [bbox.width + N / 2 * 2]
    and [bbox.height + N / 2 * 2] for the second, each sum rounded as
    JavaScript numbers are. *)
Theorem stroke_width_extension (s1 s2 : Store) (d1 d2 : Document)
        (svgTag1 svgTag2 D D' e : node) (w : string) (bbox : Rect) :
  _svgDom (this s1) = Some d1 ->
  svgTagNode (this s1) = Some svgTag1 ->
  getBBox svgTag1 = Some bbox ->
  documentElement (parseFromString (serializeToString d1)) = Some D ->
  _svgDom (this s2) = Some d2 ->
  svgTagNode (this s2) = Some svgTag2 ->
  getBBox svgTag2 = Some bbox ->
  documentElement (parseFromString (serializeToString d2)) = Some D' ->
  extendedBy e D D' ->
  elements e = [e] ->
  getAttribute "stroke-width" e = Some w ->
  w <> "" ->
  truthy_attr (getAttribute "stroke" e) = false \/ (1 <=? Number w) = true ->
  (_findLargestStrokeWidth Number D <? Number w) = true ->
  exists s1' s2' : Store,
    run_transformMeasurements s1 = (inr tt, s1')
    /\ run_transformMeasurements s2 = (inr tt, s2')
    /\ let oldHalf := _findLargestStrokeWidth Number D / 2 in
       let N := Number w in
       Num.width (_measurements (this s1')) = Num.width bbox + oldHalf * 2
       /\ Num.height (_measurements (this s1')) = Num.height bbox + oldHalf * 2
       /\ Num.width (_measurements (this s2')) = Num.width bbox + N / 2 * 2
       /\ Num.height (_measurements (this s2')) = Num.height bbox + N / 2 * 2.
Proof.
  intros Hd1 Ht1 Hb1 HD Hd2 Ht2 Hb2 HD' Hext Hleaf Hw Hne Hstroke Hlt.
  eexists. eexists.
  split; [apply (_transformMeasurements_succeeds s1 d1 svgTag1 bbox D);
          assumption|].
  split; [apply (_transformMeasurements_succeeds s2 d2 svgTag2 bbox D');
          assumption|].
  cbn zeta. cbn [this]. unfold measured. cbn zeta.
  cbn [_measurements set_measurements Num.width Num.height].
  rewrite (largest_after_extension D D' e w Hext Hleaf Hw Hne Hstroke Hlt).
  repeat split.
Qed.

End Runs.

(** ** The methods on the examples *)

Ltac float_neq v :=
  let H := fresh in
  intro H; apply (f_equal (fun u => PrimFloat.eqb u v)) in H;
  vm_compute in H; discriminate H.

(** The two rejected strings of the specification, with the parser of the
    examples. *)
Lemma load_rejects_non_svg_witness :
  fst (Sample.load Sample.getBBox "<notsvg/>" Sample.freshStore)
  = inl InvalidDocument
  /\ fst (Sample.load Sample.getBBox "not xml at all <<<" Sample.freshStore)
     = inl InvalidDocument.
Proof.
  split.
  - apply (proj1 (proj2 (load_rejects_non_svg
                           Sample.parseFromString Sample.serializeToString
                           Sample.convertFonts Sample.inlineSvgFonts
                           Sample.getBBox Sample.Number Sample.ToString
                           "<notsvg/>" Sample.freshStore))).
    reflexivity.
  - apply (proj2 (proj2 (load_rejects_non_svg
                           Sample.parseFromString Sample.serializeToString
                           Sample.convertFonts Sample.inlineSvgFonts
                           Sample.getBBox Sample.Number Sample.ToString
                           "<notsvg/>" Sample.freshStore))).
    exists (Element "parsererror" [] [Text "XML Parsing Error"]).
    split; [reflexivity|discriminate].
Defined.

(** A rejected load after the greeting: its measurements stay, and the
    rejected document is the current one.  A load whose measurement throws,
    after the greeting: its measurements stay, and the document of the
    failed load is left without its root. *)
Lemma failed_load_keeps_measurements_witness :
  (Sample.load Sample.getBBox "<notsvg/>" Sample.loaded
   = (inl InvalidDocument,
      snd (Sample.load Sample.getBBox "<notsvg/>" Sample.loaded))
   /\ _measurements
        (this (snd (Sample.load Sample.getBBox "<notsvg/>" Sample.loaded)))
      = _measurements (this Sample.loaded)
   /\ _svgDom (this (snd (Sample.load Sample.getBBox "<notsvg/>" Sample.loaded)))
      = Some (Sample.parseFromString "<notsvg/>"))
  /\ (_measurements
        (this (snd (Sample.load Sample.getBBox "<svg/>" Sample.loaded)))
      = _measurements (this Sample.loaded)
      /\ leftByFailedLoad Sample.parseFromString Sample.serializeToString
                          Sample.convertFonts Sample.getBBox "<svg/>"
                          MeasurementFailure (mkDocument [])
      /\ _svgDom (this (snd (Sample.load Sample.getBBox "<svg/>" Sample.loaded)))
         = Some (mkDocument [])).
Proof.
  split.
  - split; [reflexivity|].
    destruct (failed_load_keeps_measurements
                Sample.parseFromString Sample.serializeToString
                Sample.convertFonts Sample.inlineSvgFonts
                Sample.getBBox Sample.Number Sample.ToString
                "<notsvg/>" Sample.loaded
                (snd (Sample.load Sample.getBBox "<notsvg/>" Sample.loaded))
                InvalidDocument eq_refl) as (Hm & _ & Hd).
    split; [exact Hm|exact (Hd eq_refl)].
  - destruct (failed_load_keeps_measurements
                Sample.parseFromString Sample.serializeToString
                Sample.convertFonts Sample.inlineSvgFonts
                Sample.getBBox Sample.Number Sample.ToString
                "<svg/>" Sample.loaded
                (snd (Sample.load Sample.getBBox "<svg/>" Sample.loaded))
                MeasurementFailure eq_refl) as (Hm & (d & Hleft & Hd) & _).
    assert (E : Some d = Some (mkDocument [])) by (rewrite <- Hd; reflexivity).
    injection E as ->.
    split; [exact Hm|]. split; [exact Hleft|exact Hd].
Defined.

(** C2 as it is written fails: a load that is rejected at line 78 has
    already put the rejected document in place of the one loaded before, and
    a load whose measurement throws leaves a document that has been through
    the text quirks and has lost its root element to the page. *)
Lemma failed_load_counterexample :
  (fst (Sample.load Sample.getBBox "<notsvg/>" Sample.loaded)
   = inl InvalidDocument
   /\ _svgDom (this (snd (Sample.load Sample.getBBox "<notsvg/>" Sample.loaded)))
      = Some Sample.notsvg
   /\ _svgDom (this (snd (Sample.load Sample.getBBox "<notsvg/>" Sample.loaded)))
      <> _svgDom (this Sample.loaded))
  /\ (fst (Sample.load Sample.getBBox "<svg/>" Sample.loaded)
      = inl MeasurementFailure
      /\ _svgDom (this (snd (Sample.load Sample.getBBox "<svg/>" Sample.loaded)))
         = Some (mkDocument [])
      /\ _svgDom (this (snd (Sample.load Sample.getBBox "<svg/>" Sample.loaded)))
         <> _svgDom (this Sample.loaded)).
Proof.
  repeat split; try reflexivity; vm_compute; discriminate.
Qed.

(** A failed load after the greeting was drawn: the cache is empty, and
    the document is the one the parser gave for the string. *)
Lemma load_invalidates_cached_image_witness :
  _cachedImage (this Sample.drawn) = Some 1%nat
  /\ _cachedImage
       (this (snd (Sample.load Sample.getBBox "not xml at all <<<"
                               Sample.drawn)))
     = None
  /\ _svgDom
       (this (snd (Sample.load Sample.getBBox "not xml at all <<<"
                               Sample.drawn)))
     = Some Sample.parsererror.
Proof.
  split; [reflexivity|].
  destruct (load_invalidates_cached_image
              Sample.parseFromString Sample.serializeToString
              Sample.convertFonts Sample.inlineSvgFonts
              Sample.getBBox Sample.Number Sample.ToString
              "not xml at all <<<" Sample.drawn
              (snd (Sample.load Sample.getBBox "not xml at all <<<"
                                Sample.drawn))
              (inl InvalidDocument) eq_refl) as (Hcache & Hfail).
  destruct (Hfail InvalidDocument eq_refl) as (_ & Hinv).
  split; [exact Hcache|exact (Hinv eq_refl)].
Defined.

(** C10 as it is written fails in its last part: the failed load has
    emptied the cache, and it has also replaced the document loaded
    before. *)
Lemma load_invalidates_counterexample :
  fst (Sample.load Sample.getBBox "not xml at all <<<" Sample.drawn)
  = inl InvalidDocument
  /\ _cachedImage
       (this (snd (Sample.load Sample.getBBox "not xml at all <<<"
                               Sample.drawn)))
     = None
  /\ _svgDom
       (this (snd (Sample.load Sample.getBBox "not xml at all <<<"
                               Sample.drawn)))
     = Some Sample.parsererror
  /\ _svgDom
       (this (snd (Sample.load Sample.getBBox "not xml at all <<<"
                               Sample.drawn)))
     <> _svgDom (this Sample.drawn).
Proof.
  repeat split; try reflexivity; vm_compute; discriminate.
Qed.

(** The page when the oracle throws: as it was. *)
Lemma attachment_released_witness :
  fst (Sample.transformMeasurementsWith Sample.noBBox
         (Sample.parsedStore Sample.greeting))
  = inl MeasurementFailure
  /\ body (document (snd (Sample.transformMeasurementsWith Sample.noBBox
                            (Sample.parsedStore Sample.greeting))))
     = [(0%nat, Element "div" [] [])].
Proof.
  split; [reflexivity|].
  refine (proj1 (attachment_released
                   Sample.parseFromString Sample.serializeToString
                   Sample.inlineSvgFonts Sample.noBBox Sample.Number
                   Sample.ToString
                   (Sample.parsedStore Sample.greeting)
                   (snd (Sample.transformMeasurementsWith Sample.noBBox
                           (Sample.parsedStore Sample.greeting)))
                   (inl MeasurementFailure) _ eq_refl)).
  repeat constructor.
Defined.

(** The same page when the oracle answers. *)
Example attachment_released_on_success :
  fst (Sample.transformMeasurementsWith Sample.getBBox
         (Sample.parsedStore Sample.greeting))
  = inr tt
  /\ body (document (snd (Sample.transformMeasurementsWith Sample.getBBox
                            (Sample.parsedStore Sample.greeting))))
     = [(0%nat, Element "div" [] [])].
Proof. split; reflexivity. Qed.

(** The greeting, measured. *)
Lemma measurement_formula_witness :
  exists (svgTag : node) (bbox : Rect) (d : Document) (root : node),
    svgTagNode (this (Sample.parsedStore Sample.greeting)) = Some svgTag
    /\ Sample.getBBox svgTag = Some bbox
    /\ _svgDom (this (Sample.parsedStore Sample.greeting)) = Some d
    /\ documentElement (Sample.parseFromString (Sample.serializeToString d))
       = Some root
    /\ let h := _findLargestStrokeWidth Sample.Number root / 2 in
       let width := Num.width bbox + (h * 2) in
       let height := Num.height bbox + (h * 2) in
       let x := Num.x bbox - h in
       let y := Num.y bbox - h in
       _measurements
         (this (snd (Sample.transformMeasurementsWith Sample.getBBox
                       (Sample.parsedStore Sample.greeting))))
       = mkRect x y width height
       /\ exists root' : node,
           svgTagNode
             (this (snd (Sample.transformMeasurementsWith Sample.getBBox
                           (Sample.parsedStore Sample.greeting))))
           = Some root'
           /\ getAttribute "width" root' = Some (Sample.ToString width)
           /\ getAttribute "height" root' = Some (Sample.ToString height)
           /\ getAttribute "viewBox" root'
              = Some (Sample.ToString x ++ " " ++ Sample.ToString y ++ " " ++
                      Sample.ToString width ++ " " ++ Sample.ToString height)%string.
Proof.
  exact (measurement_formula
           Sample.parseFromString Sample.serializeToString
           Sample.inlineSvgFonts Sample.getBBox Sample.Number Sample.ToString
           (Sample.parsedStore Sample.greeting)
           (snd (Sample.transformMeasurementsWith Sample.getBBox
                   (Sample.parsedStore Sample.greeting)))
           eq_refl).
Defined.

(** The greeting of the specification, measured: a stroke with no width
    counts for 1, so the box of 10 by 20 grows by a half on every side. *)
Example greeting_measured :
  fst (Sample.measureWith Sample.getBBox
         (Sample.serializeToString Sample.greeting) Sample.freshStore)
  = inr (mkRect (-0.5) (-0.5) 11 21)
  /\ option_map (getAttribute "viewBox")
       (svgTagNode (this Sample.loaded))
     = Some (Some "-0.5 -0.5 11 21"%string).
Proof. split; reflexivity. Qed.

(** A stroke of 3 added to a drawing with a stroke of 1, in a box of 10 by
    20. *)
Lemma stroke_width_extension_witness :
  exists s1' s2' : Store,
    Sample.transformMeasurementsWith Sample.getBBox
      (Sample.parsedStore Sample.oneStroke) = (inr tt, s1')
    /\ Sample.transformMeasurementsWith Sample.getBBox
         (Sample.parsedStore Sample.twoStrokes) = (inr tt, s2')
    /\ Num.width (_measurements (this s1')) = 10 + 1 / 2 * 2
    /\ Num.height (_measurements (this s1')) = 20 + 1 / 2 * 2
    /\ Num.width (_measurements (this s2')) = 10 + 3 / 2 * 2
    /\ Num.height (_measurements (this s2')) = 20 + 3 / 2 * 2.
Proof.
  refine (stroke_width_extension
            Sample.parseFromString Sample.serializeToString
            Sample.inlineSvgFonts Sample.getBBox Sample.Number Sample.ToString
            (Sample.parsedStore Sample.oneStroke)
            (Sample.parsedStore Sample.twoStrokes)
            Sample.oneStroke Sample.twoStrokes
            (Element "svg" [] [Element "rect" [("stroke-width", "1")] []])
            (Element "svg" []
                     [Element "rect" [("stroke-width", "1")] [];
                      Element "rect" [("stroke-width", "3")] []])
            (Element "svg" [] [Element "rect" [("stroke-width", "1")] []])
            (Element "svg" []
                     [Element "rect" [("stroke-width", "1")] [];
                      Element "rect" [("stroke-width", "3")] []])
            (Element "rect" [("stroke-width", "3")] [])
            "3" (mkRect 0 0 10 20)
            eq_refl eq_refl eq_refl eq_refl eq_refl eq_refl eq_refl eq_refl
            (extended_here _ "svg" []
                           [Element "rect" [("stroke-width", "1")] []] [])
            eq_refl eq_refl _ (or_introl eq_refl) eq_refl).
  discriminate.
Defined.

(** C9 as it is written fails.  With a bounding box of 2^53 units, a largest
    stroke width of 1 and one more element of stroke width 3, the width goes
    from 2^53 to 2^53 + 4, by 4 and not by [2 * (3/2 - 1/2) = 2]: the sums
    are rounded.  And one more element with a [stroke] and a [stroke-width]
    of a half widens a drawing without strokes by 1, not by a half. *)
Lemma stroke_width_extension_counterexample :
  (_findLargestStrokeWidth Sample.Number
     (Element "svg" [] [Element "rect" [("stroke-width", "1")] []]) = 1
   /\ exists m1 m2 : Rect,
       fst (Sample.measureWith Sample.hugeBBox
              (Sample.serializeToString Sample.oneStroke) Sample.freshStore)
       = inr m1
       /\ fst (Sample.measureWith Sample.hugeBBox
                 (Sample.serializeToString Sample.twoStrokes) Sample.freshStore)
          = inr m2
       /\ Num.width m1 = 9007199254740992
       /\ Num.width m2 = 9007199254740996
       /\ Num.width m2 - Num.width m1 <> 2 * (3 / 2 - 1 / 2)
       /\ Num.width m2 <> Num.width m1 + 2 * (3 / 2 - 1 / 2)
       /\ Num.height m2 - Num.height m1 <> 2 * (3 / 2 - 1 / 2))
  /\ (_findLargestStrokeWidth Sample.Number
        (Element "svg" [] [Element "rect" [] []]) = 0
      /\ exists m1 m2 : Rect,
          fst (Sample.measureWith Sample.getBBox
                 (Sample.serializeToString Sample.plainShape) Sample.freshStore)
          = inr m1
          /\ fst (Sample.measureWith Sample.getBBox
                    (Sample.serializeToString Sample.plainAndThin)
                    Sample.freshStore)
             = inr m2
          /\ Num.width m1 = 10
          /\ Num.width m2 = 11
          /\ Num.width m2 - Num.width m1 <> 2 * (0.5 / 2 - 0 / 2)).
Proof.
  split; (split; [reflexivity|]); eexists; eexists;
    (split; [reflexivity|]); (split; [reflexivity|]);
    cbn [Num.width Num.height]; repeat split;
    try reflexivity.
  - float_neq 2.
  - float_neq 9007199254740996.
  - float_neq 2.
  - float_neq 0.5.
Qed.

End RendererFacts.


(* ================================================================== *)
(** * More on the text quirks *)
(* ================================================================== *)

Module TextMore.

(** ** The collector *)

Lemma In_collectChildren p : forall kids j,
  In p (collectChildren j kids)
  <-> exists i p' k,
        p = (j + i) :: p' /\ nth_error kids i = Some k
        /\ In p' (collectText k).
Proof.
  induction kids as [|k kids IH]; intros j; cbn [collectChildren].
  - split; [contradiction|]. intros (i & p' & k & _ & H & _).
    destruct i; discriminate.
  - rewrite in_app_iff, in_map_iff, IH. split.
    + intros [(p' & <- & Hin)|(i & p' & k' & -> & Hnth & Hin)].
      * exists 0, p', k. rewrite Nat.add_0_r. auto.
      * exists (S i), p', k'. rewrite Nat.add_succ_r. auto.
    + intros (i & p' & k' & -> & Hnth & Hin). destruct i as [|i].
      * left. cbn in Hnth. inversion Hnth; subst. exists p'.
        rewrite Nat.add_0_r. auto.
      * right. exists i, p', k'. rewrite Nat.add_succ_r. auto.
Qed.

Lemma In_collectText t : forall p,
  In p (collectText t)
  <-> exists e, lookupAt p t = Some e /\ isTextTag e = true.
Proof.
  induction t as [tag a kids IH| |] using node_ind'; intros p.
  2,3: (split; [contradiction|]; intros (e & Hl & He);
        destruct p as [|i p]; cbn in Hl;
        [inversion Hl; subst; discriminate|destruct i; discriminate]).
  rewrite collectText_Element, in_app_iff, In_collectChildren.
  rewrite Forall_forall in IH. split.
  - intros [Hroot|(i & p' & k & -> & Hnth & Hin)].
    + destruct (String.eqb tag "text") eqn:E; [|contradiction].
      destruct Hroot as [<-|[]]. eexists. split; [reflexivity|].
      cbn. exact E.
    + apply (IH k (nth_error_In _ _ Hnth)) in Hin.
      destruct Hin as (e & Hl & He). exists e. split; auto.
      cbn [lookupAt childNodes Nat.add]. now rewrite Hnth.
  - intros (e & Hl & He). destruct p as [|i p'].
    + left. cbn in Hl. inversion Hl; subst. cbn in He. rewrite He.
      now left.
    + right. cbn [lookupAt childNodes] in Hl.
      destruct (nth_error kids i) as [k|] eqn:Hnth; [|discriminate].
      exists i, p', k. repeat split; auto.
      apply (IH k (nth_error_In _ _ Hnth)). eauto.
Qed.

(** X1. [collectText] finds the text elements and nothing else: a reference
    is collected exactly when it leads, from the root down, to an element
    whose tag is [text]. *)
Theorem collectText_exact (svgTag : node) (p : path) :
  In p (collectText svgTag)
  <-> exists textElement,
        lookupAt p svgTag = Some textElement
        /\ localName textElement = Some "text".
Proof.
  rewrite In_collectText. split; intros (e & Hl & He); exists e; split; auto.
  - unfold isTextTag in He. destruct (localName e) as [name|]; [|discriminate].
    apply String.eqb_eq in He. now subst.
  - unfold isTextTag. now rewrite He.
Qed.

(** ** What the pass makes of an element of the tree *)

Lemma quirkAttrs_other name a :
  ~ In name quirkNames -> getAttr name (quirkAttrs a) = getAttr name a.
Proof.
  intros Hn.
  assert (Hne : forall q, In q quirkNames -> String.eqb q name = false).
  { intros q Hq. destruct (String.eqb_spec q name); auto. now subst. }
  pose proof (Hne "x" ltac:(cbn; tauto)) as Hx.
  pose proof (Hne "y" ltac:(cbn; tauto)) as Hy.
  pose proof (Hne "alignment-baseline" ltac:(cbn; tauto)) as Hab.
  pose proof (Hne "font-size" ltac:(cbn; tauto)) as Hfs.
  pose proof (Hne "font-family" ltac:(cbn; tauto)) as Hff.
  unfold quirkAttrs.
  repeat match goal with
         | |- context [if ?c then _ else _] => destruct c
         end;
    now rewrite ?(getAttr_setAttr_other name _ _ _ Hff),
      ?(getAttr_setAttr_other name _ _ _ Hfs),
      ?(getAttr_setAttr_other name _ _ _ Hab),
      ?(getAttr_removeAttr_other name _ _ Hy),
      ?(getAttr_removeAttr_other name _ _ Hx).
Qed.

Lemma quirkAttrs_default_fontSize a :
  truthy_attr (getAttr "font-size" a) = false ->
  getAttr "font-size" (quirkAttrs a) = Some "14".
Proof.
  intros H. unfold quirkAttrs.
  set (a3 := setAttr "alignment-baseline" "text-before-edge" _).
  assert (H3 : getAttr "font-size" a3 = getAttr "font-size" a)
    by (subst a3; now attr_simpl).
  rewrite H3, H. cbn [negb].
  destruct (negb (truthy_attr (getAttr "font-family" _))); now attr_simpl.
Qed.

Lemma quirkAttrs_default_fontFamily a :
  truthy_attr (getAttr "font-family" a) = false ->
  getAttr "font-family" (quirkAttrs a) = Some "Helvetica".
Proof.
  intros H. unfold quirkAttrs.
  match goal with
  | |- context [negb (truthy_attr (getAttr "font-family" ?b))] =>
      assert (Hb : getAttr "font-family" b = getAttr "font-family" a)
  end.
  { destruct (negb (truthy_attr (getAttr "font-size" _))); now attr_simpl. }
  rewrite Hb, H. cbn [negb]. now attr_simpl.
Qed.

(** A text element of the tree, after the pass. *)
Lemma lookupAt_text p t a kids :
  lookupAt p t = Some (Element "text" a kids) ->
  lookupAt p (transformTextElements t)
  = Some (Element "text" (quirkAttrs a)
            (if (childElementCount (Element "text" a kids) =? 0)%nat
             then if truthy_string (textContent (Element "text" a kids))
                  then map tspanNode
                           (split_LF (textContent (Element "text" a kids)))
                  else kids
             else map transformTextElements kids)).
Proof.
  intros Hl. rewrite transformTextElements_quirksRec.
  rewrite (lookupAt_quirksRec p t _ Hl eq_refl).
  cbn [quirksRec String.eqb Ascii.eqb Bool.eqb].
  rewrite applyQuirks_Element. cbn [attributes].
  destruct (childElementCount (Element "text" a kids) =? 0)%nat.
  - now rewrite andb_true_r.
  - do 2 f_equal. apply map_ext. intros k.
    now rewrite transformTextElements_quirksRec.
Qed.

(** X2. Every text element of the tree comes out of the pass in its place,
    still a text element, with no [x] and no [y], with
    [alignment-baseline = "text-before-edge"], and with a [font-size] and a
    [font-family] that are not empty. *)
Theorem text_element_normalized (svgTag : node) (p : path) (a : attrs)
        (kids : list node) :
  lookupAt p svgTag = Some (Element "text" a kids) ->
  exists textElement,
    lookupAt p (transformTextElements svgTag) = Some textElement
    /\ localName textElement = Some "text"
    /\ getAttribute "x" textElement = None
    /\ getAttribute "y" textElement = None
    /\ getAttribute "alignment-baseline" textElement
       = Some "text-before-edge"
    /\ truthy_attr (getAttribute "font-size" textElement) = true
    /\ truthy_attr (getAttribute "font-family" textElement) = true.
Proof.
  intros Hl. eexists. split; [apply (lookupAt_text p svgTag a kids Hl)|].
  unfold getAttribute. cbn [attributes localName].
  repeat split; auto using quirkAttrs_x, quirkAttrs_y, quirkAttrs_alignment,
    quirkAttrs_fontSize_truthy, quirkAttrs_fontFamily_truthy.
Qed.

(** The text of the poem, under the group. *)
Lemma text_element_normalized_witness :
  exists textElement,
    lookupAt [0; 1] (transformTextElements Sample.poem) = Some textElement
    /\ localName textElement = Some "text"
    /\ getAttribute "x" textElement = None
    /\ getAttribute "y" textElement = None
    /\ getAttribute "alignment-baseline" textElement
       = Some "text-before-edge"
    /\ truthy_attr (getAttribute "font-size" textElement) = true
    /\ truthy_attr (getAttribute "font-family" textElement) = true.
Proof.
  exact (text_element_normalized Sample.poem [0; 1] _ _ eq_refl).
Defined.

(** X3. A text element whose [font-size] is missing or empty gets the size
    ["14"], and one whose [font-family] is missing or empty gets
    ["Helvetica"]. *)
Theorem text_defaults (svgTag : node) (p : path) (a : attrs)
        (kids : list node) :
  lookupAt p svgTag = Some (Element "text" a kids) ->
  exists textElement,
    lookupAt p (transformTextElements svgTag) = Some textElement
    /\ (truthy_attr (getAttribute "font-size" (Element "text" a kids)) = false
        -> getAttribute "font-size" textElement = Some "14")
    /\ (truthy_attr (getAttribute "font-family" (Element "text" a kids)) = false
        -> getAttribute "font-family" textElement = Some "Helvetica").
Proof.
  intros Hl. eexists. split; [apply (lookupAt_text p svgTag a kids Hl)|].
  unfold getAttribute. cbn [attributes].
  split; auto using quirkAttrs_default_fontSize, quirkAttrs_default_fontFamily.
Qed.

(** A text whose [font-size] is empty and whose [font-family] is missing. *)
Lemma text_defaults_witness :
  exists textElement,
    lookupAt [0] (transformTextElements Sample.emptyFontSize)
    = Some textElement
    /\ getAttribute "font-size" textElement = Some "14"
    /\ getAttribute "font-family" textElement = Some "Helvetica".
Proof.
  destruct (text_defaults Sample.emptyFontSize [0] _ _ eq_refl)
    as (textElement & Hl & Hs & Hf).
  exists textElement. split; [exact Hl|].
  split; [apply Hs|apply Hf]; reflexivity.
Defined.

(** X4. The pass changes no attribute of a text element but the five it is
    about: every other attribute, [stroke] or [fill] say, has the value it
    had, or is missing as it was. *)
Theorem text_other_attributes_kept (svgTag : node) (p : path) (a : attrs)
        (kids : list node) (name : string) :
  lookupAt p svgTag = Some (Element "text" a kids) ->
  ~ In name quirkNames ->
  exists textElement,
    lookupAt p (transformTextElements svgTag) = Some textElement
    /\ getAttribute name textElement
       = getAttribute name (Element "text" a kids).
Proof.
  intros Hl Hn. eexists. split; [apply (lookupAt_text p svgTag a kids Hl)|].
  unfold getAttribute. cbn [attributes]. now apply quirkAttrs_other.
Qed.

(** The [stroke] of a text stays. *)
Lemma text_other_attributes_kept_witness :
  exists textElement,
    lookupAt [0] (transformTextElements Examples.strokedText)
    = Some textElement
    /\ getAttribute "stroke" textElement = Some "red".
Proof.
  refine (text_other_attributes_kept Examples.strokedText [0] _ _ "stroke"
            eq_refl _).
  cbn. intuition discriminate.
Defined.

(** X5. An element of the tree that is no text element comes out of the
    text pass of lines 96-138 in its place with its tag, with all its
    attributes in their order, and with each of its children passed through
    the pass: the pass adds, removes and moves no child of it. *)
Theorem other_elements_untouched (svgTag : node) (p : path) (tag : string)
        (a : attrs) (kids : list node) :
  lookupAt p svgTag = Some (Element tag a kids) ->
  tag <> "text" ->
  lookupAt p (transformTextElements svgTag)
  = Some (Element tag a (map transformTextElements kids)).
Proof.
  intros Hl Htag. rewrite transformTextElements_quirksRec.
  rewrite (lookupAt_quirksRec p svgTag _ Hl eq_refl). cbn [quirksRec].
  destruct (String.eqb_spec tag "text") as [E|_]; [contradiction|].
  do 2 f_equal. apply map_ext. intros k.
  now rewrite transformTextElements_quirksRec.
Qed.

(** The group of the poem. *)
Lemma other_elements_untouched_witness :
  lookupAt [0] (transformTextElements Sample.poem)
  = Some (Element "g" []
            (map transformTextElements [Comment "title"; Sample.poemText])).
Proof.
  refine (other_elements_untouched Sample.poem [0] "g" [] _ eq_refl _).
  discriminate.
Defined.

(** X6. A text element that has a child element is not split into lines: it
    keeps its children, each passed through the pass, whatever line feeds
    its text has. *)
Theorem text_with_children_not_split (svgTag : node) (p : path) (a : attrs)
        (kids : list node) :
  lookupAt p svgTag = Some (Element "text" a kids) ->
  childElementCount (Element "text" a kids) <> 0 ->
  lookupAt p (transformTextElements svgTag)
  = Some (Element "text" (quirkAttrs a) (map transformTextElements kids)).
Proof.
  intros Hl Hc. rewrite (lookupAt_text p svgTag a kids Hl).
  apply Nat.eqb_neq in Hc. now rewrite Hc.
Qed.

(** A text with a [tspan] that holds a line feed. *)
Lemma text_with_children_not_split_witness :
  lookupAt [0] (transformTextElements Examples.spannedText)
  = Some (Element "text"
            [("alignment-baseline", "text-before-edge"); ("font-size", "14");
             ("font-family", "Helvetica")]
            [Element "tspan" [] [Text (String "a" (String LF "b"))]]).
Proof.
  refine (text_with_children_not_split Examples.spannedText [0] _ _ eq_refl _).
  discriminate.
Defined.

(** X7. A text element with no child element and no text gets no line node:
    only its attributes change. *)
Theorem empty_text_no_lines (svgTag : node) (p : path) (a : attrs)
        (kids : list node) :
  lookupAt p svgTag = Some (Element "text" a kids) ->
  childElementCount (Element "text" a kids) = 0 ->
  textContent (Element "text" a kids) = "" ->
  lookupAt p (transformTextElements svgTag)
  = Some (Element "text" (quirkAttrs a) kids).
Proof.
  intros Hl Hc Ht. rewrite (lookupAt_text p svgTag a kids Hl).
  now rewrite Hc, Ht.
Qed.

(** A text that holds a comment only. *)
Lemma empty_text_no_lines_witness :
  lookupAt [0] (transformTextElements Examples.emptyText)
  = Some (Element "text"
            [("fill", "red"); ("alignment-baseline", "text-before-edge");
             ("font-size", "14"); ("font-family", "Helvetica")]
            [Comment "nothing"]).
Proof.
  exact (empty_text_no_lines Examples.emptyText [0] _ _ eq_refl eq_refl
           eq_refl).
Defined.

(** ** The lines *)

Lemma length_split_LF s : List.length (split_LF s) = S (countLF s).
Proof.
  induction s as [|c s IH]; cbn [split_LF countLF]; auto.
  destruct (isLF c); cbn [List.length Nat.add].
  - now rewrite IH.
  - destruct (split_LF s) as [|l ls]; [discriminate|exact IH].
Qed.

Lemma split_LF_no_LF s : Forall (fun line => countLF line = 0) (split_LF s).
Proof.
  induction s as [|c s IH]; cbn [split_LF].
  - now constructor.
  - destruct (isLF c) eqn:Ec.
    + now constructor.
    + destruct (split_LF s) as [|l ls].
      * constructor; auto. cbn. now rewrite Ec.
      * inversion IH; subst. constructor; auto. cbn. now rewrite Ec.
Qed.

Lemma textContent_tspanNode line : textContent (tspanNode line) = line.
Proof.
  unfold tspanNode, createSVGElement. cbn [setAttribute setAttr setTextContent].
  destruct (String.eqb_spec line "") as [->|_]; [reflexivity|].
  cbn [textContent]. apply append_empty_r.
Qed.

Lemma textContent_tspans tag a lines :
  textContent (Element tag a (map tspanNode lines))
  = String.concat EmptyString lines.
Proof.
  cbn [textContent]. induction lines as [|l lines IH]; [reflexivity|].
  cbn [map]. rewrite IH.
  change (match tspanNode l with
          | Comment _ => EmptyString
          | _ => textContent (tspanNode l)
          end) with (textContent (tspanNode l)).
  rewrite textContent_tspanNode.
  destruct lines as [|l' lines]; cbn [String.concat map].
  - apply append_empty_r.
  - reflexivity.
Qed.

Lemma concat_split_LF s : String.concat EmptyString (split_LF s) = removeLF s.
Proof.
  induction s as [|c s IH]; cbn [split_LF removeLF]; auto.
  pose proof (split_LF_not_nil s) as Hne.
  destruct (split_LF s) as [|l ls]; [contradiction|].
  destruct (isLF c).
  - exact IH.
  - rewrite <- IH. destruct ls; reflexivity.
Qed.

(** X8. When a text element is split, it gets one line node more than its
    text has line feeds, no line node has a line feed in its text, and the
    text of the element is then its old text without the line feeds: no
    other character is lost or added. *)
Theorem split_lines_counted (svgTag : node) (p : path) (a : attrs)
        (kids : list node) (text : string) :
  lookupAt p svgTag = Some (Element "text" a kids) ->
  childElementCount (Element "text" a kids) = 0 ->
  textContent (Element "text" a kids) = text ->
  text <> "" ->
  exists textElement,
    lookupAt p (transformTextElements svgTag) = Some textElement
    /\ List.length (childNodes textElement) = S (countLF text)
    /\ childElementCount textElement = S (countLF text)
    /\ Forall (fun lineNode => countLF (textContent lineNode) = 0)
              (childNodes textElement)
    /\ textContent textElement = removeLF text.
Proof.
  intros Hl Hc Ht Hne. eexists.
  split; [apply (lookupAt_text p svgTag a kids Hl)|].
  rewrite Hc, Ht, (truthy_string_neq _ Hne). cbn [Nat.eqb childNodes].
  repeat split.
  - now rewrite length_map, length_split_LF.
  - now rewrite childElementCount_tspans, length_split_LF.
  - apply Forall_map. eapply Forall_impl; [|apply split_LF_no_LF].
    intros line Hline. now rewrite textContent_tspanNode.
  - now rewrite textContent_tspans, concat_split_LF.
Qed.

(** The three lines of the poem. *)
Lemma split_lines_counted_witness :
  exists textElement,
    lookupAt [0; 1] (transformTextElements Sample.poem) = Some textElement
    /\ List.length (childNodes textElement) = 3
    /\ childElementCount textElement = 3
    /\ Forall (fun lineNode => countLF (textContent lineNode) = 0)
              (childNodes textElement)
    /\ textContent textElement = "abc".
Proof.
  refine (split_lines_counted Sample.poem [0; 1] _ _
            (String "a" (String LF (String "b" (String LF "c"))))
            eq_refl eq_refl eq_refl _).
  discriminate.
Defined.

End TextMore.
Import TextMore.

(* ================================================================== *)
(** * More on the largest stroke width *)
(* ================================================================== *)

Module StrokeMore.

Local Open Scope float_scope.

Lemma nonneg_leb v : nonneg v -> (0 <=? v) = true.
Proof.
  intros H. rewrite leb_negb_ltb by auto using nonneg_not_nan.
  now rewrite nonneg_ltb_zero.
Qed.

(** X9. Whatever the attributes say and whatever [Number] makes of them,
    the largest stroke width is a number, not [NaN], and it is not below
    zero: a [stroke-width] that is no number does no harm. *)
Theorem largest_stroke_width_nonneg (Number : string -> float)
        (rootNode : node) :
  is_nan (_findLargestStrokeWidth Number rootNode) = false
  /\ (0 <=? _findLargestStrokeWidth Number rootNode) = true.
Proof.
  rewrite _findLargestStrokeWidth_maxContribution.
  pose proof (maxContribution_nonneg Number rootNode) as H.
  split; auto using nonneg_not_nan, nonneg_leb.
Qed.

Lemma contribution_In_leb Number rootNode e :
  In e (elements rootNode) ->
  (contribution Number e <=? maxContribution Number rootNode) = true.
Proof.
  intros Hin.
  destruct (maxOf_is_maximum _ (contributions_nonneg Number (elements rootNode)))
    as [_ Hall].
  inversion Hall as [|? ? _ Hrest]; subst.
  rewrite Forall_forall in Hrest. apply Hrest. now apply in_map.
Qed.

(** X10. The largest stroke width is at least what any element of the tree
    asks for: at least 1 when some element has a non-empty [stroke], and at
    least the number of every non-empty [stroke-width] that is a number
    above zero. *)
Theorem largest_stroke_width_bounds (Number : string -> float)
        (rootNode e : node) :
  In e (elements rootNode) ->
  (truthy_attr (getAttribute "stroke" e) = true ->
   (1 <=? _findLargestStrokeWidth Number rootNode) = true)
  /\ (forall w, getAttribute "stroke-width" e = Some w -> w <> "" ->
        (0 <? Number w) = true ->
        (Number w <=? _findLargestStrokeWidth Number rootNode) = true).
Proof.
  intros Hin. rewrite _findLargestStrokeWidth_maxContribution.
  pose proof (contribution_In_leb Number rootNode e Hin) as Hle.
  pose proof (strokePart_nonneg e) as Hs.
  pose proof (widthPart_nonneg Number e) as Hw.
  pose proof (maxContribution_nonneg Number rootNode) as Hm.
  split.
  - intros Hstroke.
    apply (leb_trans_nonneg 1 (contribution Number e));
      auto using nonneg_one, contribution_nonneg.
    unfold contribution.
    replace 1 with (strokePart e) at 1
      by (unfold strokePart; now rewrite Hstroke).
    now apply leb_Math_max_l.
  - intros w Hget Hne Hpos.
    assert (E : widthPart Number e = Number w).
    { unfold widthPart. now rewrite Hget, (truthy_string_neq _ Hne), Hpos. }
    apply (leb_trans_nonneg _ (contribution Number e));
      auto using contribution_nonneg.
    + rewrite <- E. exact Hw.
    + unfold contribution. rewrite <- E. now apply leb_Math_max_r.
Qed.

(** A thin stroke beside a thick one: the result is at least 1 for the
    [stroke], and at least the half of the [stroke-width]. *)
Lemma largest_stroke_width_bounds_witness :
  (1 <=? _findLargestStrokeWidth Sample.Number Examples.strokes) = true
  /\ (Sample.Number "0.5"
      <=? _findLargestStrokeWidth Sample.Number Examples.strokes) = true.
Proof.
  destruct (largest_stroke_width_bounds Sample.Number Examples.strokes
              Examples.thinStroked (or_intror (or_introl eq_refl)))
    as (Hstroke & Hwidth).
  split; [apply Hstroke; reflexivity|].
  apply Hwidth; [reflexivity|discriminate|reflexivity].
Defined.

Lemma Math_max_either a b :
  nonneg a -> nonneg b -> Math_max a b = a \/ Math_max a b = b.
Proof.
  intros Ha Hb. rewrite Math_max_nonneg by assumption.
  destruct (a <? b); auto.
Qed.

(** X11. The largest stroke width is a number the tree has: it is 0, or 1
    for an element of the tree with a non-empty [stroke], or the number of a
    non-empty [stroke-width] attribute of an element of the tree. *)
Theorem largest_stroke_width_attained (Number : string -> float)
        (rootNode : node) :
  _findLargestStrokeWidth Number rootNode = 0
  \/ (_findLargestStrokeWidth Number rootNode = 1
      /\ exists e, In e (elements rootNode)
                   /\ truthy_attr (getAttribute "stroke" e) = true)
  \/ (exists e w, In e (elements rootNode)
                  /\ getAttribute "stroke-width" e = Some w /\ w <> ""
                  /\ _findLargestStrokeWidth Number rootNode = Number w).
Proof.
  rewrite _findLargestStrokeWidth_maxContribution.
  destruct (maxOf_is_maximum _ (contributions_nonneg Number (elements rootNode)))
    as [[E|Hin] _]; [now left|].
  apply in_map_iff in Hin. destruct Hin as (e & He & Hin).
  fold (maxContribution Number rootNode) in He. rewrite <- He.
  unfold contribution.
  destruct (Math_max_either (strokePart e) (widthPart Number e)
              (strokePart_nonneg e) (widthPart_nonneg Number e)) as [E|E];
    rewrite E.
  - unfold strokePart.
    destruct (truthy_attr (getAttribute "stroke" e)) eqn:Hs; [|now left].
    right. left. eauto.
  - unfold widthPart.
    destruct (getAttribute "stroke-width" e) as [w|] eqn:Hw; [|now left].
    destruct (truthy_string w) eqn:Ht; cbn [andb]; [|now left].
    destruct (0 <? Number w); [|now left].
    right. right. exists e, w. repeat split; auto.
    intros ->. discriminate.
Qed.

Lemma maxOf_zeros l : Forall (fun v => v = 0) l -> maxOf l = 0.
Proof.
  induction 1 as [|v l Hv _ IH]; cbn [maxOf fold_right]; auto.
  fold (maxOf l). now rewrite Hv, IH.
Qed.

(** X12. A tree in which no element has a non-empty [stroke], nor a
    non-empty [stroke-width] that is a number above zero, has the largest
    stroke width 0: a [stroke-width] that is empty, negative, zero or no
    number counts for nothing. *)
Theorem largest_stroke_width_zero (Number : string -> float)
        (rootNode : node) :
  (forall e, In e (elements rootNode) ->
     truthy_attr (getAttribute "stroke" e) = false
     /\ forall w, getAttribute "stroke-width" e = Some w ->
          w = "" \/ (0 <? Number w) = false) ->
  _findLargestStrokeWidth Number rootNode = 0.
Proof.
  intros H. rewrite _findLargestStrokeWidth_maxContribution.
  apply maxOf_zeros, Forall_map, Forall_forall. intros e Hin.
  destruct (H e Hin) as [Hs Hw].
  unfold contribution, strokePart, widthPart. rewrite Hs.
  destruct (getAttribute "stroke-width" e) as [w|]; [|reflexivity].
  destruct (Hw w eq_refl) as [->|Hneg]; [reflexivity|].
  rewrite Hneg, andb_false_r. reflexivity.
Qed.

(** Widths that are negative, no number, or zero, and a [stroke] that is
    empty. *)
Lemma largest_stroke_width_zero_witness :
  _findLargestStrokeWidth Sample.Number Examples.noStrokes = 0.
Proof.
  apply (largest_stroke_width_zero Sample.Number Examples.noStrokes).
  intros e [<-|[<-|[<-|[]]]]; (split; [reflexivity|]);
    intros w [= <-]; right; reflexivity.
Defined.

(** X13. One more subtree, anywhere in the tree and whatever it holds, never
    makes the largest stroke width smaller. *)
Theorem largest_stroke_width_monotone (Number : string -> float)
        (e d d' : node) :
  extendedBy e d d' ->
  (_findLargestStrokeWidth Number d <=? _findLargestStrokeWidth Number d')
  = true.
Proof.
  intros Hext. rewrite !_findLargestStrokeWidth_maxContribution.
  rewrite (maxContribution_extendedBy Number e d d' Hext).
  apply leb_Math_max_l; apply maxContribution_nonneg.
Qed.

(** One more shape, after the one there is. *)
Lemma largest_stroke_width_monotone_witness :
  (_findLargestStrokeWidth Sample.Number
     (Element "svg" [] [Examples.thinStroked])
   <=? _findLargestStrokeWidth Sample.Number Examples.strokes) = true.
Proof.
  exact (largest_stroke_width_monotone Sample.Number
           (Element "rect" [("stroke-width", "3")] [])
           (Element "svg" [] [Examples.thinStroked]) Examples.strokes
           (extended_here _ "svg" [] [Examples.thinStroked] [])).
Defined.

(** ** What the result depends on *)

Lemma maxOf_Permutation l l' :
  Forall nonneg l -> Permutation l l' -> maxOf l = maxOf l'.
Proof.
  intros Hl Hp. induction Hp as [|v l l' Hp IH|u v l|l l' l'' Hp1 IH1 Hp2 IH2];
    cbn [maxOf fold_right]; auto.
  - inversion Hl; subst. fold (maxOf l) (maxOf l'). now rewrite IH.
  - inversion Hl as [|? ? Hv Hl']; subst. inversion Hl' as [|? ? Hu Hl'']; subst.
    fold (maxOf l). pose proof (maxOf_nonneg l Hl'') as Hm.
    rewrite <- !Math_max_assoc by assumption.
    now rewrite (Math_max_comm u v).
  - rewrite IH1 by assumption. apply IH2.
    eapply Permutation_Forall; eassumption.
Qed.

Lemma contribution_of_attributes Number e :
  contribution Number e = contribution Number (Element "" (attributes e) []).
Proof. destruct e; reflexivity. Qed.

(** X14. The largest stroke width depends on nothing but the attributes the
    elements of the tree have: two trees whose elements carry the same
    attribute lists, in whatever order and nesting and under whatever tags
    and with whatever text, have the same largest stroke width. *)
Theorem largest_stroke_width_order_free (Number : string -> float)
        (rootNode rootNode' : node) :
  Permutation (map attributes (elements rootNode))
              (map attributes (elements rootNode')) ->
  _findLargestStrokeWidth Number rootNode
  = _findLargestStrokeWidth Number rootNode'.
Proof.
  intros Hp. rewrite !_findLargestStrokeWidth_maxContribution.
  unfold maxContribution.
  rewrite (map_ext _ _ (contribution_of_attributes Number)).
  rewrite (map_ext _ _ (contribution_of_attributes Number) (elements rootNode')).
  rewrite <- !(map_map attributes
                 (fun a => contribution Number (Element "" a []))).
  apply maxOf_Permutation.
  - rewrite map_map. apply Forall_map, Forall_forall. intros e _.
    apply contribution_nonneg.
  - now apply Permutation_map.
Qed.

(** The same three attribute lists, flat under [svg] and nested under
    [g]. *)
Lemma largest_stroke_width_order_free_witness :
  _findLargestStrokeWidth Sample.Number Examples.strokes
  = _findLargestStrokeWidth Sample.Number Examples.nestedStrokes.
Proof.
  apply (largest_stroke_width_order_free Sample.Number Examples.strokes
           Examples.nestedStrokes).
  exact (perm_trans (perm_skip [] (perm_swap _ _ [])) (perm_swap _ _ _)).
Defined.

Lemma contribution_same_stroke Number e e' :
  getAttribute "stroke" e' = getAttribute "stroke" e ->
  getAttribute "stroke-width" e' = getAttribute "stroke-width" e ->
  contribution Number e' = contribution Number e.
Proof.
  intros H1 H2. unfold contribution, strokePart, widthPart.
  now rewrite H1, H2.
Qed.

Lemma elements_not_element k : isElement k = false -> elements k = [].
Proof. destruct k; [discriminate|reflexivity|reflexivity]. Qed.

Lemma flat_map_elements_none kids :
  Forall (fun k => isElement k = false) kids -> flat_map elements kids = [].
Proof.
  induction 1 as [|k kids Hk _ IH]; cbn [flat_map]; auto.
  now rewrite (elements_not_element k Hk), IH.
Qed.

Lemma tspans_contribute_nothing Number lines :
  maxOf (map (contribution Number) (flat_map elements (map tspanNode lines)))
  = 0.
Proof.
  apply maxOf_zeros, Forall_map, Forall_forall. intros e Hin.
  apply in_flat_map in Hin. destruct Hin as (n & Hn & He).
  apply in_map_iff in Hn. destruct Hn as (line & <- & _).
  unfold tspanNode, createSVGElement in He.
  cbn [setAttribute setAttr setTextContent] in He.
  destruct (String.eqb line ""); cbn in He;
    destruct He as [<-|[]]; reflexivity.
Qed.

Lemma maxContribution_children Number kids kids' :
  Forall2 (fun k k' => maxContribution Number k' = maxContribution Number k)
          kids kids' ->
  maxOf (map (contribution Number) (flat_map elements kids'))
  = maxOf (map (contribution Number) (flat_map elements kids)).
Proof.
  induction 1 as [|k k' kids kids' Hk _ IH]; cbn [flat_map]; auto.
  rewrite !maxOf_contributions_app, IH.
  fold (maxContribution Number k) (maxContribution Number k').
  now rewrite Hk.
Qed.

Lemma maxContribution_quirksRec Number n :
  maxContribution Number (quirksRec n) = maxContribution Number n.
Proof.
  induction n as [tag a kids IH| |] using node_ind'; try reflexivity.
  assert (Hkids : maxOf (map (contribution Number)
                           (flat_map elements (map quirksRec kids)))
                  = maxOf (map (contribution Number) (flat_map elements kids))).
  { apply maxContribution_children.
    induction IH as [|k kids Hk _ IHk]; cbn [map]; constructor; auto. }
  assert (Hattr : forall k k',
             contribution Number (Element tag (quirkAttrs a) k)
             = contribution Number (Element tag a k')).
  { intros k k'. apply contribution_same_stroke;
      unfold getAttribute; cbn [attributes]; apply quirkAttrs_other;
      cbn; intuition discriminate. }
  cbn [quirksRec]. destruct (String.eqb tag "text").
  - rewrite applyQuirks_Element. cbn [attributes].
    destruct (childElementCount (Element tag a kids) =? 0)%nat eqn:Ec.
    + rewrite andb_true_r. apply Nat.eqb_eq in Ec.
      rewrite (maxContribution_Element Number tag a kids).
      rewrite (flat_map_elements_none kids (no_child_element tag a kids Ec)).
      destruct (truthy_string _);
        rewrite maxContribution_Element, (Hattr _ kids).
      * now rewrite tspans_contribute_nothing.
      * now rewrite (flat_map_elements_none kids
                       (no_child_element tag a kids Ec)).
    + rewrite !maxContribution_Element, Hkids. f_equal. apply Hattr.
  - rewrite !maxContribution_Element, Hkids. reflexivity.
Qed.

(** X15. The text quirks do not change the largest stroke width: the tree
    that comes out of lines 96-138 has the one the tree had. *)
Theorem text_quirks_keep_stroke_width (Number : string -> float)
        (svgTag : node) :
  _findLargestStrokeWidth Number (transformTextElements svgTag)
  = _findLargestStrokeWidth Number svgTag.
Proof.
  rewrite !_findLargestStrokeWidth_maxContribution.
  rewrite transformTextElements_quirksRec. apply maxContribution_quirksRec.
Qed.

Lemma maxContribution_setAttribute Number name v rootNode :
  name <> "stroke" -> name <> "stroke-width" ->
  maxContribution Number (setAttribute name v rootNode)
  = maxContribution Number rootNode.
Proof.
  intros H1 H2. destruct rootNode as [tag a kids| |]; try reflexivity.
  cbn [setAttribute]. rewrite !maxContribution_Element. f_equal.
  apply contribution_same_stroke; unfold getAttribute; cbn [attributes];
    apply getAttr_setAttr_other;
    match goal with
    | |- String.eqb ?x ?y = false =>
        destruct (String.eqb_spec x y); [contradiction|reflexivity]
    end.
Qed.

(** X16. Setting an attribute other than [stroke] and [stroke-width] on the
    root, as lines 224-227 set [width], [height] and [viewBox], does not
    change the largest stroke width. *)
Theorem attribute_keeps_stroke_width (Number : string -> float)
        (name value : string) (rootNode : node) :
  name <> "stroke" -> name <> "stroke-width" ->
  _findLargestStrokeWidth Number (setAttribute name value rootNode)
  = _findLargestStrokeWidth Number rootNode.
Proof.
  intros H1 H2. rewrite !_findLargestStrokeWidth_maxContribution.
  now apply maxContribution_setAttribute.
Qed.

(** A [width] on the root of the two shapes. *)
Lemma attribute_keeps_stroke_width_witness :
  _findLargestStrokeWidth Sample.Number
    (setAttribute "width" "10" Examples.strokes)
  = _findLargestStrokeWidth Sample.Number Examples.strokes.
Proof.
  apply (attribute_keeps_stroke_width Sample.Number "width" "10"
           Examples.strokes); discriminate.
Defined.

End StrokeMore.

(* ================================================================== *)
(** * More on measuring and loading *)
(* ================================================================== *)

Module RendererMore.

Import RendererFacts.

Local Open Scope float_scope.

Section WithBrowser.

Variable parseFromString : string -> Document.
Variable serializeToString : Document -> string.
Variable convertFonts : node -> option node.
Variable inlineSvgFonts : node -> node.
Variable getBBox : node -> option Rect.
Variable Number : string -> float.
Variable ToString : float -> string.

(** The methods with the browser of this section. *)
Local Notation "'run_transformText'" := (_transformText convertFonts).
Local Notation "'run_transformMeasurements'" :=
  (_transformMeasurements parseFromString serializeToString inlineSvgFonts
                          getBBox Number ToString).
Local Notation "'run_loadString'" :=
  (loadString parseFromString serializeToString convertFonts inlineSvgFonts
              getBBox Number ToString).
Local Notation "'run_measure'" :=
  (measure parseFromString serializeToString convertFonts inlineSvgFonts
           getBBox Number ToString).
Local Notation "'run_toString'" :=
  (toString serializeToString inlineSvgFonts).
Local Notation "'after_reparse'" := (reparsed parseFromString serializeToString).
Local Notation "'after_measure'" := (measured Number ToString).

(** X17. [_transformMeasurements] ends in one of three ways.  It goes
    through exactly when there is a document and an element to measure, the
    oracle gives a box, and the text of the document parses to a document
    with a root element.  It throws what the oracle threw exactly when there
    is a document and an element and the oracle throws.  Otherwise it throws
    a [TypeError], and it throws nothing else. *)
Theorem measurement_outcomes (s s' : Store) (outcome : exn + unit) :
  run_transformMeasurements s = (outcome, s') ->
  (outcome = inr tt \/ outcome = inl TypeError
   \/ outcome = inl MeasurementFailure)
  /\ (outcome = inr tt
      <-> exists d svgTag bbox root,
            _svgDom (this s) = Some d /\ svgTagNode (this s) = Some svgTag
            /\ getBBox svgTag = Some bbox
            /\ documentElement (parseFromString (serializeToString d))
               = Some root)
  /\ (outcome = inl MeasurementFailure
      <-> exists d svgTag,
            _svgDom (this s) = Some d /\ svgTagNode (this s) = Some svgTag
            /\ getBBox svgTag = None).
Proof.
  rewrite _transformMeasurements_run.
  destruct (_svgDom (this s)) as [d|] eqn:Hd; cbn zeta;
    [destruct (svgTagNode (this s)) as [svgTag|] eqn:Htag;
     [destruct (getBBox svgTag) as [bbox|] eqn:Hbox;
      [rewrite svgTagNode_reparsed;
       destruct (documentElement (parseFromString (serializeToString d)))
         as [root|] eqn:Hroot|]|]|];
    intros [= <- <-];
    (split; [auto|]);
    split;
    (split;
     [ try discriminate; intros _; repeat eexists; eauto
     | try reflexivity; intros;
       repeat match goal with
              | H : exists _, _ |- _ => destruct H
              | H : _ /\ _ |- _ => destruct H
              end; congruence ]).
Qed.

Lemma measured_state bbox svgTag r d root :
  _svgTag r = Some RootOfSvgDom -> _svgDom r = Some d ->
  documentElement d = Some root -> isElement root = true ->
  exists d' root',
    _svgDom (after_measure bbox svgTag r) = Some d'
    /\ _svgTag (after_measure bbox svgTag r) = Some RootOfSvgDom
    /\ documentElement d' = Some root'
    /\ svgTagNode (after_measure bbox svgTag r) = Some root'
    /\ List.length (doc_childNodes d') = List.length (doc_childNodes d)
    /\ localName root' = localName root
    /\ childNodes root' = childNodes root
    /\ forall name, ~ In name ["width"; "height"; "viewBox"]%string ->
         getAttribute name root' = getAttribute name root.
Proof.
  intros Htag Hdom Hroot Hel. unfold measured. cbn zeta.
  set (fw := setAttribute "width" _). set (fh := setAttribute "height" _).
  set (fv := setAttribute "viewBox" _).
  destruct (svgTagNode_updateSvgTag_root fw r d root Htag Hdom Hroot)
    as (T1 & D1 & R1).
  { subst fw. now rewrite isElement_setAttribute. }
  destruct (svgTagNode_updateSvgTag_root fh _ _ _ T1 D1 R1) as (T2 & D2 & R2).
  { subst fh fw. now rewrite !isElement_setAttribute. }
  destruct (svgTagNode_updateSvgTag_root fv _ _ _ T2 D2 R2) as (T3 & D3 & R3).
  { subst fv fh fw. now rewrite !isElement_setAttribute. }
  eexists. eexists. cbn [_svgDom _svgTag set_measurements].
  split; [exact D3|]. split; [exact T3|]. split; [exact R3|].
  split. { unfold svgTagNode. cbn [_svgDom _svgTag set_measurements].
           now rewrite T3, D3. }
  assert (Hlen : forall f l, List.length (mapFirstElement f l) = List.length l).
  { intros f l. induction l as [|n l IH]; cbn; auto.
    destruct (isElement n); cbn; auto. }
  split. { cbn [updateDocumentElement doc_childNodes]. now rewrite !Hlen. }
  subst fv fh fw. destruct root as [tag a kids| |]; try discriminate.
  cbn [setAttribute localName childNodes]. repeat split.
  intros name Hn. unfold getAttribute. cbn [attributes].
  rewrite !getAttr_setAttr_other; auto;
    match goal with
    | |- String.eqb ?q name = false =>
        destruct (String.eqb_spec q name); auto; subst; exfalso; apply Hn;
        cbn; auto
    end.
Qed.

(** X18. A measurement that goes through writes [width], [height] and
    [viewBox] on the root element and nothing else: the current document is
    the one parsed again from the text, with as many nodes; its root, which
    [this._svgTag] shows again, has its tag and its children as parsed, and
    every other attribute as parsed. *)
Theorem measurement_writes_three_attributes (s s' : Store) :
  run_transformMeasurements s = (inr tt, s') ->
  exists d reparsedDom root dom' root',
    _svgDom (this s) = Some d
    /\ reparsedDom = parseFromString (serializeToString d)
    /\ documentElement reparsedDom = Some root
    /\ _svgDom (this s') = Some dom'
    /\ documentElement dom' = Some root'
    /\ svgTagNode (this s') = Some root'
    /\ List.length (doc_childNodes dom') = List.length (doc_childNodes reparsedDom)
    /\ localName root' = localName root
    /\ childNodes root' = childNodes root
    /\ forall name, ~ In name ["width"; "height"; "viewBox"]%string ->
         getAttribute name root' = getAttribute name root.
Proof.
  rewrite _transformMeasurements_run.
  destruct (_svgDom (this s)) as [d|] eqn:Hd; [|discriminate].
  cbn zeta.
  destruct (svgTagNode (this s)) as [svgTag|]; [|discriminate].
  destruct (getBBox svgTag) as [bbox|]; [|discriminate].
  destruct (svgTagNode (after_reparse d (this s))) as [root|] eqn:Hroot;
    [|discriminate].
  intros [= <-]. cbn [this].
  destruct (reparsed_root _ _ _ _ _ Hroot) as (Htag & Hdoc & Hel).
  destruct (measured_state bbox root _ _ root Htag
              (svgDom_reparsed parseFromString serializeToString _ _) Hdoc Hel)
    as (d' & root' & H1 & _ & H3 & H4 & H5 & H6 & H7 & H8).
  exists d, (parseFromString (serializeToString d)), root, d', root'.
  repeat split; auto.
Qed.

(** ** A load from end to end *)

Lemma loadString_succeeds (svgString : string) (s : Store)
        (root0 conv svgTag root2 : node) (bbox : Rect) :
  documentElement (parseFromString svgString) = Some root0 ->
  localName root0 = Some "svg" ->
  convertFonts (transformTextElements root0) = Some conv ->
  documentElement (afterText conv (parseFromString svgString)) = Some svgTag ->
  getBBox svgTag = Some bbox ->
  documentElement
    (parseFromString
       (serializeToString (afterText conv (parseFromString svgString))))
  = Some root2 ->
  exists s',
    run_loadString svgString s = (inr tt, s')
    /\ _cachedImage (this s') = None
    /\ _svgTag (this s') = Some RootOfSvgDom
    /\ _measurements (this s')
       = withStroke bbox (_findLargestStrokeWidth Number root2).
Proof.
  intros Hroot0 Hsvg Hconv Htag Hbox Hroot2.
  destruct (loadString_text_step _ _ svgString s root0 conv Hroot0 Hconv)
    as (s2 & Hrun2 & Hthis2 & Hdoc2).
  assert (Hdom2 : _svgDom (this s2)
                  = Some (afterText conv (parseFromString svgString)))
    by now rewrite Hthis2.
  assert (Htag2 : svgTagNode (this s2) = Some svgTag).
  { rewrite Hthis2. unfold svgTagNode. cbn [_svgTag _svgDom]. exact Htag. }
  eexists. rewrite loadString_run. cbn zeta.
  rewrite (documentElement_length _ _ Hroot0), Hroot0, Hsvg.
  cbn [String.eqb Ascii.eqb Bool.eqb negb]. unfold bind at 1. rewrite Hrun2.
  rewrite (_transformMeasurements_succeeds
             parseFromString serializeToString inlineSvgFonts getBBox Number
             ToString s2 _ svgTag bbox root2 Hdom2 Htag2 Hbox Hroot2).
  split; [reflexivity|]. cbn [this].
  rewrite measured_cachedImage, reparsed_cachedImage, Hthis2.
  split; [reflexivity|].
  assert (Hsv : svgTagNode (after_reparse
                              (afterText conv (parseFromString svgString))
                              (this s2)) = Some root2)
    by now rewrite svgTagNode_reparsed.
  destruct (reparsed_root _ _ _ _ _ Hsv) as (Ht & Hd & Hel).
  destruct (measured_state bbox root2 _ _ root2 Ht
              (svgDom_reparsed parseFromString serializeToString _ _) Hd Hel)
    as (d' & root' & _ & Ht' & _).
  rewrite Hthis2 in Ht'. split; [exact Ht'|]. reflexivity.
Qed.

(** X19. A load goes through when the string parses to a document with the
    root [svg], [convertFonts] returns, the oracle gives a box for the root
    as the text step leaves it, and the text of that document parses to a
    document with a root.  Then the cache is empty, [this._svgTag] is the
    root of the current document, and the measurements are the box widened
    by half the largest stroke width of the root parsed last. *)
Theorem load_goes_through (svgString : string) (s : Store)
        (root0 conv svgTag root2 : node) (bbox : Rect) :
  documentElement (parseFromString svgString) = Some root0 ->
  localName root0 = Some "svg" ->
  convertFonts (transformTextElements root0) = Some conv ->
  documentElement (afterText conv (parseFromString svgString)) = Some svgTag ->
  getBBox svgTag = Some bbox ->
  documentElement
    (parseFromString
       (serializeToString (afterText conv (parseFromString svgString))))
  = Some root2 ->
  exists s',
    run_loadString svgString s = (inr tt, s')
    /\ _cachedImage (this s') = None
    /\ _svgTag (this s') = Some RootOfSvgDom
    /\ _measurements (this s')
       = withStroke bbox (_findLargestStrokeWidth Number root2).
Proof. apply loadString_succeeds. Qed.

(** X20. How a load ends depends on the string and on the browser only, not
    on the renderer or the page it starts from: it is the outcome of the
    checks the code makes, in their order.  So a load that failed fails
    again, and one that went through goes through again, whatever was loaded
    in between. *)
Theorem load_outcome_by_string (svgString : string) (s : Store) :
  fst (run_loadString svgString s)
  = loadOutcome parseFromString serializeToString convertFonts getBBox
                svgString
  /\ forall s0 : Store,
       fst (run_loadString svgString s0) = fst (run_loadString svgString s).
Proof.
  assert (H : forall s1 : Store,
             fst (run_loadString svgString s1)
             = loadOutcome parseFromString serializeToString convertFonts
                           getBBox svgString).
  { intros s1. unfold loadOutcome. cbn zeta.
    rewrite loadString_run. cbn zeta.
    destruct (List.length _ <? 1)%nat; [reflexivity|].
    destruct (documentElement (parseFromString svgString)) as [root0|] eqn:Hroot;
      [|reflexivity].
    destruct (negb _); [reflexivity|].
    unfold bind.
    destruct (convertFonts (transformTextElements root0)) as [conv|] eqn:Hconv.
    2:{ pose proof (loadString_text_throws _ _ svgString s1 root0 Hroot Hconv) as Ht.
        destruct (run_transformText _) as [[e|[]] s2]; cbn [fst] in *;
          congruence. }
    destruct (loadString_text_step _ _ svgString s1 root0 conv Hroot Hconv)
      as (s2 & Hrun2 & Hthis2 & _).
    rewrite Hrun2, _transformMeasurements_run, Hthis2.
    cbn [_svgDom]. cbn zeta. unfold svgTagNode at 1. cbn [_svgTag _svgDom].
    destruct (documentElement (afterText conv (parseFromString svgString)))
      as [svgTag|]; [|reflexivity].
    destruct (getBBox svgTag); [|reflexivity].
    rewrite svgTagNode_reparsed.
    destruct (documentElement (parseFromString (serializeToString _)));
      reflexivity. }
  split; [apply H|]. intros s0. now rewrite !H.
Qed.

(** ** The getters *)

(** X21. [measure] returns the rectangle [size] and [viewOffset] then show:
    its width and height, and its x and y.  After a [measure] that threw
    they show what they showed before it. *)
Theorem getters_after_measure (svgString : string) (s s' : Store)
        (outcome : exn + Rect) :
  run_measure svgString s = (outcome, s') ->
  match outcome with
  | inr m =>
      fst (size s') = inr [Num.width m; Num.height m]
      /\ fst (viewOffset s') = inr [Num.x m; Num.y m]
  | inl _ =>
      fst (size s') = fst (size s)
      /\ fst (viewOffset s') = fst (viewOffset s)
  end.
Proof.
  unfold measure, bind.
  destruct (run_loadString svgString s) as [[e|[]] s1] eqn:Hload.
  - intros [= <- <-].
    destruct (loadString_failure _ _ _ _ _ _ _ _ _ _ _ Hload) as (Hm & _).
    unfold size, viewOffset, gets. cbn [fst]. now rewrite Hm.
  - unfold gets. intros [= <- <-]. split; reflexivity.
Qed.

(** ** Loading what was written *)

Lemma documentElement_afterText conv d root :
  documentElement d = Some root -> isElement conv = true ->
  documentElement (afterText conv d) = Some conv.
Proof.
  intros Hroot Hconv. unfold afterText.
  apply (documentElement_update (fun _ => conv) _ (transformTextElements root));
    auto.
  apply documentElement_update; auto.
  rewrite transformTextElements_quirksRec, quirksRec_isElement.
  now apply documentElement_isElement in Hroot.
Qed.

(** X22. Loading the text of a loaded document again gives the same
    measurements.  Take a renderer that holds a document with the root
    [svg] and the measurements of a box and of the stroke width of that
    root, as a load leaves them; let the parser read back what the
    serializer writes, [convertFonts] find nothing to convert, and the
    oracle give the same box.  Then loading the serialized document goes
    through and the measurements are the same. *)
Theorem reload_keeps_measurements (s1 s : Store) (dom : Document)
        (root : node) (bbox : Rect) :
  _svgDom (this s1) = Some dom ->
  documentElement dom = Some root ->
  localName root = Some "svg" ->
  _measurements (this s1)
  = withStroke bbox (_findLargestStrokeWidth Number root) ->
  parseFromString (serializeToString dom) = dom ->
  convertFonts (transformTextElements root)
  = Some (transformTextElements root) ->
  getBBox (transformTextElements root) = Some bbox ->
  parseFromString
    (serializeToString (afterText (transformTextElements root) dom))
  = afterText (transformTextElements root) dom ->
  exists s2,
    run_loadString (serializeToString dom) s = (inr tt, s2)
    /\ _measurements (this s2) = _measurements (this s1).
Proof.
  intros Hdom Hroot Hsvg Hm Hparse Hconv Hbox Hparse2.
  assert (Hel : isElement (transformTextElements root) = true).
  { rewrite transformTextElements_quirksRec, quirksRec_isElement.
    now apply documentElement_isElement in Hroot. }
  assert (Hafter : documentElement (afterText (transformTextElements root) dom)
                   = Some (transformTextElements root))
    by now apply (documentElement_afterText _ _ root).
  destruct (loadString_succeeds (serializeToString dom) s root
              (transformTextElements root) (transformTextElements root)
              (transformTextElements root) bbox) as (s2 & Hrun & _ & _ & Hm2).
  - now rewrite Hparse.
  - exact Hsvg.
  - exact Hconv.
  - now rewrite Hparse.
  - exact Hbox.
  - now rewrite Hparse, Hparse2.
  - exists s2. split; [exact Hrun|].
    rewrite Hm2, Hm. f_equal.
    rewrite !_findLargestStrokeWidth_maxContribution.
    rewrite transformTextElements_quirksRec.
    apply StrokeMore.maxContribution_quirksRec.
Qed.

End WithBrowser.

(** ** The theorems on examples *)

(** The drawing with one stroke, parsed and through the text step: the
    measurement goes through, so the oracle gave a box. *)
Lemma measurement_outcomes_witness :
  exists d svgTag bbox root,
    _svgDom (this (Sample.parsedStore Sample.oneStroke)) = Some d
    /\ svgTagNode (this (Sample.parsedStore Sample.oneStroke)) = Some svgTag
    /\ Sample.getBBox svgTag = Some bbox
    /\ documentElement
         (Sample.parseFromString (Sample.serializeToString d)) = Some root.
Proof.
  apply (proj1 (proj1 (proj2
           (measurement_outcomes Sample.parseFromString
              Sample.serializeToString Sample.inlineSvgFonts Sample.getBBox
              Sample.Number Sample.ToString
              (Sample.parsedStore Sample.oneStroke)
              (snd (Sample.transformMeasurementsWith Sample.getBBox
                      (Sample.parsedStore Sample.oneStroke)))
              (inr tt) eq_refl)))).
  reflexivity.
Defined.

(** The drawing with one stroke: the shape is still the child of the root. *)
Lemma measurement_writes_three_attributes_witness :
  exists s' root',
    Sample.transformMeasurementsWith Sample.getBBox
      (Sample.parsedStore Sample.oneStroke) = (inr tt, s')
    /\ svgTagNode (this s') = Some root'
    /\ localName root' = Some "svg"
    /\ childNodes root' = [Element "rect" [("stroke-width", "1")] []].
Proof.
  destruct (measurement_writes_three_attributes Sample.parseFromString
              Sample.serializeToString Sample.inlineSvgFonts Sample.getBBox
              Sample.Number Sample.ToString
              (Sample.parsedStore Sample.oneStroke)
              (snd (Sample.transformMeasurementsWith Sample.getBBox
                      (Sample.parsedStore Sample.oneStroke)))
              eq_refl)
    as (d & reparsedDom & root & dom' & root' & Hd & -> & Hroot & _ & _
        & Htag & _ & Hname & Hkids & _).
  injection Hd as <-. injection Hroot as <-.
  exists (snd (Sample.transformMeasurementsWith Sample.getBBox
                 (Sample.parsedStore Sample.oneStroke))), root'.
  split; [reflexivity|].
  split; [exact Htag|]. split; [exact Hname|exact Hkids].
Defined.

(** The greeting, loaded by a renderer just made: a box of 10 by 20 and a
    stroke. *)
Lemma load_goes_through_witness :
  exists s',
    Sample.load Sample.getBBox (Sample.serializeToString Sample.greeting)
      Sample.freshStore = (inr tt, s')
    /\ _cachedImage (this s') = None
    /\ _svgTag (this s') = Some RootOfSvgDom
    /\ _measurements (this s')
       = mkRect (0 - 1 / 2) (0 - 1 / 2) (10 + 1 / 2 * 2) (20 + 1 / 2 * 2).
Proof.
  exact (load_goes_through Sample.parseFromString Sample.serializeToString
           Sample.convertFonts Sample.inlineSvgFonts Sample.getBBox
           Sample.Number Sample.ToString
           (Sample.serializeToString Sample.greeting) Sample.freshStore
           _ _ _ _ (mkRect 0 0 10 20)
           eq_refl eq_refl eq_refl eq_refl eq_refl eq_refl).
Defined.

(** The greeting, measured by a renderer just made. *)
Lemma getters_after_measure_witness :
  fst (size Sample.loaded) = inr [10 + 1 / 2 * 2; 20 + 1 / 2 * 2]
  /\ fst (viewOffset Sample.loaded) = inr [0 - 1 / 2; 0 - 1 / 2].
Proof.
  exact (getters_after_measure Sample.parseFromString
           Sample.serializeToString Sample.convertFonts
           Sample.inlineSvgFonts Sample.getBBox Sample.Number Sample.ToString
           (Sample.serializeToString Sample.greeting) Sample.freshStore
           Sample.loaded
           (inr (mkRect (0 - 1 / 2) (0 - 1 / 2) (10 + 1 / 2 * 2)
                        (20 + 1 / 2 * 2)))
           eq_refl).
Defined.

(** The greeting as loaded, written and loaded again by a renderer just
    made. *)
Lemma reload_keeps_measurements_witness :
  exists s2,
    loadString Examples.parseFromString Sample.serializeToString
      Sample.convertFonts Sample.inlineSvgFonts Sample.getBBox Sample.Number
      Sample.ToString (Sample.serializeToString Examples.loadedGreeting)
      Sample.freshStore = (inr tt, s2)
    /\ _measurements (this s2) = _measurements (this Sample.loaded).
Proof.
  exact (reload_keeps_measurements Examples.parseFromString
           Sample.serializeToString Sample.convertFonts
           Sample.inlineSvgFonts Sample.getBBox Sample.Number Sample.ToString
           Sample.loaded Sample.freshStore Examples.loadedGreeting _
           (mkRect 0 0 10 20)
           eq_refl eq_refl eq_refl eq_refl eq_refl eq_refl eq_refl eq_refl).
Defined.

End RendererMore.

(* ================================================================== *)
(** * Drawing *)
(* ================================================================== *)

Module DrawFacts.

Import RendererFacts.

Local Open Scope float_scope.

Lemma orNumber_truthy v otherwise :
  truthy_number otherwise = true -> truthy_number (orNumber v otherwise) = true.
Proof.
  intros H. destruct v as [v|]; cbn [orNumber]; auto.
  destruct (truthy_number v) eqn:E; auto.
Qed.

Lemma orNumber_falsy v otherwise : falsy v -> orNumber v otherwise = otherwise.
Proof.
  destruct v as [v|]; cbn [orNumber falsy]; auto. now intros ->.
Qed.

Lemma firstOr1_nil : firstOr1 [] 1.
Proof. right. split; [constructor|reflexivity]. Qed.

Lemma firstOr1_orNumber v rest x :
  firstOr1 rest x -> firstOr1 (v :: rest) (orNumber v x).
Proof.
  intros H.
  assert (Hskip : falsy v -> firstOr1 (v :: rest) x).
  { intros Hv. destruct H as [(before & after & -> & Hb & Hx)|(Hall & ->)].
    - left. exists (v :: before), after. repeat split; auto.
    - right. split; auto. }
  destruct v as [v|]; cbn [orNumber]; [|now apply Hskip].
  destruct (truthy_number v) eqn:E; [|now apply Hskip].
  left. exists [], rest. repeat split; auto.
Qed.

(** X23. The draw ratio is the quotient of two numbers.  The first is the
    declared device pixel ratio, or 1 when that is missing, 0 or [NaN]; the
    second is the first of the five backing store ratios, in the order of
    lines 259-263, that is not missing, 0 or [NaN], or 1 when there is none.
    So [getDrawRatio] never divides by zero or by [NaN], and never divides
    zero or [NaN]; and on a browser that declares no such ratio, the draw
    ratio is 1. *)
Theorem getDrawRatio_operands (w : World) :
  getDrawRatio w = devicePixelRatioOr1 w / backingStoreRatio w
  /\ firstOr1 [devicePixelRatio w] (devicePixelRatioOr1 w)
  /\ firstOr1 [webkitBackingStorePixelRatio (context w);
               mozBackingStorePixelRatio (context w);
               msBackingStorePixelRatio (context w);
               oBackingStorePixelRatio (context w);
               backingStorePixelRatio (context w)]
              (backingStoreRatio w)
  /\ truthy_number (devicePixelRatioOr1 w) = true
  /\ truthy_number (backingStoreRatio w) = true
  /\ (falsy (devicePixelRatio w) ->
      falsy (webkitBackingStorePixelRatio (context w)) ->
      falsy (mozBackingStorePixelRatio (context w)) ->
      falsy (msBackingStorePixelRatio (context w)) ->
      falsy (oBackingStorePixelRatio (context w)) ->
      falsy (backingStorePixelRatio (context w)) ->
      getDrawRatio w = 1).
Proof.
  split; [reflexivity|].
  unfold devicePixelRatioOr1, backingStoreRatio, getDrawRatio.
  split; [apply firstOr1_orNumber, firstOr1_nil|].
  split; [repeat apply firstOr1_orNumber; apply firstOr1_nil|].
  repeat split.
  - now apply orNumber_truthy.
  - now repeat apply orNumber_truthy.
  - intros H0 H1 H2 H3 H4 H5.
    unfold devicePixelRatioOr1, backingStoreRatio.
    now rewrite !orNumber_falsy by assumption.
Qed.

(** A browser whose ratios are missing, zero or [NaN]: the ratio is 1.  A
    browser that declares 2 device pixels to the pixel and no backing store
    ratio: the ratio is 2. *)
Lemma getDrawRatio_operands_witness :
  getDrawRatio Examples.oldBrowser = 1
  /\ firstOr1 [Some 2] (devicePixelRatioOr1 Examples.blankWorld)
  /\ getDrawRatio Examples.blankWorld = 2 / 1.
Proof.
  split.
  - exact (proj2 (proj2 (proj2 (proj2 (proj2
             (getDrawRatio_operands Examples.oldBrowser)))))
             I eq_refl I I I eq_refl).
  - destruct (getDrawRatio_operands Examples.blankWorld)
      as (Hratio & Hdevice & _).
    split; [exact Hdevice|exact Hratio].
Defined.

Section WithBrowser.

Variable parseFromString : string -> Document.
Variable serializeToString : Document -> string.
Variable convertFonts : node -> option node.
Variable inlineSvgFonts : node -> node.
Variable getBBox : node -> option Rect.
Variable Number : string -> float.
Variable ToString : float -> string.
Variable encodeURIComponent : string -> string.
Variable toCanvasWidth : float -> float.
Variable toCanvasHeight : float -> float.
Variable runCallback : Callback -> D unit.

(** The methods with the browser of this section. *)
Local Notation "'run_loadString'" :=
  (loadString parseFromString serializeToString convertFonts inlineSvgFonts
              getBBox Number ToString).
Local Notation "'run_drawFromImage'" :=
  (_drawFromImage toCanvasWidth toCanvasHeight runCallback).
Local Notation "'run_draw'" :=
  (_draw serializeToString inlineSvgFonts encodeURIComponent toCanvasWidth
         toCanvasHeight runCallback).
Local Notation "'run_onload'" :=
  (onload toCanvasWidth toCanvasHeight runCallback).
Local Notation "'run_fromString'" :=
  (fromString parseFromString serializeToString convertFonts inlineSvgFonts
              getBBox Number ToString encodeURIComponent toCanvasWidth
              toCanvasHeight runCallback).

(** The scale a draw uses. *)
Lemma _drawFromImage_run scale onFinish w :
  run_drawFromImage scale onFinish w
  = match _cachedImage (this (store w)) with
    | None => (inr tt, w)
    | Some img =>
        let ratio :=
          getDrawRatio w
          * (if Number_isFinite scale
             then match scale with Some v => v | None => 1 end
             else 1) in
        let bbox := _measurements (this (store w)) in
        let cw := toCanvasWidth (Num.width bbox * ratio) in
        let ch := toCanvasHeight (Num.height bbox * ratio) in
        callIfGiven runCallback onFinish
          (mkWorld (store w)
             (mkCanvas cw ch (Some (Num.width bbox)) (Some (Num.height bbox)))
             (mkContext (webkitBackingStorePixelRatio (context w))
                        (mozBackingStorePixelRatio (context w))
                        (msBackingStorePixelRatio (context w))
                        (oBackingStorePixelRatio (context w))
                        (backingStorePixelRatio (context w))
                        (calls (context w)
                         ++ [ctx_clearRect 0 0 cw ch; ctx_scale ratio ratio;
                             ctx_drawImage img 0 0;
                             ctx_setTransform 1 0 0 1 0 0]))
             (devicePixelRatio w) (images w) (nextImage w) (finished w))
    end.
Proof.
  destruct w as [s c ctx dpr imgs nxt fin].
  destruct c as [cw0 ch0 sw0 sh0]. destruct ctx as [r1 r2 r3 r4 r5 cs].
  unfold _drawFromImage, bindD, getsD, retD.
  cbv beta iota delta [store].
  destruct (_cachedImage (this s)) as [img|]; [|reflexivity].
  cbv beta iota zeta
      delta [modifyD call withCanvas store canvas context devicePixelRatio
             images nextImage finished canvas_width canvas_height style_width
             style_height fst snd calls webkitBackingStorePixelRatio
             mozBackingStorePixelRatio msBackingStorePixelRatio
             oBackingStorePixelRatio backingStorePixelRatio].
  rewrite <- !app_assoc. reflexivity.
Qed.

(** [if (onFinish) onFinish()], in the two cases. *)
Lemma callIfGiven_run onFinish w :
  match onFinish with
  | None => callIfGiven runCallback onFinish w = (inr tt, w)
  | Some f => callIfGiven runCallback onFinish w = runCallback f (called f w)
  end.
Proof. destruct onFinish; reflexivity. Qed.

(** The world when [_drawFromImage] has drawn the cached image and is at
    line 308. *)
Lemma drawFromImage_drawn scale onFinish w img :
  _cachedImage (this (store w)) = Some img ->
  exists drawn,
    store drawn = store w
    /\ images drawn = images w
    /\ nextImage drawn = nextImage w
    /\ finished drawn = finished w
    /\ (exists before,
          calls (context drawn)
          = before ++ [ctx_drawImage img 0 0; ctx_setTransform 1 0 0 1 0 0])
    /\ match onFinish with
       | None => run_drawFromImage scale onFinish w = (inr tt, drawn)
       | Some f =>
           run_drawFromImage scale onFinish w = runCallback f (called f drawn)
       end.
Proof.
  intros Hcache. rewrite _drawFromImage_run, Hcache. cbn zeta.
  match goal with
  | |- context [callIfGiven runCallback onFinish ?v] => exists v
  end.
  cbn [store images nextImage finished context calls].
  repeat split.
  - eexists (calls (context w) ++ [_; _]). rewrite <- app_assoc. reflexivity.
  - apply callIfGiven_run.
Qed.

(** X24. Without a cached image [_drawFromImage] returns at once: nothing
    has changed and [onFinish] is not called.  With one, it draws first and
    calls [onFinish] last: when line 308 is reached the renderer, the page
    and the images are as before, no function has been called, and the
    calls on the context end with [drawImage] of the cached image and
    [setTransform].  Then, without an [onFinish], it returns; with one, the
    function is called, once, and what it does and throws is what
    [_drawFromImage] does and throws. *)
Theorem drawFromImage_frame (scale : option float)
        (onFinish : option Callback) (w : World) :
  (_cachedImage (this (store w)) = None ->
   run_drawFromImage scale onFinish w = (inr tt, w))
  /\ (forall img,
        _cachedImage (this (store w)) = Some img ->
        exists drawn,
          store drawn = store w
          /\ images drawn = images w
          /\ nextImage drawn = nextImage w
          /\ finished drawn = finished w
          /\ (exists before,
                calls (context drawn)
                = before ++ [ctx_drawImage img 0 0;
                             ctx_setTransform 1 0 0 1 0 0])
          /\ match onFinish with
             | None => run_drawFromImage scale onFinish w = (inr tt, drawn)
             | Some f =>
                 run_drawFromImage scale onFinish w
                 = runCallback f (called f drawn)
             end).
Proof.
  split.
  - intros Hcache. now rewrite _drawFromImage_run, Hcache.
  - intros img. apply drawFromImage_drawn.
Qed.

(** X25. A [scale] that is missing, [NaN] or infinite is a scale of 1: the
    draw is the same in every respect. *)
Theorem scale_defaults_to_one (scale : option float)
        (onFinish : option Callback) (w : World) :
  Number_isFinite scale = false ->
  run_drawFromImage scale onFinish w
  = run_drawFromImage (Some 1) onFinish w.
Proof.
  intros H. rewrite !_drawFromImage_run, H. reflexivity.
Qed.

(** ** Loading and drawing *)

Lemma loadString_cachedImage svgString s outcome s' :
  run_loadString svgString s = (outcome, s') ->
  _cachedImage (this s') = None
  /\ (outcome = inr tt -> exists d, _svgDom (this s') = Some d).
Proof.
  rewrite loadString_run. cbn zeta. destruct s as [r p].
  set (s1 := withThis _ (mkStore r p)).
  assert (Hc1 : _cachedImage (this s1) = None) by reflexivity.
  destruct (List.length _ <? 1)%nat;
    [intros [= <- <-]; split; [auto|discriminate]|].
  destruct (documentElement (parseFromString svgString)) as [root|];
    [|intros [= <- <-]; split; [auto|discriminate]].
  destruct (negb _); [intros [= <- <-]; split; [auto|discriminate]|].
  unfold bind.
  destruct (_transformText convertFonts _) as [[e1|[]] s2] eqn:Ht;
    apply _transformText_keeps in Ht;
    destruct Ht as (Hc2 & _ & _ & Hd2 & _).
  - intros [= <- <-]. rewrite Hc2. split; [auto|discriminate].
  - destruct (_transformMeasurements _ _ _ _ _ _ s2) as [o s3] eqn:Hm.
    apply _transformMeasurements_keeps in Hm. destruct Hm as (Hc3 & Hd3 & _).
    intros [= <- <-]. rewrite Hc3, Hc2. split; auto.
    intros _. apply Hd3, Hd2. cbn. eauto.
Qed.

Lemma setSrc_last img obj url l :
  Forall (fun entry => fst entry < img) l ->
  map (fun entry =>
         if isImage img entry
         then (fst entry,
               mkImageObject (onload_scale (snd entry))
                             (onload_onFinish (snd entry)) (Some url))
         else entry) (l ++ [(img, obj)])
  = l ++ [(img, mkImageObject (onload_scale obj) (onload_onFinish obj)
                              (Some url))].
Proof.
  intros Hl. rewrite map_app. f_equal.
  - induction Hl as [|e l He _ IH]; cbn [map]; auto.
    unfold isImage at 1. cbn beta in He. unfold Image in *.
    match goal with
    | |- context [Nat.eqb ?a ?b] => destruct (Nat.eqb_spec a b); [lia|]
    end.
    rewrite IH. reflexivity.
  - cbn. unfold isImage. cbn [fst]. now rewrite Nat.eqb_refl.
Qed.

(** X26. [fromString] does not draw before it returns.  Whether the load
    goes through or throws, when [fromString] returns the canvas and the
    context are untouched and no [onFinish] has been called.  After a load
    that threw, the same was thrown and no image has been made; after a load
    that went through, one image has been made, for the text of the loaded
    document with the fonts inlined, and it holds the [scale] and
    [onFinish] for the time it has loaded. *)
Theorem fromString_draws_later (svgString : string) (scale : option float)
        (onFinish : option Callback) (w w' : World) (outcome : exn + unit) :
  images_ok w ->
  run_fromString svgString scale onFinish w = (outcome, w') ->
  canvas w' = canvas w
  /\ context w' = context w
  /\ finished w' = finished w
  /\ _cachedImage (this (store w')) = None
  /\ store w' = snd (run_loadString svgString (store w))
  /\ match fst (run_loadString svgString (store w)) with
     | inl e => outcome = inl e /\ images w' = images w
     | inr _ =>
         outcome = inr tt
         /\ exists dom,
              _svgDom (this (store w')) = Some dom
              /\ images w'
                 = images w
                   ++ [(nextImage w,
                        mkImageObject scale onFinish
                          (Some ("data:image/svg+xml;utf8,"
                                 ++ encodeURIComponent
                                      (serializeToString
                                         (updateDocumentElement
                                            inlineSvgFonts dom)))%string))]
     end.
Proof.
  intros Hok. unfold fromString, bindD, liftM.
  destruct (run_loadString svgString (store w)) as [[e|[]] s1] eqn:Hload;
    cbn [fst snd];
    destruct (loadString_cachedImage _ _ _ _ Hload) as (Hc & Hd).
  - intros [= <- <-]. cbn [canvas context finished store images].
    repeat split; auto.
  - destruct (Hd eq_refl) as (dom & Hdom).
    unfold _draw, bindD, getsD, newImage, liftM, toString, bind, gets, ret,
      setSrc, modifyD.
    cbn [store canvas context devicePixelRatio images nextImage finished].
    rewrite Hc.
    cbn [store canvas context devicePixelRatio images nextImage finished].
    rewrite Hdom.
    cbn [store canvas context devicePixelRatio images nextImage finished].
    intros [= <- <-].
    cbn [store canvas context devicePixelRatio images nextImage finished].
    repeat split; auto. exists dom. split; auto.
    now rewrite setSrc_last.
Qed.

(** X27. A renderer that holds no document cannot draw.  With no cached
    image either, as after the constructor, [_draw] throws a [TypeError]: it
    has made an image by then, which has no [src] and so never loads; it
    has drawn nothing and called nothing, and the renderer is as before. *)
Theorem draw_before_load (scale : option float) (onFinish : option Callback)
        (w : World) :
  _cachedImage (this (store w)) = None ->
  _svgDom (this (store w)) = None ->
  exists w',
    run_draw scale onFinish w = (inl TypeError, w')
    /\ store w' = store w
    /\ canvas w' = canvas w
    /\ context w' = context w
    /\ finished w' = finished w
    /\ images w' = images w ++ [(nextImage w, mkImageObject scale onFinish None)].
Proof.
  intros Hcache Hdom.
  unfold _draw, bindD, getsD, newImage, liftM, toString, bind, gets, throw.
  rewrite Hcache. cbn [store]. rewrite Hdom.
  eexists. split; [reflexivity|]. repeat split.
Qed.

(** The world when an image the class made has loaded. *)
Lemma onload_run img entry w :
  find (isImage img) (images w) = Some entry ->
  run_onload img w
  = run_drawFromImage (onload_scale (snd entry)) (onload_onFinish (snd entry))
      (withStore (withThis (set_cachedImage (Some img))) w).
Proof.
  intros H. unfold onload, bindD, getsD, modifyD. now rewrite H.
Qed.


(** X29. A load does not call off an image that is still loading.  If an
    image was made by an earlier [_draw] and a string is loaded before the
    browser has loaded the image, then, when it has, that image is made the
    cached one and is drawn, as it was made: when the [onFinish] given with
    it is called, or the [onload] function returns for want of one, the
    cache holds the image of the earlier draw while the document is the one
    of the later load. *)
Theorem earlier_image_is_cached (img : Image) (entry : Image * ImageObject)
        (svgString : string) (w : World) :
  find (isImage img) (images w) = Some entry ->
  exists w1 drawn,
    liftM (run_loadString svgString) w
    = (fst (run_loadString svgString (store w)), w1)
    /\ _cachedImage (this (store w1)) = None
    /\ _cachedImage (this (store drawn)) = Some img
    /\ find (isImage img) (images drawn) = Some entry
    /\ _svgDom (this (store drawn)) = _svgDom (this (store w1))
    /\ (exists before,
          calls (context drawn)
          = before ++ [ctx_drawImage img 0 0; ctx_setTransform 1 0 0 1 0 0])
    /\ match onload_onFinish (snd entry) with
       | None => run_onload img w1 = (inr tt, drawn)
       | Some f => run_onload img w1 = runCallback f (called f drawn)
       end.
Proof.
  intros Hfind. unfold liftM.
  destruct (run_loadString svgString (store w)) as [o s1] eqn:Hload.
  destruct (loadString_cachedImage _ _ _ _ Hload) as (Hc & _).
  set (w1 := mkWorld s1 (canvas w) (context w) (devicePixelRatio w) (images w)
                     (nextImage w) (finished w)).
  assert (Hfind1 : find (isImage img) (images w1) = Some entry) by exact Hfind.
  exists w1. rewrite (onload_run img entry w1 Hfind1).
  destruct (drawFromImage_drawn (onload_scale (snd entry))
              (onload_onFinish (snd entry))
              (withStore (withThis (set_cachedImage (Some img))) w1) img
              eq_refl)
    as (drawn & Hs & Hi & _ & _ & Hcalls & Hrun).
  exists drawn. cbn [fst].
  split; [reflexivity|]. split; [exact Hc|].
  rewrite Hs, Hi. repeat split; auto.
Qed.

End WithBrowser.

(** ** The theorems on examples *)

(** The cached image of the greeting, drawn once more with a function that
    throws: the image is drawn, the function is called, and what it throws
    is thrown. *)
Lemma drawFromImage_frame_witness :
  exists w',
    _drawFromImage Examples.toCanvasWidth Examples.toCanvasHeight
                   Examples.runCallback (Some 3) (Some 7%nat)
                   Examples.drawnWorld
    = (inl TypeError, w')
    /\ store w' = store Examples.drawnWorld
    /\ finished w' = [7%nat]
    /\ exists before,
         calls (context w')
         = before ++ [ctx_drawImage 1%nat 0 0; ctx_setTransform 1 0 0 1 0 0].
Proof.
  destruct (proj2 (drawFromImage_frame Examples.toCanvasWidth
                     Examples.toCanvasHeight Examples.runCallback (Some 3)
                     (Some 7%nat) Examples.drawnWorld) 1%nat eq_refl)
    as (drawn & Hstore & _ & _ & Hfinished & Hcalls & Hrun).
  exists (called 7%nat drawn). split; [exact Hrun|].
  split; [exact Hstore|]. split; [|exact Hcalls].
  cbn [called finished]. rewrite Hfinished. reflexivity.
Defined.

(** A scale that is [NaN]. *)
Lemma scale_defaults_to_one_witness :
  _drawFromImage Examples.toCanvasWidth Examples.toCanvasHeight
                 Examples.runCallback (Some nan) (Some 7%nat)
                 Examples.drawnWorld
  = _drawFromImage Examples.toCanvasWidth Examples.toCanvasHeight
                   Examples.runCallback (Some 1) (Some 7%nat)
                   Examples.drawnWorld.
Proof.
  exact (scale_defaults_to_one Examples.toCanvasWidth Examples.toCanvasHeight
           Examples.runCallback (Some nan) (Some 7%nat) Examples.drawnWorld
           eq_refl).
Defined.

(** The greeting, loaded and drawn by a renderer just made: one image, for
    the scale 3 and the function 5, and nothing drawn or called yet. *)
Lemma fromString_draws_later_witness :
  canvas Examples.drawing = canvas Examples.blankWorld
  /\ context Examples.drawing = context Examples.blankWorld
  /\ finished Examples.drawing = []
  /\ exists dom,
       _svgDom (this (store Examples.drawing)) = Some dom
       /\ images Examples.drawing
          = [(1%nat,
              mkImageObject (Some 3) (Some 5%nat)
                (Some ("data:image/svg+xml;utf8,"
                       ++ Examples.encodeURIComponent
                            (Sample.serializeToString
                               (updateDocumentElement Sample.inlineSvgFonts
                                  dom)))%string))].
Proof.
  destruct (fromString_draws_later Sample.parseFromString
              Sample.serializeToString Sample.convertFonts
              Sample.inlineSvgFonts Sample.getBBox Sample.Number
              Sample.ToString Examples.encodeURIComponent
              Examples.toCanvasWidth Examples.toCanvasHeight
              Examples.runCallback
              (Sample.serializeToString Sample.greeting) (Some 3)
              (Some 5%nat) Examples.blankWorld Examples.drawing (inr tt)
              (Forall_nil _) eq_refl)
    as (Hcanvas & Hcontext & Hfinished & _ & _ & H).
  change ((inr tt : exn + unit) = inr tt
          /\ exists dom,
               _svgDom (this (store Examples.drawing)) = Some dom
               /\ images Examples.drawing
                  = images Examples.blankWorld
                    ++ [(nextImage Examples.blankWorld,
                         mkImageObject (Some 3) (Some 5%nat)
                           (Some ("data:image/svg+xml;utf8,"
                                  ++ Examples.encodeURIComponent
                                       (Sample.serializeToString
                                          (updateDocumentElement
                                             Sample.inlineSvgFonts
                                             dom)))%string))]) in H.
  destruct H as (_ & Himages).
  split; [exact Hcanvas|]. split; [exact Hcontext|].
  split; [exact Hfinished|exact Himages].
Defined.

(** A renderer just made, asked to draw. *)
Lemma draw_before_load_witness :
  exists w',
    _draw Sample.serializeToString Sample.inlineSvgFonts
          Examples.encodeURIComponent Examples.toCanvasWidth
          Examples.toCanvasHeight Examples.runCallback (Some 3) (Some 5%nat)
          Examples.blankWorld
    = (inl TypeError, w')
    /\ context w' = context Examples.blankWorld
    /\ finished w' = []
    /\ images w' = [(1%nat, mkImageObject (Some 3) (Some 5%nat) None)].
Proof.
  destruct (draw_before_load Sample.serializeToString Sample.inlineSvgFonts
              Examples.encodeURIComponent Examples.toCanvasWidth
              Examples.toCanvasHeight Examples.runCallback (Some 3)
              (Some 5%nat) Examples.blankWorld eq_refl eq_refl)
    as (w' & Hrun & _ & _ & Hcontext & Hfinished & Himages).
  exists w'. split; [exact Hrun|]. split; [exact Hcontext|].
  split; [exact Hfinished|exact Himages].
Defined.


(** The image of the greeting, loaded when the drawing with one stroke has
    been loaded since. *)
Lemma earlier_image_is_cached_witness :
  exists w1 w2,
    liftM (Sample.load Sample.getBBox
             (Sample.serializeToString Sample.oneStroke)) Examples.drawing
    = (inr tt, w1)
    /\ _cachedImage (this (store w1)) = None
    /\ onload Examples.toCanvasWidth Examples.toCanvasHeight
              Examples.runCallback 1%nat w1
       = (inr tt, w2)
    /\ _cachedImage (this (store w2)) = Some 1%nat
    /\ find (isImage 1%nat) (images w2)
       = find (isImage 1%nat) (images Examples.drawing)
    /\ _svgDom (this (store w2)) = _svgDom (this (store w1)).
Proof.
  destruct (earlier_image_is_cached Sample.parseFromString
              Sample.serializeToString Sample.convertFonts
              Sample.inlineSvgFonts Sample.getBBox Sample.Number
              Sample.ToString Examples.toCanvasWidth Examples.toCanvasHeight
              Examples.runCallback 1%nat _
              (Sample.serializeToString Sample.oneStroke)
              Examples.drawing eq_refl)
    as (w1 & drawn & Hload & Hnone & Hcache & Hfind & Hdom & _ & Hrun).
  exists w1, (called 5%nat drawn). split; [exact Hload|].
  split; [exact Hnone|]. split; [exact Hrun|]. split; [exact Hcache|].
  split; [exact Hfind|exact Hdom].
Defined.

End DrawFacts.
